(** * AT-AT: the OpenAPI/Swagger parser ([openapi_parser.py])

    The repository holds two variants of [SwaggerProcessor]:

    - [src/core/src/parser/openapi_parser.py], which follows [$ref] pointers
      itself ([__parse_ref], [__find_key_in_dict]) and writes into the decoded
      document while doing so: module [Core];
    - [src/project/core/src/parser/openapi_parser.py], which receives a
      document whose pointers were resolved by an outside library and only
      cleans schemas ([__prepare_schema]): module [Project].

    Decoded documents are Python values.  [Core] keeps them in a store of
    mutable objects, because [__parse_ref] returns and stores references to
    the document's own dictionaries; [Project] reads them as trees.

    A call returns a value, raises an exception, or is cut off: the [while]
    loop of the key search is given an amount of [gas], the recursion of
    [__parse_ref] a [depth].  More of either never changes how a call that
    ended has ended (see [extends]).

    Downloading and decoding the document, logging and printing are outside
    the model: [parse_swagger] starts from the decoded document, and the list
    it returns here is the list of methods the Python prints. *)

From stdpp Require Import list strings.
From Stdlib Require Import ZArith Ascii Lia.

Open Scope string_scope.
Open Scope list_scope.

(** ** Decoded documents *)

(** What [json.loads] / [yaml.safe_load] hand to the parser.  A mapping keeps
    the order of its keys (a Python [dict]).  Numbers are integers: the parser
    never computes with a number, it only tests it for truth. *)
#[local] Unset Elimination Schemes.
Inductive json : Type :=
| JNull
| JBool (b : bool)
| JNum (z : Z)
| JStr (s : string)
| JList (xs : list json)
| JDict (kvs : list (string * json)).
#[local] Set Elimination Schemes.

(** Induction on a tree: a list or a mapping has the property when all its
    values have it. *)
Section JsonInd.
Variable P : json -> Prop.
Hypothesis HNull : P JNull.
Hypothesis HBool : forall b, P (JBool b).
Hypothesis HNum : forall z, P (JNum z).
Hypothesis HStr : forall s, P (JStr s).
Hypothesis HList : forall xs, Forall P xs -> P (JList xs).
Hypothesis HDict : forall kvs, Forall (fun kv => P (snd kv)) kvs -> P (JDict kvs).

Fixpoint json_ind (j : json) : P j :=
  match j with
  | JNull => HNull
  | JBool b => HBool b
  | JNum z => HNum z
  | JStr s => HStr s
  | JList xs =>
      HList xs
        ((fix all (xs : list json) : Forall P xs :=
            match xs with
            | [] => List.Forall_nil P
            | x :: r => List.Forall_cons P x r (json_ind x) (all r)
            end) xs)
  | JDict kvs =>
      HDict kvs
        ((fix all (kvs : list (string * json)) : Forall (fun kv => P (snd kv)) kvs :=
            match kvs with
            | [] => List.Forall_nil _
            | kv :: r => List.Forall_cons _ kv r (json_ind (snd kv)) (all r)
            end) kvs)
  end.
End JsonInd.

(** ** Ordered dictionaries *)

Section Dict.
Context {A : Type}.

(** [d.get(k)] on the entries of a dict. *)
Fixpoint dict_get (k : string) (d : list (string * A)) : option A :=
  match d with
  | [] => None
  | (k', v) :: r => if String.eqb k' k then Some v else dict_get k r
  end.

(** [d[k] = v]: an existing key keeps its place, a new one goes last. *)
Fixpoint dict_set (k : string) (v : A) (d : list (string * A)) : list (string * A) :=
  match d with
  | [] => [(k, v)]
  | (k', v') :: r =>
      if String.eqb k' k then (k', v) :: r else (k', v') :: dict_set k v r
  end.

(** [del d[k]] for a key that is there. *)
Fixpoint dict_del (k : string) (d : list (string * A)) : list (string * A) :=
  match d with
  | [] => []
  | (k', v') :: r => if String.eqb k' k then r else (k', v') :: dict_del k r
  end.

Definition dict_mem (k : string) (d : list (string * A)) : bool :=
  match dict_get k d with Some _ => true | None => false end.
End Dict.

(** ** Keys occurring anywhere in a tree *)

(** [has_key k j]: some mapping inside [j], at any depth, has the key [k]. *)
Fixpoint has_key (k : string) (j : json) : bool :=
  match j with
  | JList xs =>
      (fix any (xs : list json) : bool :=
         match xs with [] => false | x :: r => has_key k x || any r end) xs
  | JDict kvs =>
      (fix any (kvs : list (string * json)) : bool :=
         match kvs with
         | [] => false
         | (k', v) :: r => String.eqb k' k || has_key k v || any r
         end) kvs
  | _ => false
  end.

(** The values held under the key [k] by the mappings of [j], at any depth. *)
Fixpoint key_values (k : string) (j : json) : list json :=
  match j with
  | JList xs =>
      (fix all (xs : list json) : list json :=
         match xs with [] => [] | x :: r => key_values k x ++ all r end) xs
  | JDict kvs =>
      (fix all (kvs : list (string * json)) : list json :=
         match kvs with
         | [] => []
         | (k', v) :: r =>
             (if String.eqb k' k then [v] else []) ++ key_values k v ++ all r
         end) kvs
  | _ => []
  end.

(** The number of values in a tree: the tree itself and all that is below. *)
Fixpoint json_size (j : json) : nat :=
  match j with
  | JList xs =>
      S ((fix sum (xs : list json) : nat :=
            match xs with [] => 0 | x :: r => json_size x + sum r end) xs)
  | JDict kvs =>
      S ((fix sum (kvs : list (string * json)) : nat :=
            match kvs with [] => 0 | (_, v) :: r => json_size v + sum r end) kvs)
  | _ => 1
  end.

Definition forest_size (js : list json) : nat :=
  foldr (fun j n => json_size j + n) 0 js.

(** A mapping or a sequence, as opposed to a scalar. *)
Definition is_node (j : json) : bool :=
  match j with JList _ | JDict _ => true | _ => false end.

(** An entry of a mapping that is absent, [null] or a string, and the text it
    stands for. *)
Definition is_opt_text (v : option json) : Prop :=
  match v with
  | None | Some JNull | Some (JStr _) => True
  | _ => False
  end.

Definition text_of (v : option json) : option string :=
  match v with Some (JStr s) => Some s | _ => None end.

(** Likewise for an entry that is absent, [null] or an integer, and for one
    that is absent or a boolean. *)
Definition is_opt_num (v : option json) : Prop :=
  match v with
  | None | Some JNull | Some (JNum _) => True
  | _ => False
  end.

Definition num_of (v : option json) : option Z :=
  match v with Some (JNum z) => Some z | _ => None end.

Definition is_opt_flag (v : option json) : Prop :=
  match v with
  | None | Some (JBool _) => True
  | _ => False
  end.

Definition flag_of (v : option json) : bool :=
  match v with Some (JBool b) => b | _ => false end.

(** Following the spec's words on the key search: "the first occurrence of
    the target key in breadth-first order: top-level keys before descending
    into nested mappings/sequences, left to right".  [queue] holds the values
    still to visit, [fuel] bounds the number of visits. *)
Fixpoint first_in_bfs (fuel : nat) (k : string) (queue : list json) : option json :=
  match fuel, queue with
  | 0, _ | _, [] => None
  | S fuel', cur :: queue' =>
      match cur with
      | JDict d =>
          match dict_get k d with
          | Some v => Some v
          | None => first_in_bfs fuel' k (queue' ++ map snd d)
          end
      | JList xs => first_in_bfs fuel' k (queue' ++ xs)
      | _ => first_in_bfs fuel' k queue'
      end
  end.

(** The value found by following the keys [ks] from [j]. *)
Fixpoint json_path (ks : list string) (j : json) : option json :=
  match ks with
  | [] => Some j
  | k :: r =>
      match j with
      | JDict d =>
          match dict_get k d with Some v => json_path r v | None => None end
      | _ => None
      end
  end.

(** ** Exceptions and outcomes *)

Inductive exn : Type :=
| KeyError | IndexError | AttributeError | TypeError
| AssertionError | RuntimeError | ValidationError.

(** A call returns, raises, or is still running when the gas is used up. *)
Inductive outcome (A : Type) : Type :=
| Done (a : A)
| Raise (e : exn)
| OutOfGas.
Arguments Done {A} a.
Arguments Raise {A} e.
Arguments OutOfGas {A}.

(** ** HTTP operations (the enum [Operation]) *)

Inductive Operation : Type :=
| get | put | post | delete | options | head | patch | trace.

(** [Operation.<name>.value] *)
Definition Operation_value (o : Operation) : string :=
  match o with
  | get => "GET" | put => "PUT" | post => "POST" | delete => "DELETE"
  | options => "OPTIONS" | head => "HEAD" | patch => "PATCH" | trace => "TRACE"
  end.

(** [Operation[name]]: lookup by member name, [KeyError] for any other string. *)
Definition Operation_getitem (name : string) : outcome Operation :=
  if String.eqb name "get" then Done get
  else if String.eqb name "put" then Done put
  else if String.eqb name "post" then Done post
  else if String.eqb name "delete" then Done delete
  else if String.eqb name "options" then Done options
  else if String.eqb name "head" then Done head
  else if String.eqb name "patch" then Done patch
  else if String.eqb name "trace" then Done trace
  else Raise KeyError.

Definition Operation_names : list string :=
  ["get"; "put"; "post"; "delete"; "options"; "head"; "patch"; "trace"].

Definition Operation_values : list string :=
  ["GET"; "PUT"; "POST"; "DELETE"; "OPTIONS"; "HEAD"; "PATCH"; "TRACE"].

(** [s.split("/")] *)
Fixpoint split_slash_aux (s : string) (cur : string) : list string :=
  match s with
  | EmptyString => [cur]
  | String c r =>
      if Ascii.eqb c "/"%char then cur :: split_slash_aux r EmptyString
      else split_slash_aux r (String.append cur (String c EmptyString))
  end.
Definition split_slash (s : string) : list string := split_slash_aux s EmptyString.

(** A string that holds no ["/"]. *)
Fixpoint no_slash (s : string) : bool :=
  match s with
  | EmptyString => true
  | String c r => negb (Ascii.eqb c "/"%char) && no_slash r
  end.

(** The pointer [#/<location>/<name>], as in [#/definitions/Pet]. *)
Definition pointer (location name : string) : string :=
  String.append "#/" (String.append location (String.append "/" name)).

(** [os.path.dirname(p)] of [posixpath]: [head = p[:p.rfind("/") + 1]], then
    [head.rstrip("/")] unless [head] is empty or made of slashes only. *)
Fixpoint upto_last_slash (p : string) : string :=
  match p with
  | EmptyString => EmptyString
  | String c r =>
      if negb (no_slash r) then String c (upto_last_slash r)
      else if Ascii.eqb c "/"%char then String c EmptyString
      else EmptyString
  end.

Fixpoint all_slash (s : string) : bool :=
  match s with
  | EmptyString => true
  | String c r => Ascii.eqb c "/"%char && all_slash r
  end.

Fixpoint rstrip_slash (s : string) : string :=
  match s with
  | EmptyString => EmptyString
  | String c r =>
      if Ascii.eqb c "/"%char && all_slash r then EmptyString
      else String c (rstrip_slash r)
  end.

Definition dirname (p : string) : string :=
  let head := upto_last_slash p in
  if negb (String.eqb head EmptyString) && negb (all_slash head)
  then rstrip_slash head
  else head.

(** [sub in s] for two strings *)
Definition contains (sub s : string) : bool :=
  match String.index 0 sub s with Some _ => true | None => false end.

(** * The first variant: [src/core/src/parser/openapi_parser.py] *)

Module Core.

(** ** Python values in a store of mutable objects *)

Abbreviation loc := nat.

(** A value is a scalar or a reference to a dict or a list of the store. *)
Inductive val : Type :=
| VNone
| VBool (b : bool)
| VInt (z : Z)
| VStr (s : string)
| VLoc (l : loc).

Inductive obj : Type :=
| ODict (kvs : list (string * val))
| OList (xs : list val).

(** The store: object [l] is at position [l]; objects are never freed. *)
Abbreviation store := (list obj).

(** Decoding: every mapping and sequence of the tree becomes a fresh object,
    children first. *)
Fixpoint alloc (j : json) (h : store) : val * store :=
  match j with
  | JNull => (VNone, h)
  | JBool b => (VBool b, h)
  | JNum z => (VInt z, h)
  | JStr s => (VStr s, h)
  | JList xs =>
      let '(vs, h') :=
        (fix go (xs : list json) (h : store) : list val * store :=
           match xs with
           | [] => ([], h)
           | x :: r =>
               let '(v, h1) := alloc x h in
               let '(vs, h2) := go r h1 in (v :: vs, h2)
           end) xs h in
      (VLoc (length h'), h' ++ [OList vs])
  | JDict kvs =>
      let '(d, h') :=
        (fix go (kvs : list (string * json)) (h : store)
           : list (string * val) * store :=
           match kvs with
           | [] => ([], h)
           | (k, x) :: r =>
               let '(v, h1) := alloc x h in
               let '(d, h2) := go r h1 in ((k, v) :: d, h2)
           end) kvs h in
      (VLoc (length h'), h' ++ [ODict d])
  end.

(** Reading a value back as a tree, following at most [n] references on any
    branch. *)
Fixpoint snapshot (n : nat) (h : store) (v : val) : option json :=
  match v with
  | VNone => Some JNull
  | VBool b => Some (JBool b)
  | VInt z => Some (JNum z)
  | VStr s => Some (JStr s)
  | VLoc l =>
      match n with
      | 0 => None
      | S n' =>
          match h !! l with
          | Some (ODict d) =>
              JDict <$> mapM (fun kv => pair (fst kv) <$> snapshot n' h (snd kv)) d
          | Some (OList xs) => JList <$> mapM (snapshot n' h) xs
          | None => None
          end
      end
  end.

(** [v] in the store [h] is the root of the finite tree [j]. *)
Definition reads_as (h : store) (v : val) (j : json) : Prop :=
  exists n, snapshot n h v = Some j.

Definition deref (h : store) (v : val) : option obj :=
  match v with VLoc l => h !! l | _ => None end.

(** [bool(v)] *)
Definition truthy (h : store) (v : val) : bool :=
  match v with
  | VNone => false
  | VBool b => b
  | VInt z => negb (Z.eqb z 0)
  | VStr s => negb (String.eqb s EmptyString)
  | VLoc l =>
      match h !! l with
      | Some (ODict d) => match d with [] => false | _ => true end
      | Some (OList xs) => match xs with [] => false | _ => true end
      | None => false
      end
  end.

(** [v == s] for a string literal [s] *)
Definition eq_str (v : val) (s : string) : bool :=
  match v with VStr t => String.eqb t s | _ => false end.

Definition is_none (v : val) : bool :=
  match v with VNone => true | _ => false end.

(** [isinstance(v, (dict, list))] *)
Definition is_container (v : val) : bool :=
  match v with VLoc _ => true | _ => false end.

(** ** Computations on the store *)

Definition M (A : Type) : Type := store -> outcome (A * store).

Definition ret {A} (a : A) : M A := fun h => Done (a, h).
Definition raise {A} (e : exn) : M A := fun _ => Raise e.
Definition bind {A B} (m : M A) (k : A -> M B) : M B :=
  fun h =>
    match m h with
    | Done (a, h') => k a h'
    | Raise e => Raise e
    | OutOfGas => OutOfGas
    end.

Notation "'let*' x := m 'in' k" := (bind m (fun x => k))
  (at level 10, x pattern, m at level 100, k at level 200).

Definition out_of_gas {A} : M A := fun _ => OutOfGas.
Definition truthy_m (v : val) : M bool := fun h => Done (truthy h v, h).
Definition lift {A} (o : outcome A) : M A :=
  fun h =>
    match o with
    | Done a => Done (a, h)
    | Raise e => Raise e
    | OutOfGas => OutOfGas
    end.

(** [v.get(k, dflt)]; only a dict has [get]. *)
Definition py_get_default (v : val) (k : string) (dflt : val) : M val :=
  fun h =>
    match deref h v with
    | Some (ODict d) => Done (default dflt (dict_get k d), h)
    | _ => Raise AttributeError
    end.

(** [v.get(k)] *)
Definition py_get (v : val) (k : string) : M val := py_get_default v k VNone.

(** [v.get(k, dflt)] where [dflt] is not a document value: [None] stands for
    the default. *)
Definition py_get_opt (v : val) (k : string) : M (option val) :=
  fun h =>
    match deref h v with
    | Some (ODict d) => Done (dict_get k d, h)
    | _ => Raise AttributeError
    end.

(** [for x in v]: a list gives its items, a dict its keys, a string its
    characters.  No statement of the parser writes to a list. *)
Definition py_iter (v : val) : M (list val) :=
  fun h =>
    match v with
    | VStr s =>
        Done (map (fun c => VStr (String c EmptyString))
                (String.list_ascii_of_string s), h)
    | VLoc l =>
        match h !! l with
        | Some (OList xs) => Done (xs, h)
        | Some (ODict d) => Done (map (fun kv => VStr (fst kv)) d, h)
        | None => Raise TypeError
        end
    | _ => Raise TypeError
    end.

(** [v[k]] for a string [k] *)
Definition py_getitem (v : val) (k : string) : M val :=
  fun h =>
    match deref h v with
    | Some (ODict d) =>
        match dict_get k d with Some x => Done (x, h) | None => Raise KeyError end
    | _ => Raise TypeError
    end.

(** [v[k] = x] *)
Definition py_setitem (v : val) (k : string) (x : val) : M unit :=
  fun h =>
    match v with
    | VLoc l =>
        match h !! l with
        | Some (ODict d) => Done (tt, <[l := ODict (dict_set k x d)]> h)
        | _ => Raise TypeError
        end
    | _ => Raise TypeError
    end.

(** [k in v] *)
Definition py_contains (k : string) (v : val) : M bool :=
  fun h =>
    match v with
    | VStr s =>
        Done (match String.index 0 k s with Some _ => true | None => false end, h)
    | VLoc l =>
        match h !! l with
        | Some (ODict d) => Done (dict_mem k d, h)
        | Some (OList xs) => Done (existsb (fun x => eq_str x k) xs, h)
        | None => Raise TypeError
        end
    | _ => Raise TypeError
    end.

(** [del v[k]] *)
Definition py_delitem (v : val) (k : string) : M unit :=
  fun h =>
    match v with
    | VLoc l =>
        match h !! l with
        | Some (ODict d) =>
            if dict_mem k d then Done (tt, <[l := ODict (dict_del k d)]> h)
            else Raise KeyError
        | _ => Raise TypeError
        end
    | _ => Raise TypeError
    end.

(** [len(v)]; a string counts its characters. *)
Definition py_len (v : val) : M nat :=
  fun h =>
    match v with
    | VStr s => Done (String.length s, h)
    | VLoc l =>
        match h !! l with
        | Some (ODict d) => Done (length d, h)
        | Some (OList xs) => Done (length xs, h)
        | None => Raise TypeError
        end
    | _ => Raise TypeError
    end.

(** [for k, v in d.items(): acc = body(k, v, acc)].  The dict is read again
    at every step, as the iterator does: a dict whose size changed under the
    loop raises [RuntimeError], a value replaced under the loop is seen. *)
Fixpoint for_items_from {A} (body : string -> val -> A -> M A)
    (l : loc) (len : nat) (i : nat) (todo : nat) (acc : A) : M A :=
  fun h =>
    match h !! l with
    | Some (ODict d) =>
        if Nat.eqb (length d) len then
          match todo, d !! i with
          | S t, Some (k, v) =>
              bind (body k v acc) (fun acc' => for_items_from body l len (S i) t acc') h
          | _, _ => Done (acc, h)
          end
        else Raise RuntimeError
    | _ => Raise RuntimeError
    end.

(** [d.items()] needs a dict. *)
Definition for_items {A} (d : val) (acc : A) (body : string -> val -> A -> M A) : M A :=
  fun h =>
    match deref h d, d with
    | Some (ODict kvs), VLoc l => for_items_from body l (length kvs) 0 (length kvs) acc h
    | _, _ => Raise AttributeError
    end.

(** ** The models

    The models are [pydantic] classes, and [pydantic] is not part of the
    repository.  Building a model is taken as the check that every argument
    has the annotated type, raising [ValidationError] when one has not; no
    scalar is converted into another type.  A [Dict[str, Any]] field keeps the
    reference it was given. *)

(** [str | Dict[str, Any]] *)
Inductive str_or_dict : Type :=
| AsStr (s : string)
| AsDict (l : loc).

Record ResponseSchema : Type := {
  ResponseSchema_type : option str_or_dict;
  ResponseSchema_items : option loc
}.

Record Response : Type := {
  Response_code : string;
  Response_description : option string;
  Response_return_schema : option ResponseSchema
}.

Record ArrayItem : Type := {
  ArrayItem_type : str_or_dict;
  ArrayItem_enum_items : option (list string);
  ArrayItem_default : option string
}.

Record Parameter' : Type := {
  Parameter_name : string;
  Parameter_param_location : string;
  Parameter_description : option string;
  Parameter_type : str_or_dict;
  Parameter_maximum : option Z;
  Parameter_mimimum : option Z;
  Parameter_format : option string;
  Parameter_items : option ArrayItem;
  Parameter_required : bool;
  Parameter_pattern : option string;
  Parameter_max_len : option Z
}.

Record RequestBody : Type := {
  RequestBody_description : option string;
  RequestBody_data_schema : loc;
  RequestBody_required : bool
}.

Record Method : Type := {
  Method_url : string;
  Method_type : Operation;
  Method_summary : option string;
  Method_description : option string;
  Method_input_formats : list string;
  Method_output_formats : list string;
  Method_responses : option (list Response);
  Method_parameters : option (list Parameter');
  Method_request_body : option RequestBody
}.

(** *** Field checks *)

Definition as_str (v : val) : M string :=
  match v with VStr s => ret s | _ => raise ValidationError end.

Definition as_opt_str (v : val) : M (option string) :=
  match v with
  | VNone => ret None
  | VStr s => ret (Some s)
  | _ => raise ValidationError
  end.

Definition as_opt_int (v : val) : M (option Z) :=
  match v with
  | VNone => ret None
  | VInt z => ret (Some z)
  | _ => raise ValidationError
  end.

Definition as_bool (v : val) : M bool :=
  match v with VBool b => ret b | _ => raise ValidationError end.

Definition as_dict (v : val) : M loc :=
  fun h =>
    match v with
    | VLoc l =>
        match h !! l with
        | Some (ODict _) => Done (l, h)
        | _ => Raise ValidationError
        end
    | _ => Raise ValidationError
    end.

Definition as_opt_dict (v : val) : M (option loc) :=
  match v with
  | VNone => ret None
  | _ => let* l := as_dict v in ret (Some l)
  end.

Definition as_str_or_dict (v : val) : M str_or_dict :=
  match v with
  | VStr s => ret (AsStr s)
  | _ => let* l := as_dict v in ret (AsDict l)
  end.

Definition as_opt_str_or_dict (v : val) : M (option str_or_dict) :=
  match v with
  | VNone => ret None
  | _ => let* x := as_str_or_dict v in ret (Some x)
  end.

Fixpoint all_str (xs : list val) : option (list string) :=
  match xs with
  | [] => Some []
  | VStr s :: r => cons s <$> all_str r
  | _ :: _ => None
  end.

Definition as_list_str (v : val) : M (list string) :=
  fun h =>
    match deref h v with
    | Some (OList xs) =>
        match all_str xs with
        | Some ss => Done (ss, h)
        | None => Raise ValidationError
        end
    | _ => Raise ValidationError
    end.

Definition as_opt_list_str (v : val) : M (option (list string)) :=
  match v with
  | VNone => ret None
  | _ => let* x := as_list_str v in ret (Some x)
  end.

(** ** [SwaggerProcessor] *)

(** The attributes the parsing methods read: [base_endpoint_url] and
    [swagger_json_data] are set by [parse_swagger], [schema_useless_keys] by
    [__init__]. *)
Record SwaggerProcessor : Type := {
  base_endpoint_url : string;
  swagger_json_data : val;
  schema_useless_keys : list string
}.

(** [__init__] sets [schema_useless_keys = ["xml"]]. *)
Definition new_processor (base : string) (data : val) : SwaggerProcessor :=
  {| base_endpoint_url := base;
     swagger_json_data := data;
     schema_useless_keys := ["xml"] |}.

(** *** [__find_key_in_dict] *)

(** The [for k, v in cur.items()] of the search: the value under the target
    key when the loop meets it (the loop stops there), and the dicts and lists
    passed before it, which go to the back of the queue. *)
Fixpoint scan_items (target_key : string) (d : list (string * val))
  : option val * list val :=
  match d with
  | [] => (None, [])
  | (k, v) :: r =>
      if String.eqb k target_key then (Some v, [])
      else
        let '(found, queue) := scan_items target_key r in
        (found, if is_container v then v :: queue else queue)
  end.

(** The [while queue] loop; one unit of gas per object taken from the queue.
    A hit assigns [found] and leaves the [for] loop only: the [while] loop
    goes on until the queue is empty. *)
Fixpoint find_key_loop (gas : nat) (h : store) (target_key : string)
    (queue : list val) (found : val) {struct gas} : outcome val :=
  match queue with
  | [] => Done found
  | cur :: queue' =>
      match gas with
      | 0 => OutOfGas
      | S gas' =>
          match deref h cur with
          | Some (ODict d) =>
              let '(hit, more) := scan_items target_key d in
              find_key_loop gas' h target_key (queue' ++ more) (default found hit)
          | Some (OList xs) =>
              find_key_loop gas' h target_key
                (queue' ++ List.filter is_container xs) found
          | None => find_key_loop gas' h target_key queue' found
          end
      end
  end.

Definition find_key_in_dict (gas : nat) (data_dict : val) (target_key : string)
  : M val :=
  fun h =>
    if is_none data_dict then Done (VNone, h)
    else
      match find_key_loop gas h target_key [data_dict] VNone with
      | Done found => Done (found, h)
      | Raise e => Raise e
      | OutOfGas => OutOfGas
      end.

Section Parser.

Variable self : SwaggerProcessor.
(** Bound on the steps of one key search. *)
Variable gas : nat.

(** *** [__parse_ref] *)

(** [for ukey in self.schema_useless_keys: if ukey in schema: del schema[ukey]] *)
Fixpoint delete_useless (ukeys : list string) (schema : val) : M unit :=
  match ukeys with
  | [] => ret tt
  | ukey :: r =>
      let* present := py_contains ukey schema in
      let* _ := (if present then py_delitem schema ukey else ret tt) in
      delete_useless r schema
  end.

Definition nth_part (parts : list string) (i : nat) : M string :=
  match parts !! i with Some p => ret p | None => raise IndexError end.

(** [depth] bounds the nesting of the recursive calls. *)
Fixpoint parse_ref (depth : nat) (ref_path : val) : M val :=
  match depth with
  | 0 => out_of_gas
  | S depth' =>
      (* Get schema location and name without '#' *)
      let* ref_parts :=
        match ref_path with
        | VStr s => ret (tail (split_slash s))
        | _ => raise AttributeError
        end in
      let* schema_name :=
        match last ref_parts with Some p => ret p | None => raise IndexError end in
      let* part0 := nth_part ref_parts 0 in
      let* schema_location := py_getitem (swagger_json_data self) part0 in
      let* direct := py_get schema_location schema_name in
      let* is_direct := truthy_m direct in
      let* schema :=
        (if is_direct then py_getitem schema_location schema_name
         else
           let* part1 := nth_part ref_parts 1 in
           let* inner := py_getitem schema_location part1 in
           py_getitem inner schema_name) in
      (* Delete useless keys *)
      let* _ := delete_useless (schema_useless_keys self) schema in
      (* Recursive parsing nested '$ref's *)
      let* properties := py_get schema "properties" in
      if is_none properties then
        let* any_ref := find_key_in_dict gas schema "$ref" in
        let* has_ref := truthy_m any_ref in
        let* schema :=
          (if has_ref then
             let* ty := py_get schema "type" in
             if negb (eq_str ty "array") then parse_ref depth' any_ref
             else ret schema
           else ret schema) in
        let* ty := py_get schema "type" in
        let* _ :=
          (if eq_str ty "array" then
             let* temp_ref := find_key_in_dict gas schema "$ref" in
             let* has_temp := truthy_m temp_ref in
             if has_temp then
               let* item := parse_ref depth' temp_ref in
               py_setitem schema "items" item
             else ret tt
           else ret tt) in
        ret schema
      else
        let* _ :=
          for_items properties tt (fun k v _ =>
            let* r := py_get v "$ref" in
            let* has_ref := truthy_m r in
            if has_ref then
              let* r := py_getitem v "$ref" in
              let* item := parse_ref depth' r in
              py_setitem properties k item
            else
              let* property_type := py_get v "type" in
              if eq_str property_type "array" then
                let* items := py_getitem v "items" in
                let* r := py_get items "$ref" in
                let* has_ref := truthy_m r in
                if has_ref then
                  let* r := py_getitem items "$ref" in
                  let* item := parse_ref depth' r in
                  py_setitem properties k item
                else ret tt
              else ret tt) in
        let* _ := py_setitem schema "properties" properties in
        ret schema
  end.

(** *** [__parse_parameters] *)

(** [x = param.get(key); if x is None: if param.get("schema"): x =
    param["schema"].get(key)] *)
Definition get_with_schema_fallback (param : val) (key : string) : M val :=
  let* x := py_get param key in
  if is_none x then
    let* sch := py_get param "schema" in
    let* has_schema := truthy_m sch in
    if has_schema then
      let* sch := py_getitem param "schema" in
      py_get sch key
    else ret x
  else ret x.

(** The body of the loop over [params_data]. *)
Definition parse_parameter (depth : nat) (param : val) : M Parameter' :=
  (* Parse solo '$ref' param or 'schema' of parameter *)
  let* param_schema := py_get param "schema" in
  let* param :=
    (if is_none param_schema then
       let* r := py_get param "$ref" in
       let* has_ref := truthy_m r in
       if has_ref then
         let* r := py_getitem param "$ref" in
         parse_ref depth r
       else ret param
     else ret param) in
  (* Get base type *)
  let* param_type := py_get param "type" in
  (* Get type of param from schema *)
  let* param_type :=
    (if is_none param_type then
       let* param_schema := py_get param "schema" in
       if negb (is_none param_schema) then
         let* sch := py_getitem param "schema" in
         py_get sch "type"
       else ret param_type
     else ret param_type) in
  (* Parse $ref param *)
  let* param_type :=
    (if is_none param_type then
       let* sch := py_getitem param "schema" in
       let* r := py_getitem sch "$ref" in
       parse_ref depth r
     else ret param_type) in
  let* array_item :=
    (if eq_str param_type "array" then
       (* Get base items *)
       let* arr_items := py_get param "items" in
       (* Get items from schema *)
       let* arr_items :=
         (if is_none arr_items then
            let* sch := py_getitem param "schema" in
            py_get sch "items"
          else ret arr_items) in
       if is_none arr_items then raise AssertionError
       else
         let* arr_items_type := py_get arr_items "type" in
         let* arr_items_type :=
           (if is_none arr_items_type then
              let* r := py_get arr_items "$ref" in
              parse_ref depth r
            else ret arr_items_type) in
         let* enum := py_get arr_items "enum" in
         let* dflt := py_get arr_items "default" in
         let* ty := as_str_or_dict arr_items_type in
         let* enum := as_opt_list_str enum in
         let* dflt := as_opt_str dflt in
         ret (Some {| ArrayItem_type := ty;
                      ArrayItem_enum_items := enum;
                      ArrayItem_default := dflt |})
     else ret None) in
  let* pattern := get_with_schema_fallback param "pattern" in
  let* format := get_with_schema_fallback param "format" in
  let* max_len := get_with_schema_fallback param "maxLength" in
  let* name := py_get param "name" in
  let* location := py_get param "in" in
  let* description := py_get param "description" in
  let type := if is_none param_type then VStr "$ref" else param_type in
  let* maximum := py_get param "maximum" in
  let* mimimum := py_get param "mimimum" in
  let* required := py_get_default param "required" (VBool false) in
  let* name := as_str name in
  let* location := as_str location in
  let* description := as_opt_str description in
  let* type := as_str_or_dict type in
  let* maximum := as_opt_int maximum in
  let* mimimum := as_opt_int mimimum in
  let* format := as_opt_str format in
  let* required := as_bool required in
  let* pattern := as_opt_str pattern in
  let* max_len := as_opt_int max_len in
  ret {| Parameter_name := name;
         Parameter_param_location := location;
         Parameter_description := description;
         Parameter_type := type;
         Parameter_maximum := maximum;
         Parameter_mimimum := mimimum;
         Parameter_format := format;
         Parameter_items := array_item;
         Parameter_required := required;
         Parameter_pattern := pattern;
         Parameter_max_len := max_len |}.

Fixpoint parse_parameters_loop (depth : nat) (params : list val)
    (parsed_params : list Parameter') : M (list Parameter') :=
  match params with
  | [] => ret parsed_params
  | param :: r =>
      let* p := parse_parameter depth param in
      parse_parameters_loop depth r (parsed_params ++ [p])
  end.

Definition parse_parameters (depth : nat) (params_data : val) : M (list Parameter') :=
  let* params := py_iter params_data in
  parse_parameters_loop depth params [].

(** *** [__parse_responses] *)

(** The body of the loop over [responses_data.items()]. *)
Definition parse_response (depth : nat) (http_code : string) (response_data : val)
  : M Response :=
  (* Get '$ref' for response *)
  let* ref := find_key_in_dict gas response_data "$ref" in
  (* Get type for return *)
  let* out_type := find_key_in_dict gas response_data "type" in
  let* parsed_ref :=
    (if negb (is_none ref) then parse_ref depth ref else ret VNone) in
  let* any_ref_in_parsed_schema := find_key_in_dict gas parsed_ref "$ref" in
  let* more := truthy_m any_ref_in_parsed_schema in
  let* parsed_ref :=
    (if more then parse_ref depth any_ref_in_parsed_schema else ret parsed_ref) in
  let* ty :=
    as_opt_str_or_dict (if eq_str out_type "array" then out_type else parsed_ref) in
  let* items :=
    as_opt_dict (if eq_str out_type "array" then parsed_ref else VNone) in
  let output_schema :=
    {| ResponseSchema_type := ty; ResponseSchema_items := items |} in
  let* description := py_get_default response_data "description" VNone in
  let* description := as_opt_str description in
  ret {| Response_code := http_code;
         Response_description := description;
         Response_return_schema := Some output_schema |}.

Definition parse_responses (depth : nat) (responses_data : val) : M (list Response) :=
  for_items responses_data [] (fun http_code response_data parsed_responses =>
    let* r := parse_response depth http_code response_data in
    ret (parsed_responses ++ [r])).

(** *** [__parse_request_body] *)

Definition parse_request_body (depth : nat) (request_body_data : val) : M RequestBody :=
  let* data_schema := find_key_in_dict gas request_body_data "$ref" in
  if is_none data_schema then raise AssertionError
  else
    let* description := py_get request_body_data "description" in
    let* description :=
      (if negb (is_none description) then
         let* n := py_len description in
         ret (if Nat.ltb 1 n then description else VNone)
       else ret VNone) in
    let* schema := parse_ref depth data_schema in
    let* required := py_get_default request_body_data "required" (VBool false) in
    let* description := as_opt_str description in
    let* schema := as_dict schema in
    let* required := as_bool required in
    ret {| RequestBody_description := description;
           RequestBody_data_schema := schema;
           RequestBody_required := required |}.

(** *** [__parse_method] *)

(** [method_data.get(key, [])] checked as [List[str]]. *)
Definition get_formats (method_data : val) (key : string) : M (list string) :=
  let* v := py_get_opt method_data key in
  match v with
  | None => ret []
  | Some v => as_list_str v
  end.

(** The [Method(url=..., type=Operation[method], ...)] that [__parse_method]
    returns: the arguments are evaluated in the order they are written, then
    the fields are checked. *)
Definition new_Method (method : string) (method_data : val) (method_url : string)
    (params : option (list Parameter')) (responses : option (list Response))
    (request_body : option RequestBody) : M Method :=
  let url := String.append (base_endpoint_url self) method_url in
  let* type := lift (Operation_getitem method) in
  let* summary := py_get_default method_data "summary" VNone in
  let* description := py_get_default method_data "description" VNone in
  let parameters :=
    match params with
    | None => None
    | Some ps => if Nat.ltb (length ps) 0 then None else Some ps
    end in
  let responses :=
    match responses with
    | None => None
    | Some rs => if Nat.ltb (length rs) 0 then None else Some rs
    end in
  let* summary := as_opt_str summary in
  let* description := as_opt_str description in
  let* input_formats := get_formats method_data "consumes" in
  let* output_formats := get_formats method_data "produces" in
  ret {| Method_url := url;
         Method_type := type;
         Method_summary := summary;
         Method_description := description;
         Method_input_formats := input_formats;
         Method_output_formats := output_formats;
         Method_responses := responses;
         Method_parameters := parameters;
         Method_request_body := request_body |}.

Definition parse_method (depth : nat) (method : string) (method_data : val)
    (method_url : string) : M (option Method) :=
  (* Skip deprecated methods *)
  let* deprecated := py_get_default method_data "deprecated" (VBool false) in
  let* skip := truthy_m deprecated in
  if skip then ret None
  else
    let* method_params := py_get method_data "parameters" in
    let* method_responses := py_get method_data "responses" in
    let* method_request_body := py_get method_data "requestBody" in
    let* params :=
      (if negb (is_none method_params) then
         let* ps := parse_parameters depth method_params in ret (Some ps)
       else ret None) in
    let* responses :=
      (if negb (is_none method_responses) then
         let* rs := parse_responses depth method_responses in ret (Some rs)
       else ret None) in
    let* request_body :=
      (if negb (is_none method_request_body) then
         let* rb := parse_request_body depth method_request_body in ret (Some rb)
       else ret None) in
    let* m := new_Method method method_data method_url params responses request_body in
    ret (Some m).

(** *** [__parse_endpoints] and [parse_swagger] *)

(** [__parse_endpoints] prints every method it parsed and returns nothing;
    the list built here is what it prints, in order. *)
Definition parse_endpoints (depth : nat) (endpoints_data : val) : M (list Method) :=
  let* _ := py_len endpoints_data in
  for_items endpoints_data [] (fun endpoint_url methods printed =>
    for_items methods printed (fun method method_data printed =>
      let* parsed_method := parse_method depth method method_data endpoint_url in
      match parsed_method with
      | Some m => ret (printed ++ [m])
      | None => ret printed
      end)).

(** [parse_swagger] after the download: [self.swagger_json_data] is the
    decoded document. *)
Definition parse_swagger (depth : nat) : M (list Method) :=
  let* endpoints := py_get (swagger_json_data self) "paths" in
  if is_none endpoints then raise AssertionError
  else parse_endpoints depth endpoints.

End Parser.

(** ** Before the parse: the URL

    [parse_swagger] sets [base_endpoint_url] to the directory of the URL and
    downloads the document.  The download itself is outside the model:
    [__get_swagger_schema] is given the text of the response, and the two
    decoders it chooses from. *)

Section Fetch.
Variables yaml_safe_load json_loads : string -> outcome json.

(** [if "yaml" in self.url.split("/")[-1]: return yaml.safe_load(response.text)],
    [return response.json()] *)
Definition get_swagger_schema (url response_text : string) : outcome json :=
  match last (split_slash url) with
  | Some name =>
      if contains "yaml" name then yaml_safe_load response_text
      else json_loads response_text
  | None => Raise IndexError
  end.

End Fetch.

(** The processor as [parse_swagger] has set it up when it starts on the
    decoded document [data]: [self.base_endpoint_url =
    os.path.dirname(self.url)]. *)
Definition processor_for (url : string) (data : val) : SwaggerProcessor :=
  new_processor (dirname url) data.

(** ** The shape of a store

    Which positions hold a dict and which a list.  No statement of the parser
    creates an object or turns a dict into a list. *)

Definition kind (o : obj) : bool :=
  match o with ODict _ => true | OList _ => false end.

Definition shape (h : store) : list bool := kind <$> h.

(** [v] refers to a dict of a store of shape [sh]. *)
Definition is_dict_ref (sh : list bool) (v : val) : Prop :=
  exists l, v = VLoc l /\ sh !! l = Some true.

(** [m], started in a store of shape [sh], ends in a store of the same shape
    with a result that satisfies [Q]. *)
Definition in_place {A} (sh : list bool) (m : M A) (Q : A -> Prop) : Prop :=
  forall h a h', shape h = sh -> m h = Done (a, h') -> shape h' = sh /\ Q a.

(** [m2] does what [m1] does wherever [m1] has gas enough to end. *)
Definition extends {A} (m1 m2 : M A) : Prop :=
  forall h, m1 h = OutOfGas \/ m2 h = m1 h.

(** ** Well-typed entries of a mapping

    What the models accept for [description] (absent, [None] or a string) and
    for [required] (absent or a boolean), and what they store for it. *)

Definition is_opt_str (v : option val) : Prop :=
  match v with
  | None | Some VNone | Some (VStr _) => True
  | _ => False
  end.

Definition is_opt_bool (v : option val) : Prop :=
  match v with
  | None | Some (VBool _) => True
  | _ => False
  end.

Definition opt_str_of (v : option val) : option string :=
  match v with Some (VStr s) => Some s | _ => None end.

Definition bool_of (v : option val) : bool :=
  match v with Some (VBool b) => b | _ => false end.

(** [description if (description is not None and len(description) > 1) else
    None] for a well-typed [description]. *)
Definition long_description (v : option val) : option string :=
  match v with
  | Some (VStr s) => if Nat.ltb 1 (String.length s) then Some s else None
  | _ => None
  end.

(** What the models accept for [maximum], [mimimum] and [max_len] (absent,
    [None] or an integer), and what they store for it. *)
Definition is_opt_int (v : option val) : Prop :=
  match v with
  | None | Some VNone | Some (VInt _) => True
  | _ => False
  end.

Definition opt_int_of (v : option val) : option Z :=
  match v with Some (VInt z) => Some z | _ => None end.

(** The entry [key] of a parameter [d] with the schema [ds]: the parameter's
    own entry, and the schema's when the parameter has none (or [None]). *)
Definition or_schema (d ds : list (string * val)) (key : string) : option val :=
  if is_none (default VNone (dict_get key d)) then dict_get key ds
  else dict_get key d.

(** A property that is neither a pointer nor an array: a dict without a
    [$ref] (or with an empty one) whose [type] is not ["array"]. *)
Definition plain_property (h : store) (v : val) : Prop :=
  exists lv dv,
    v = VLoc lv /\ h !! lv = Some (ODict dv)
    /\ truthy h (default VNone (dict_get "$ref" dv)) = false
    /\ eq_str (default VNone (dict_get "type" dv)) "array" = false.

(** [x] is a value that some mapping of the [trees] holds under the key [k]. *)
Definition hit_in (h : store) (k : string) (trees : list json) (x : val) : Prop :=
  exists t j, In t trees /\ In j (key_values k t) /\ reads_as h x j.

(** ** What the parser writes

    [m], started in a store that satisfies [I], ends in a store that satisfies
    it, with a result that satisfies [Q]. *)
Definition keeps {A} (I : store -> Prop) (m : M A) (Q : A -> Prop) : Prop :=
  forall h a h', I h -> m h = Done (a, h') -> I h' /\ Q a.

(** The statements of the parser that write are the four of [__parse_ref]:
    [del schema[ukey]] for a denylisted key that is there;
    [schema["items"] = ...] after [schema.get("type") == "array"];
    [schema["properties"] = properties] for the [properties] that
    [schema.get("properties")] returned; and [properties[k] = item] for a key
    [k] that [properties.items()] gave with a mapping.  [I] is closed under
    them: [h0] is the store in which the condition was read, [h] the store
    that is written. *)
Definition write_closed (ukeys : list string) (I : store -> Prop) : Prop :=
  (forall h l d u,
      I h -> h !! l = Some (ODict d) -> In u ukeys -> dict_mem u d = true ->
      I (<[l := ODict (dict_del u d)]> h))
  /\ (forall h0 h l d0 d x,
        I h0 -> h0 !! l = Some (ODict d0) ->
        eq_str (default VNone (dict_get "type" d0)) "array" = true ->
        I h -> h !! l = Some (ODict d) ->
        I (<[l := ODict (dict_set "items" x d)]> h))
  /\ (forall h0 h l d0 d lp,
        I h0 -> h0 !! l = Some (ODict d0) ->
        dict_get "properties" d0 = Some (VLoc lp) ->
        I h -> h !! l = Some (ODict d) ->
        I (<[l := ODict (dict_set "properties" (VLoc lp) d)]> h))
  /\ (forall h0 h l d0 d i k lv x,
        I h0 -> h0 !! l = Some (ODict d0) -> d0 !! i = Some (k, VLoc lv) ->
        I h -> h !! l = Some (ODict d) ->
        I (<[l := ODict (dict_set k x d)]> h)).

(** [m], started in a store that satisfies [P], ends in a store [h'] with a
    result [a] such that [Q a h']. *)
Definition hoare {A} (P : store -> Prop) (m : M A) (Q : A -> store -> Prop) : Prop :=
  forall h a h', P h -> m h = Done (a, h') -> Q a h'.

(** Every dict of the store has unique keys, as every Python dict has. *)
Definition unique_keys (h : store) : Prop :=
  forall l d, h !! l = Some (ODict d) -> NoDup (map fst d).

(** The value [v], where it refers to a dict of [h], refers to one without
    the keys of [ukeys] at its top level ([items] apart). *)
Definition top_clean (ukeys : list string) (v : val) (h : store) : Prop :=
  forall l d,
    v = VLoc l -> h !! l = Some (ODict d) ->
    forall u, In u ukeys -> u <> "items" -> dict_get u d = None.

(** A test for [unique_keys]. *)
Fixpoint distinct (ks : list string) : bool :=
  match ks with
  | [] => true
  | k :: r => negb (existsb (String.eqb k) r) && distinct r
  end.

Definition unique_keysb (h : store) : bool :=
  forallb (fun o => match o with ODict d => distinct (map fst d) | OList _ => true end) h.

(** Invariants of one object of the store: the dict at [l] has the keys
    [ks], in this order; it has unique keys and holds [s] under [k]; it has
    no key [u]; the list at [l] is [xs]. *)
Definition keys_are (l : loc) (ks : list string) (h : store) : Prop :=
  exists d, h !! l = Some (ODict d) /\ map fst d = ks.

Definition entry_is (l : loc) (k : string) (s : val) (h : store) : Prop :=
  exists d, h !! l = Some (ODict d) /\ NoDup (map fst d) /\ dict_get k d = Some s.

Definition entry_absent (l : loc) (u : string) (h : store) : Prop :=
  exists d, h !! l = Some (ODict d) /\ dict_get u d = None.

Definition list_is (l : loc) (xs : list val) (h : store) : Prop :=
  h !! l = Some (OList xs).

(** The declared parameter at [lx] is a mapping with unique keys that holds
    the string [n] under [name] and has no [$ref] key. *)
Definition named (lx : loc) (n : string) (h : store) : Prop :=
  entry_is lx "name" (VStr n) h /\ entry_absent lx "$ref" h.

(** What a parse leaves as it was: [h'] has the objects of [h], the same
    positions hold a dict, every list is unchanged, and so is every entry of a
    dict with unique keys that holds a scalar under a key other than [items]
    and the keys of [ukeys]. *)
Definition preserved (ukeys : list string) (h h' : store) : Prop :=
  length h' = length h
  /\ (forall l, (exists d, h !! l = Some (ODict d)) <-> (exists d', h' !! l = Some (ODict d')))
  /\ (forall l xs, h !! l = Some (OList xs) -> h' !! l = Some (OList xs))
  /\ (forall l d k s,
        h !! l = Some (ODict d) -> NoDup (map fst d) ->
        dict_get k d = Some s -> is_container s = false ->
        ~ In k ukeys -> k <> "items" ->
        exists d', h' !! l = Some (ODict d') /\ dict_get k d' = Some s).

(** ** Responses without a pointer or a type *)

(** A response entry in which neither search of [__parse_responses] has a
    hit and whose fields build a [Response]: a mapping whose [description] is
    absent, [null] or a string and that holds neither a [$ref] nor a [type]
    key at any depth.  [gas] covers every value of the entry. *)
Definition plain_entry (gas : nat) (entry : json) : Prop :=
  exists kvs,
    entry = JDict kvs
    /\ is_opt_text (dict_get "description" kvs)
    /\ has_key "$ref" entry = false
    /\ has_key "type" entry = false
    /\ json_size entry <= gas.

(** The [Response] built for such an entry. *)
Definition plain_Response (http_code : string) (entry : json) : Response :=
  {| Response_code := http_code;
     Response_description :=
       match entry with
       | JDict kvs => text_of (dict_get "description" kvs)
       | _ => None
       end;
     Response_return_schema :=
       Some {| ResponseSchema_type := None; ResponseSchema_items := None |} |}.

(** ** Documents without pointers *)

(** No dict of the store has the key [k], and a test for it. *)
Definition no_key (k : string) (h : store) : Prop :=
  forall l d, h !! l = Some (ODict d) -> dict_get k d = None.

Definition no_keyb (k : string) (h : store) : bool :=
  forallb (fun o => match o with ODict d => negb (dict_mem k d) | OList _ => true end) h.

(** [method_data.get("deprecated", False)] is true. *)
Definition deprecated_at (h : store) (method_data : val) : bool :=
  match deref h method_data with
  | Some (ODict d) => truthy h (default (VBool false) (dict_get "deprecated" d))
  | _ => false
  end.

(** The operations of the [paths] mapping [dp] that are not marked
    deprecated, in the order of the document: the path, the verb key and the
    entry. *)
Definition live_operations_at (h : store) (dp : list (string * val))
  : list (string * string * val) :=
  flat_map
    (fun e =>
       match deref h (snd e) with
       | Some (ODict ms) =>
           map (fun md => (fst e, fst md, snd md))
             (List.filter (fun md => negb (deprecated_at h (snd md))) ms)
       | _ => []
       end)
    dp.

End Core.

(** * The second variant: [src/project/core/src/parser/openapi_parser.py]

    This variant parses the specification that the library [prance] returns,
    with every pointer already resolved.  It is read here as a tree: the only
    writes of this variant ([del] in [__prepare_schema]) go to the [schema] of
    the parameter in hand, which is not read again afterwards, so on a
    document without shared objects a function of the tree returns what the
    Python returns. *)

Module Project.

Definition bind {A B} (m : outcome A) (k : A -> outcome B) : outcome B :=
  match m with
  | Done a => k a
  | Raise e => Raise e
  | OutOfGas => OutOfGas
  end.

Notation "'let*' x := m 'in' k" := (bind m (fun x => k))
  (at level 10, x pattern, m at level 100, k at level 200).

(** [bool(v)] *)
Definition truthy (v : json) : bool :=
  match v with
  | JNull => false
  | JBool b => b
  | JNum z => negb (Z.eqb z 0)
  | JStr s => negb (String.eqb s EmptyString)
  | JList xs => match xs with [] => false | _ => true end
  | JDict d => match d with [] => false | _ => true end
  end.

Definition eq_str (v : json) (s : string) : bool :=
  match v with JStr t => String.eqb t s | _ => false end.

Definition is_none (v : json) : bool :=
  match v with JNull => true | _ => false end.

(** [v.get(k, dflt)] *)
Definition py_get_default (v : json) (k : string) (dflt : json) : outcome json :=
  match v with
  | JDict d => Done (default dflt (dict_get k d))
  | _ => Raise AttributeError
  end.

(** [v.get(k)] *)
Definition py_get (v : json) (k : string) : outcome json := py_get_default v k JNull.

(** [v.get(k, [])] *)
Definition py_get_opt (v : json) (k : string) : outcome (option json) :=
  match v with
  | JDict d => Done (dict_get k d)
  | _ => Raise AttributeError
  end.

(** [v[k]] for a string [k] *)
Definition py_getitem (v : json) (k : string) : outcome json :=
  match v with
  | JDict d => match dict_get k d with Some x => Done x | None => Raise KeyError end
  | _ => Raise TypeError
  end.

(** [a or b] *)
Definition py_or (a : json) (b : outcome json) : outcome json :=
  if truthy a then Done a else b.

(** [for x in v] *)
Definition py_iter (v : json) : outcome (list json) :=
  match v with
  | JList xs => Done xs
  | JDict d => Done (map (fun kv => JStr (fst kv)) d)
  | JStr s =>
      Done (map (fun c => JStr (String c EmptyString)) (String.list_ascii_of_string s))
  | _ => Raise TypeError
  end.

(** ** The models (see [Core] for how the checks are read) *)

Inductive str_or_dict : Type :=
| AsStr (s : string)
| AsDict (d : list (string * json)).

Record Parameter' : Type := {
  Parameter_name : string;
  Parameter_location : string;
  Parameter_description : option string;
  Parameter_deprecated : bool;
  Parameter_required : bool;
  Parameter_type : str_or_dict;
  Parameter_items : option (list (string * json));
  Parameter_schema_obj : option (list (string * json));
  Parameter_maximum : option Z;
  Parameter_mimimum : option Z;
  Parameter_format : option string;
  Parameter_pattern : option string;
  Parameter_max_len : option Z
}.

Record ResponseSchema : Type := {
  ResponseSchema_type : option str_or_dict;
  ResponseSchema_items : option (list (string * json))
}.

Record Response : Type := {
  Response_code : string;
  Response_description : option string;
  Response_return_schema : option ResponseSchema
}.

Record RequestBody : Type := {
  RequestBody_description : option string;
  RequestBody_data_schema : list (string * json);
  RequestBody_required : bool
}.

Record Method : Type := {
  Method_url : string;
  Method_type : Operation;
  Method_summary : option string;
  Method_description : option string;
  Method_input_formats : list string;
  Method_output_formats : list string;
  Method_responses : option (list Response);
  Method_parameters : option (list Parameter');
  Method_request_body : option RequestBody
}.

Definition as_str (v : json) : outcome string :=
  match v with JStr s => Done s | _ => Raise ValidationError end.

Definition as_opt_str (v : json) : outcome (option string) :=
  match v with
  | JNull => Done None
  | JStr s => Done (Some s)
  | _ => Raise ValidationError
  end.

Definition as_opt_int (v : json) : outcome (option Z) :=
  match v with
  | JNull => Done None
  | JNum z => Done (Some z)
  | _ => Raise ValidationError
  end.

Definition as_bool (v : json) : outcome bool :=
  match v with JBool b => Done b | _ => Raise ValidationError end.

Definition as_opt_dict (v : json) : outcome (option (list (string * json))) :=
  match v with
  | JNull => Done None
  | JDict d => Done (Some d)
  | _ => Raise ValidationError
  end.

Definition as_str_or_dict (v : json) : outcome str_or_dict :=
  match v with
  | JStr s => Done (AsStr s)
  | JDict d => Done (AsDict d)
  | _ => Raise ValidationError
  end.

Fixpoint all_str (xs : list json) : option (list string) :=
  match xs with
  | [] => Some []
  | JStr s :: r => cons s <$> all_str r
  | _ :: _ => None
  end.

Definition as_list_str (v : json) : outcome (list string) :=
  match v with
  | JList xs =>
      match all_str xs with Some ss => Done ss | None => Raise ValidationError end
  | _ => Raise ValidationError
  end.

(** ** [__prepare_schema] *)

(** The inner function [delete_useless_keys]: dicts and lists are built anew
    without the keys of [keys_set], scalars are returned as they are. *)
Fixpoint delete_useless_keys (keys_set : list string) (data : json) : json :=
  match data with
  | JDict d =>
      JDict
        ((fix go (d : list (string * json)) : list (string * json) :=
            match d with
            | [] => []
            | (k, v) :: r =>
                if existsb (String.eqb k) keys_set then go r
                else (k, delete_useless_keys keys_set v) :: go r
            end) d)
  | JList xs => JList (map (delete_useless_keys keys_set) xs)
  | _ => data
  end.

(** [for key in additional_keys: if key in schema_data: del schema_data[key]]
    on the entries of a dict. *)
Fixpoint delete_keys (additional_keys : list string) (d : list (string * json))
  : list (string * json) :=
  match additional_keys with
  | [] => d
  | key :: r => delete_keys r (if dict_mem key d then dict_del key d else d)
  end.

(** [key in schema_data] for what is not a dict. *)
Definition py_contains (key : string) (v : json) : outcome bool :=
  match v with
  | JStr s => Done (match String.index 0 key s with Some _ => true | None => false end)
  | JList xs => Done (existsb (fun x => eq_str x key) xs)
  | JDict d => Done (dict_mem key d)
  | _ => Raise TypeError
  end.

Definition prepare_schema (schema_useless_keys : list string) (schema_data : json)
    (delete_type : bool) (additional_keys : list string) : outcome json :=
  (* Type used in global Parameter *)
  let* schema_data :=
    (if delete_type then
       match schema_data with
       | JDict d =>
           if dict_mem "type" d then Done (JDict (dict_del "type" d))
           else Raise KeyError
       | _ => Raise TypeError
       end
     else Done schema_data) in
  (* These param gets below *)
  let* schema_data :=
    match schema_data with
    | JDict d => Done (JDict (delete_keys additional_keys d))
    | _ =>
        (fix go (keys : list string) : outcome json :=
           match keys with
           | [] => Done schema_data
           | key :: r =>
               let* present := py_contains key schema_data in
               if present then Raise TypeError else go r
           end) additional_keys
    end in
  Done (delete_useless_keys schema_useless_keys schema_data).

(** ** [SwaggerProcessor] *)

Record SwaggerProcessor : Type := {
  base_endpoint_url : string;
  schema_useless_keys : list string
}.

(** [__init__] sets [schema_useless_keys = ["xml"]]. *)
Definition new_processor (base : string) : SwaggerProcessor :=
  {| base_endpoint_url := base; schema_useless_keys := ["xml"] |}.

Section Parser.

Variable self : SwaggerProcessor.

Definition additional_keys : list string := ["pattern"; "format"; "maxLength"].

(** [value = param.get(akey); if value is None and isinstance(param.get("schema"),
    Dict): value = param["schema"].get("key")].  The second lookup asks for
    the literal key ["key"]. *)
Definition additional_value (param : json) (akey : string) : outcome json :=
  let* value := py_get param akey in
  if is_none value then
    let* sch := py_get param "schema" in
    match sch with
    | JDict _ =>
        let* sch := py_getitem param "schema" in
        py_get sch "key"
    | _ => Done value
    end
  else Done value.

(** The body of the loop over [params_data]. *)
Definition parse_parameter (param : json) : outcome Parameter' :=
  let* param_schema := py_get_default param "schema" (JDict []) in
  let* t := py_get param "type" in
  let* param_type := py_or t (py_get param_schema "type") in
  let* pattern := additional_value param "pattern" in
  let* format := additional_value param "format" in
  let* max_len := additional_value param "maxLength" in
  let* schema_obj :=
    (if truthy param_schema && negb (eq_str param_type "array") then
       prepare_schema (schema_useless_keys self) param_schema true additional_keys
     else Done JNull) in
  let* items :=
    (if eq_str param_type "array" then
       let* i := py_get param "items" in
       let* array_items := py_or i (py_get param_schema "items") in
       let* ty := py_getitem array_items "type" in
       if eq_str ty "object" then
         prepare_schema (schema_useless_keys self) array_items false []
       else Done array_items
     else Done JNull) in
  let* name := py_get param "name" in
  let* location := py_get param "in" in
  let* description := py_get param "description" in
  let* required := py_get_default param "required" (JBool false) in
  let* deprecated := py_get_default param "deprecated" (JBool false) in
  let schema_obj := if truthy schema_obj then schema_obj else JNull in
  let* maximum := py_get param "maximum" in
  let* mimimum := py_get param "mimimum" in
  let* name := as_str name in
  let* location := as_str location in
  let* description := as_opt_str description in
  let* deprecated := as_bool deprecated in
  let* required := as_bool required in
  let* type := as_str_or_dict param_type in
  let* items := as_opt_dict items in
  let* schema_obj := as_opt_dict schema_obj in
  let* maximum := as_opt_int maximum in
  let* mimimum := as_opt_int mimimum in
  let* format := as_opt_str format in
  let* pattern := as_opt_str pattern in
  let* max_len := as_opt_int max_len in
  Done {| Parameter_name := name;
          Parameter_location := location;
          Parameter_description := description;
          Parameter_deprecated := deprecated;
          Parameter_required := required;
          Parameter_type := type;
          Parameter_items := items;
          Parameter_schema_obj := schema_obj;
          Parameter_maximum := maximum;
          Parameter_mimimum := mimimum;
          Parameter_format := format;
          Parameter_pattern := pattern;
          Parameter_max_len := max_len |}.

Fixpoint parse_parameters_loop (params : list json) (parsed_params : list Parameter')
  : outcome (list Parameter') :=
  match params with
  | [] => Done parsed_params
  | param :: r =>
      let* p := parse_parameter param in
      parse_parameters_loop r (parsed_params ++ [p])
  end.

Definition parse_parameters (params_data : json) : outcome (list Parameter') :=
  let* params := py_iter params_data in
  parse_parameters_loop params [].

(** [__parse_responses] and [__parse_request_body] are still in the class but
    nothing calls them, and the methods they call ([__find_key_in_dict],
    [__parse_ref]) are not: the first statement that needs one raises
    [AttributeError]. *)
Definition parse_responses (responses_data : json) : outcome (list Response) :=
  match responses_data with
  | JDict [] => Done []
  | JDict (_ :: _) => Raise AttributeError
  | _ => Raise AttributeError
  end.

Definition parse_request_body (request_body_data : json) : outcome RequestBody :=
  Raise AttributeError.

Definition get_formats (method_data : json) (key : string) : outcome (list string) :=
  let* v := py_get_opt method_data key in
  match v with
  | None => Done []
  | Some v => as_list_str v
  end.

(** The [Method(url=..., type=Operation[method], ...)] that [__parse_method]
    returns. *)
Definition new_Method (method : string) (method_data : json) (method_url : string)
    (params : option (list Parameter')) : outcome Method :=
  let url := String.append (base_endpoint_url self) method_url in
  let* type := Operation_getitem method in
  let* summary := py_get_default method_data "summary" JNull in
  let* description := py_get_default method_data "description" JNull in
  let parameters :=
    match params with
    | None => None
    | Some ps => if Nat.leb (length ps) 0 then None else Some ps
    end in
  let* summary := as_opt_str summary in
  let* description := as_opt_str description in
  let* input_formats := get_formats method_data "consumes" in
  let* output_formats := get_formats method_data "produces" in
  Done {| Method_url := url;
          Method_type := type;
          Method_summary := summary;
          Method_description := description;
          Method_input_formats := input_formats;
          Method_output_formats := output_formats;
          Method_responses := None;
          Method_parameters := parameters;
          Method_request_body := None |}.

Definition parse_method (method : string) (method_data : json) (method_url : string)
  : outcome (option Method) :=
  (* Skip deprecated methods *)
  let* deprecated := py_get_default method_data "deprecated" (JBool false) in
  if truthy deprecated then Done None
  else
    let* method_params := py_get method_data "parameters" in
    let* params :=
      (if negb (is_none method_params) then
         let* ps := parse_parameters method_params in Done (Some ps)
       else Done None) in
    let* m := new_Method method method_data method_url params in
    Done (Some m).

Fixpoint parse_methods (endpoint_url : string) (methods : list (string * json))
    (printed : list Method) : outcome (list Method) :=
  match methods with
  | [] => Done printed
  | (method, method_data) :: r =>
      let* parsed_method := parse_method method method_data endpoint_url in
      parse_methods endpoint_url r
        (match parsed_method with Some m => printed ++ [m] | None => printed end)
  end.

Fixpoint parse_endpoints_loop (endpoints : list (string * json)) (printed : list Method)
  : outcome (list Method) :=
  match endpoints with
  | [] => Done printed
  | (endpoint_url, methods) :: r =>
      match methods with
      | JDict ms =>
          let* printed := parse_methods endpoint_url ms printed in
          parse_endpoints_loop r printed
      | _ => Raise AttributeError
      end
  end.

(** [__parse_endpoints] prints every method it parsed and returns nothing;
    the list built here is what it prints, in order. *)
Definition parse_endpoints (endpoints_data : json) : outcome (list Method) :=
  match endpoints_data with
  | JDict es => parse_endpoints_loop es []
  | JList _ | JStr _ => Raise AttributeError
  | _ => Raise TypeError
  end.

(** [parse_swagger] from [parsed_spec], the specification [prance] returns. *)
Definition parse_swagger (parsed_spec : json) : outcome (list Method) :=
  let* endpoints := py_get parsed_spec "paths" in
  if is_none endpoints then Raise AssertionError
  else parse_endpoints endpoints.

End Parser.

(** ** What a parameter declares *)

(** The item descriptor that a parameter declares:
    [param.get("items") or param_schema.get("items")], where [param_schema]
    is [param.get("schema", {})]. *)
Definition declared_items (param : json) : outcome json :=
  let* param_schema := py_get_default param "schema" (JDict []) in
  let* i := py_get param "items" in
  py_or i (py_get param_schema "items").

(** ** The operations of a document *)

(** [method_data.get("deprecated", False)] is true. *)
Definition is_deprecated (method_data : json) : bool :=
  match method_data with
  | JDict d => truthy (default (JBool false) (dict_get "deprecated" d))
  | _ => false
  end.

(** The operations of the [paths] mapping in the order of the document: the
    path, the verb key and the entry. *)
Definition operations (endpoints : list (string * json))
  : list (string * string * json) :=
  flat_map
    (fun e =>
       match snd e with
       | JDict ms => map (fun md => (fst e, fst md, snd md)) ms
       | _ => []
       end)
    endpoints.

(** The operations that are not marked deprecated. *)
Definition live_operations (endpoints : list (string * json))
  : list (string * string * json) :=
  List.filter (fun op => negb (is_deprecated (snd op))) (operations endpoints).

End Project.

(** * Sample documents *)

Module Examples.

(** An order whose customer is an inline object holding a pointer. *)
Definition order_doc : json :=
  JDict
    [("paths", JDict []);
     ("definitions",
      JDict
        [("Order",
          JDict
            [("type", JStr "object");
             ("properties",
              JDict
                [("id", JDict [("type", JStr "integer")]);
                 ("customer",
                  JDict
                    [("type", JStr "object");
                     ("properties",
                      JDict
                        [("address", JDict [("$ref", JStr "#/definitions/Address")])])])])]);
         ("Address",
          JDict
            [("type", JStr "object");
             ("properties", JDict [("city", JDict [("type", JStr "string")])])])])].

(** A pet with an [xml] marker and a list of tags. *)
Definition pet_doc : json :=
  JDict
    [("paths", JDict []);
     ("definitions",
      JDict
        [("Pet",
          JDict
            [("type", JStr "object");
             ("xml", JDict [("name", JStr "Pet")]);
             ("properties",
              JDict
                [("name", JDict [("type", JStr "string")]);
                 ("photoUrls",
                  JDict
                    [("type", JStr "array");
                     ("xml", JDict [("wrapped", JBool true)]);
                     ("items",
                      JDict
                        [("type", JStr "string");
                         ("xml", JDict [("name", JStr "photoUrl")])])]);
                 ("tags",
                  JDict
                    [("type", JStr "array");
                     ("items", JDict [("$ref", JStr "#/definitions/Tag")])])])]);
         ("Tag",
          JDict
            [("type", JStr "object");
             ("properties", JDict [("name", JDict [("type", JStr "string")])])])])].

(** The schema of [Tag] in [pet_doc]. *)
Definition tag_schema : json :=
  JDict
    [("type", JStr "object");
     ("properties", JDict [("name", JDict [("type", JStr "string")])])].

(** A property pointing to an array schema that carries a pointer beside its
    type. *)
Definition list_doc : json :=
  JDict
    [("paths", JDict []);
     ("definitions",
      JDict
        [("Page",
          JDict [("properties", JDict [("rows", JDict [("$ref", JStr "#/definitions/Rows")])])]);
         ("Rows", JDict [("type", JStr "array"); ("$ref", JStr "#/definitions/Row")]);
         ("Row", JDict [("type", JStr "string")])])].

(** A response that returns a list of strings, [items] written before
    [type]. *)
Definition names_response : json :=
  JDict
    [("description", JStr "the names");
     ("schema",
      JDict [("items", JDict [("type", JStr "string")]); ("type", JStr "array")])].

(** A response with a description only. *)
Definition plain_response : json := JDict [("description", JStr "done")].

(** A request body pointing to [Pet], and one with an inline schema. *)
Definition pet_body : json :=
  JDict
    [("description", JStr "the pet to add");
     ("required", JBool true);
     ("content",
      JDict
        [("application/json",
          JDict [("schema", JDict [("$ref", JStr "#/definitions/Pet")])])])].

Definition inline_body : json :=
  JDict
    [("content",
      JDict [("application/json", JDict [("schema", JDict [("type", JStr "string")])])])].

(** A document whose [paths] is the empty mapping, and one without [paths]. *)
Definition empty_paths_doc : json := JDict [("paths", JDict [])].
Definition no_paths_doc : json := JDict [("info", JDict [("title", JStr "api")])].

(** An operation that declares an empty list of parameters and no responses. *)
Definition bare_operation : json :=
  JDict [("summary", JStr "ping"); ("parameters", JList []); ("responses", JDict [])].

(** An array parameter whose items are strings with an [xml] marker, and a
    parameter whose schema is an object with nested [xml] markers. *)
Definition tags_parameter : json :=
  JDict
    [("name", JStr "tags");
     ("in", JStr "query");
     ("schema",
      JDict
        [("type", JStr "array");
         ("items",
          JDict [("type", JStr "string"); ("xml", JDict [("name", JStr "tag")])])])].

Definition filter_parameter : json :=
  JDict
    [("name", JStr "filter");
     ("in", JStr "query");
     ("schema",
      JDict
        [("type", JStr "object");
         ("xml", JDict [("name", JStr "filter")]);
         ("properties",
          JDict [("age", JDict [("type", JStr "integer"); ("xml", JDict [])])])])].

(** What resolving [#/definitions/Pet] in [pet_doc] returns. *)
Definition resolved_pet : json :=
  JDict
    [("type", JStr "object");
     ("properties",
      JDict
        [("name", JDict [("type", JStr "string")]);
         ("photoUrls",
          JDict
            [("type", JStr "array");
             ("xml", JDict [("wrapped", JBool true)]);
             ("items",
              JDict
                [("type", JStr "string");
                 ("xml", JDict [("name", JStr "photoUrl")])])]);
         ("tags", tag_schema)])].

(** The decoded document in an empty store: its root and the store. *)
Definition root_of (doc : json) : Core.val := fst (Core.alloc doc []).
Definition store_of (doc : json) : list Core.obj := snd (Core.alloc doc []).
Definition processor_of (doc : json) : Core.SwaggerProcessor :=
  Core.new_processor "http://api.test" (root_of doc).

(** A value decoded next to [pet_doc]: its root and the store holding both. *)
Definition root_beside_pet (j : json) : Core.val :=
  fst (Core.alloc j (store_of pet_doc)).
Definition store_beside_pet (j : json) : list Core.obj :=
  snd (Core.alloc j (store_of pet_doc)).

(** A mapping of plain responses; one whose entry is a string; one whose
    entry has a number for its description. *)
Definition plain_responses : json :=
  JDict [("204", plain_response); ("default", JDict [("description", JNull)])].
Definition text_responses : json := JDict [("204", JStr "done")].
Definition coded_response : json := JDict [("description", JNum 404)].
Definition coded_responses : json := JDict [("404", coded_response)].

End Examples.

(** * More sample documents *)

Module Samples.
Import Examples.

(** A schema without properties that carries an [xml] marker, and an empty
    schema. *)
Definition status_doc : json :=
  JDict
    [("paths", JDict []);
     ("definitions",
      JDict
        [("Status",
          JDict
            [("type", JStr "string");
             ("xml", JDict [("name", JStr "status")]);
             ("enum", JList [JStr "on"; JStr "off"])]);
         ("Empty", JDict [])])].

(** A response that returns a list of tags. *)
Definition tags_response : json :=
  JDict
    [("description", JStr "the tags");
     ("schema",
      JDict
        [("type", JStr "array");
         ("items", JDict [("$ref", JStr "#/definitions/Tag")])])].

Definition tags_responses : json :=
  JDict [("200", tags_response); ("204", plain_response)].

(** A parameter typed inline, as in Swagger 2, and one typed by its schema,
    as in OpenAPI 3. *)
Definition limit_parameter : json :=
  JDict
    [("name", JStr "limit");
     ("in", JStr "query");
     ("type", JStr "integer");
     ("format", JStr "int32");
     ("minimum", JNum 1);
     ("maximum", JNum 50)].

Definition name_parameter : json :=
  JDict
    [("name", JStr "name");
     ("in", JStr "query");
     ("required", JBool true);
     ("schema",
      JDict
        [("type", JStr "string");
         ("pattern", JStr "^[a-z]+$");
         ("maxLength", JNum 20)])].

(** Array parameters that do not say what their items are. *)
Definition ids_parameter : json :=
  JDict [("name", JStr "ids"); ("in", JStr "query"); ("type", JStr "array")].

Definition ids_schema_parameter : json :=
  JDict
    [("name", JStr "ids");
     ("in", JStr "query");
     ("schema", JDict [("type", JStr "array")])].

(** An array parameter whose items have no [type]. *)
Definition refs_parameter : json :=
  JDict
    [("name", JStr "refs");
     ("in", JStr "query");
     ("type", JStr "array");
     ("items", JDict [("enum", JList [JStr "a"; JStr "b"])])].

(** A parameter whose schema is a choice, without a [type] of its own. *)
Definition choice_parameter : json :=
  JDict
    [("name", JStr "choice");
     ("in", JStr "query");
     ("schema",
      JDict
        [("oneOf",
          JList [JDict [("type", JStr "string")]; JDict [("type", JStr "integer")]])])].

(** A deprecated operation; its [summary] is not a string. *)
Definition retired_operation : json :=
  JDict [("deprecated", JBool true); ("summary", JNum 3)].

(** A document with two operations on one path, for the first variant. *)
Definition shop_doc : json :=
  JDict
    [("paths",
      JDict
        [("/tags",
          JDict
            [("get",
              JDict
                [("summary", JStr "list the tags");
                 ("produces", JList [JStr "application/json"]);
                 ("parameters", JList [limit_parameter]);
                 ("responses", tags_responses)]);
             ("delete", retired_operation)])]);
     ("definitions", JDict [("Tag", tag_schema)])].

(** The [paths] of a document as [prance] returns it, for the second
    variant. *)
Definition resolved_shop_paths : list (string * json) :=
  [("/tags",
    JDict
      [("get",
        JDict
          [("summary", JStr "list the tags");
           ("parameters", JList [name_parameter; tags_parameter])]);
       ("delete", retired_operation)]);
   ("/tags/{id}", JDict [("put", JDict [("summary", JStr "rename a tag")])])].

Definition resolved_shop_doc : json := JDict [("paths", JDict resolved_shop_paths)].

End Samples.

(** * Properties of the first variant *)

Module CoreTheory.
Import Core.

(** ** Running a computation *)

Lemma bind_Done {A B} (m : M A) (k : A -> M B) (h : store) (r : B * store) :
  bind m k h = Done r <-> exists a h1, m h = Done (a, h1) /\ k a h1 = Done r.
Proof.
  unfold bind. split.
  - destruct (m h) as [[a h1] | e |] eqn:E; try discriminate. eauto.
  - intros (a & h1 & -> & Hk). exact Hk.
Qed.

Lemma bind_eq {A B} (m : M A) (k : A -> M B) (h h1 : store) (a : A) :
  m h = Done (a, h1) -> bind m k h = k a h1.
Proof. unfold bind. intros ->. reflexivity. Qed.

Lemma bind_Raise {A B} (m : M A) (k : A -> M B) (h : store) (e : exn) :
  m h = Raise e -> bind m k h = Raise e.
Proof. unfold bind. intros ->. reflexivity. Qed.

(** ** The shape of a store *)

Lemma shape_lookup_dict (h : store) (l : loc) (d : list (string * val)) :
  h !! l = Some (ODict d) -> shape h !! l = Some true.
Proof. intros H. unfold shape. rewrite list_lookup_fmap, H. reflexivity. Qed.

Lemma shape_insert_dict (h : store) (l : loc) (d d' : list (string * val)) :
  h !! l = Some (ODict d) -> shape (<[l := ODict d']> h) = shape h.
Proof.
  intros H. unfold shape. rewrite list_fmap_insert. simpl.
  apply list_insert_id. rewrite list_lookup_fmap, H. reflexivity.
Qed.

Lemma deref_dict_ref (h : store) (v : val) (d : list (string * val)) :
  deref h v = Some (ODict d) -> is_dict_ref (shape h) v.
Proof.
  destruct v; simpl; try discriminate. intros H.
  exists l. split; [reflexivity | eauto using shape_lookup_dict].
Qed.

Lemma is_dict_ref_lookup (h : store) (v : val) :
  is_dict_ref (shape h) v -> exists l d, v = VLoc l /\ h !! l = Some (ODict d).
Proof.
  intros (l & -> & H). unfold shape in H. rewrite list_lookup_fmap in H.
  destruct (h !! l) as [[d | xs] |] eqn:E; simpl in H; try discriminate.
  eauto.
Qed.

Section InPlace.
Context {A B : Type}.

Lemma in_place_bind (sh : list bool) (m : M A) (k : A -> M B)
    (Q : A -> Prop) (R : B -> Prop) :
  in_place sh m Q -> (forall a, Q a -> in_place sh (k a) R) ->
  in_place sh (bind m k) R.
Proof.
  intros Hm Hk h b h' Hsh Hrun.
  apply bind_Done in Hrun as (a & h1 & Hm1 & Hk1).
  destruct (Hm _ _ _ Hsh Hm1) as [Hsh1 HQ].
  exact (Hk a HQ h1 b h' Hsh1 Hk1).
Qed.

Lemma in_place_weaken (sh : list bool) (m : M A) (Q Q' : A -> Prop) :
  in_place sh m Q -> (forall a, Q a -> Q' a) -> in_place sh m Q'.
Proof. intros Hm HQ h a h' Hsh Hrun. destruct (Hm _ _ _ Hsh Hrun). auto. Qed.

Lemma in_place_ret (sh : list bool) (a : A) : in_place sh (ret a) (fun x => x = a).
Proof. intros h x h' Hsh Hrun. unfold ret in Hrun. injection Hrun as <- <-. auto. Qed.

Lemma in_place_raise (sh : list bool) (e : exn) (Q : A -> Prop) :
  in_place sh (raise e) Q.
Proof. intros h x h' _ Hrun. discriminate. Qed.

Lemma in_place_out_of_gas (sh : list bool) (Q : A -> Prop) :
  in_place sh out_of_gas Q.
Proof. intros h x h' _ Hrun. discriminate. Qed.

End InPlace.

Lemma in_place_truthy (sh : list bool) (v : val) :
  in_place sh (truthy_m v) (fun _ => True).
Proof. intros h x h' Hsh Hrun. unfold truthy_m in Hrun. injection Hrun as _ <-. auto. Qed.

Lemma in_place_get_default (sh : list bool) (v : val) (k : string) (dflt : val) :
  in_place sh (py_get_default v k dflt) (fun _ => is_dict_ref sh v).
Proof.
  intros h x h' Hsh Hrun. unfold py_get_default in Hrun.
  destruct (deref h v) as [[d | xs] |] eqn:E; try discriminate.
  injection Hrun as _ <-. split; [assumption |].
  subst sh. eauto using deref_dict_ref.
Qed.

Lemma in_place_get (sh : list bool) (v : val) (k : string) :
  in_place sh (py_get v k) (fun _ => is_dict_ref sh v).
Proof. apply in_place_get_default. Qed.

Lemma in_place_getitem (sh : list bool) (v : val) (k : string) :
  in_place sh (py_getitem v k) (fun _ => is_dict_ref sh v).
Proof.
  intros h x h' Hsh Hrun. unfold py_getitem in Hrun.
  destruct (deref h v) as [[d | xs] |] eqn:E; try discriminate.
  destruct (dict_get k d); try discriminate.
  injection Hrun as _ <-. split; [assumption |].
  subst sh. eauto using deref_dict_ref.
Qed.

Lemma in_place_setitem (sh : list bool) (v : val) (k : string) (x : val) :
  in_place sh (py_setitem v k x) (fun _ => True).
Proof.
  intros h u h' Hsh Hrun. unfold py_setitem in Hrun.
  destruct v; try discriminate.
  destruct (h !! l) as [[d | xs] |] eqn:E; try discriminate.
  injection Hrun as _ <-. split; [| exact I].
  subst sh. eauto using shape_insert_dict.
Qed.

Lemma in_place_delitem (sh : list bool) (v : val) (k : string) :
  in_place sh (py_delitem v k) (fun _ => True).
Proof.
  intros h u h' Hsh Hrun. unfold py_delitem in Hrun.
  destruct v; try discriminate.
  destruct (h !! l) as [[d | xs] |] eqn:E; try discriminate.
  destruct (dict_mem k d); try discriminate.
  injection Hrun as _ <-. split; [| exact I].
  subst sh. eauto using shape_insert_dict.
Qed.

Lemma in_place_contains (sh : list bool) (k : string) (v : val) :
  in_place sh (py_contains k v) (fun _ => True).
Proof.
  intros h u h' Hsh Hrun. unfold py_contains in Hrun.
  destruct v; try discriminate.
  - injection Hrun as _ <-. auto.
  - destruct (h !! l) as [[d | xs] |]; try discriminate;
      injection Hrun as _ <-; auto.
Qed.

Lemma in_place_find_key (sh : list bool) (gas : nat) (v : val) (k : string) :
  in_place sh (find_key_in_dict gas v k) (fun _ => True).
Proof.
  intros h u h' Hsh Hrun. unfold find_key_in_dict in Hrun.
  destruct (is_none v).
  - injection Hrun as _ <-. auto.
  - destruct (find_key_loop gas h k [v] VNone); try discriminate.
    injection Hrun as _ <-. auto.
Qed.

Lemma in_place_for_items_from {A} (sh : list bool)
    (body : string -> val -> A -> M A) (l : loc) (len : nat) :
  (forall k v acc, in_place sh (body k v acc) (fun _ => True)) ->
  forall todo i acc, in_place sh (for_items_from body l len i todo acc) (fun _ => True).
Proof.
  intros Hbody. induction todo as [| t IH]; intros i acc h a h' Hsh Hrun;
    simpl in Hrun;
    destruct (h !! l) as [[d | xs] |]; try discriminate;
    destruct (Nat.eqb (length d) len); try discriminate.
  - injection Hrun as _ <-. auto.
  - destruct (d !! i) as [[k v] |].
    + refine (in_place_bind sh _ _ (fun _ => True) (fun _ => True) _ _ h a h' Hsh Hrun);
        auto.
    + injection Hrun as _ <-. auto.
Qed.

Lemma in_place_for_items {A} (sh : list bool) (d : val) (acc : A)
    (body : string -> val -> A -> M A) :
  (forall k v acc, in_place sh (body k v acc) (fun _ => True)) ->
  in_place sh (for_items d acc body) (fun _ => True).
Proof.
  intros Hbody h a h' Hsh Hrun. unfold for_items in Hrun.
  destruct (deref h d) as [[kvs | xs] |]; try discriminate.
  destruct d; try discriminate.
  exact (in_place_for_items_from sh body l (length kvs) Hbody _ _ _ h a h' Hsh Hrun).
Qed.

Lemma in_place_any {A} (sh : list bool) (m : M A) (Q : A -> Prop) :
  in_place sh m Q -> in_place sh m (fun _ => True).
Proof. intros H. eapply in_place_weaken; [exact H | auto]. Qed.

Create HintDb in_place.
#[local] Hint Resolve in_place_truthy in_place_setitem in_place_delitem
  in_place_contains in_place_find_key : in_place.
#[local] Hint Extern 1 (in_place _ (py_get _ _) (fun _ => True)) =>
  eapply in_place_any, in_place_get : in_place.
#[local] Hint Extern 1 (in_place _ (py_getitem _ _) (fun _ => True)) =>
  eapply in_place_any, in_place_getitem : in_place.
#[local] Hint Extern 1 (in_place _ (ret _) (fun _ => True)) =>
  eapply in_place_any, in_place_ret : in_place.
#[local] Hint Extern 1 (in_place _ (raise _) _) => apply in_place_raise : in_place.

(** Walks down a computation whose result does not matter. *)
Ltac ip :=
  lazymatch goal with
  | |- in_place _ (bind _ _) _ =>
      eapply (in_place_bind _ _ _ (fun _ => True)); [ip | intros ? _; ip]
  | |- in_place _ (for_items _ _ _) _ =>
      apply in_place_for_items; intros ? ? ?; ip
  | |- in_place _ (if ?c then _ else _) _ => destruct c; ip
  | |- in_place _ (match ?x with _ => _ end) _ => destruct x; ip
  | |- _ => eauto with in_place
  end.
Ltac ip_bind :=
  eapply (in_place_bind _ _ _ (fun _ => True)); [solve [ip] | intros ? _].
Ltac ip_ret H :=
  eapply in_place_weaken; [apply in_place_ret | intros ? ->; exact H].

Lemma in_place_delete_useless (sh : list bool) (ukeys : list string) (schema : val) :
  in_place sh (delete_useless ukeys schema) (fun _ => True).
Proof. induction ukeys as [| u r IH]; simpl; ip. Qed.

Lemma in_place_nth_part (sh : list bool) (parts : list string) (i : nat) :
  in_place sh (nth_part parts i) (fun _ => True).
Proof. unfold nth_part. ip. Qed.

#[local] Hint Resolve in_place_delete_useless in_place_nth_part : in_place.

(** Resolution keeps the shape of the store and returns a reference to one
    of its dicts. *)
Lemma parse_ref_in_place (self : SwaggerProcessor) (gas depth : nat) :
  forall sh ref_path,
    in_place sh (parse_ref self gas depth ref_path) (is_dict_ref sh).
Proof.
  induction depth as [| depth IH]; intros sh ref_path; simpl.
  - apply in_place_out_of_gas.
  - assert (IH' : forall r, in_place sh (parse_ref self gas depth r) (fun _ => True))
      by (intros r; eapply in_place_any, IH).
    do 8 ip_bind.
    eapply in_place_bind; [apply in_place_get | intros properties Hschema].
    destruct (is_none properties).
    + do 2 ip_bind.
      eapply (in_place_bind _ _ _ (is_dict_ref sh)).
      { lazymatch goal with
        | |- in_place _ (if ?c then _ else _) _ => destruct c
        end; [| ip_ret Hschema].
        eapply (in_place_bind _ _ _ (fun _ => True)); [ip | intros ty _].
        destruct (negb (eq_str ty "array")); [apply IH | ip_ret Hschema]. }
      intros schema' Hschema'.
      do 2 ip_bind. ip_ret Hschema'.
    + do 2 ip_bind. ip_ret Hschema.
Qed.

Lemma parse_ref_returns_dict (self : SwaggerProcessor) (gas depth : nat)
    (ref_path v : val) (h h' : store) :
  parse_ref self gas depth ref_path h = Done (v, h') ->
  shape h' = shape h /\
  exists l d d', v = VLoc l /\ h !! l = Some (ODict d) /\ h' !! l = Some (ODict d').
Proof.
  intros Hrun.
  destruct (parse_ref_in_place self gas depth (shape h) ref_path h v h' eq_refl Hrun)
    as [Hsh Hv].
  split; [assumption |].
  destruct (is_dict_ref_lookup h v Hv) as (l & d & -> & Hl).
  rewrite <- Hsh in Hv.
  destruct (is_dict_ref_lookup h' (VLoc l) Hv) as (l' & d' & [= <-] & Hl').
  eauto 6.
Qed.

(** ** Names of operations *)

Ltac case_name name :=
  match goal with
  | |- context [String.eqb name ?s] => destruct (String.eqb_spec name s) as [-> | _]
  end.
Ltac pick := repeat first [left; reflexivity | right].

Lemma Operation_getitem_Done (name : string) (o : Operation) :
  Operation_getitem name = Done o ->
  In name Operation_names /\ In (Operation_value o) Operation_values.
Proof.
  unfold Operation_getitem, Operation_names, Operation_values.
  repeat (case_name name; [intros [= <-]; simpl; split; pick |]).
  intros [=].
Qed.

Lemma Operation_getitem_unknown (name : string) :
  ~ In name Operation_names -> Operation_getitem name = Raise KeyError.
Proof.
  unfold Operation_getitem, Operation_names. intros H.
  repeat (case_name name; [exfalso; apply H; simpl; pick |]).
  reflexivity.
Qed.

Ltac inv_bind H :=
  let a := fresh "a" in
  let h := fresh "h" in
  let E := fresh "E" in
  apply bind_Done in H as (a & h & E & H).

Lemma new_Method_type (self : SwaggerProcessor) method method_data method_url
    params responses request_body (h : store) (m : Method) (h' : store) :
  new_Method self method method_data method_url params responses request_body h
  = Done (m, h') ->
  Operation_getitem method = Done (Method_type m).
Proof.
  unfold new_Method. intros H.
  do 7 inv_bind H.
  unfold ret in H. injection H as <- _. simpl.
  unfold lift in E. destruct (Operation_getitem method); try discriminate.
  congruence.
Qed.

Lemma parse_method_type (self : SwaggerProcessor) (gas depth : nat)
    method method_data method_url (h : store) (m : Method) (h' : store) :
  parse_method self gas depth method method_data method_url h = Done (Some m, h') ->
  Operation_getitem method = Done (Method_type m).
Proof.
  unfold parse_method. intros H.
  do 2 inv_bind H. destruct a0; [discriminate |].
  do 7 inv_bind H. injection H as <- _.
  eauto using new_Method_type.
Qed.

(** ** More gas changes nothing *)

Lemma extends_refl {A} (m : M A) : extends m m.
Proof. intros h. right. reflexivity. Qed.

Lemma extends_bind {A B} (m1 m2 : M A) (k1 k2 : A -> M B) :
  extends m1 m2 -> (forall a, extends (k1 a) (k2 a)) ->
  extends (bind m1 k1) (bind m2 k2).
Proof.
  intros Hm Hk h. unfold bind.
  destruct (Hm h) as [-> | ->]; [left; reflexivity |].
  destruct (m1 h) as [[a h1] | e |]; [apply Hk | right; reflexivity | left; reflexivity].
Qed.

Lemma find_key_loop_more_gas (h : store) (k : string) :
  forall gas gas' queue found v,
    gas <= gas' ->
    find_key_loop gas h k queue found = Done v ->
    find_key_loop gas' h k queue found = Done v.
Proof.
  induction gas as [| gas IH]; intros gas' queue found v Hle H.
  - destruct queue; [| discriminate H]. destruct gas'; exact H.
  - destruct gas' as [| gas']; [lia |].
    destruct queue as [| cur queue]; [exact H |].
    simpl in *. destruct (deref h cur) as [[d | xs] |];
      try destruct (scan_items k d); apply (IH gas'); auto; lia.
Qed.

Lemma find_key_loop_never_raises (h : store) (k : string) :
  forall gas queue found e, find_key_loop gas h k queue found <> Raise e.
Proof.
  induction gas as [| gas IH]; intros queue found e; destruct queue; simpl; try discriminate.
  destruct (deref h v) as [[d | xs] |]; try destruct (scan_items k d); apply IH.
Qed.

Lemma extends_find_key (gas gas' : nat) (v : val) (k : string) :
  gas <= gas' -> extends (find_key_in_dict gas v k) (find_key_in_dict gas' v k).
Proof.
  intros Hle h. unfold find_key_in_dict. destruct (is_none v); [right; reflexivity |].
  destruct (find_key_loop gas h k [v] VNone) as [x | e |] eqn:E.
  - right. rewrite (find_key_loop_more_gas h k gas gas' _ _ _ Hle E). reflexivity.
  - exfalso. exact (find_key_loop_never_raises h k _ _ _ _ E).
  - left. reflexivity.
Qed.

Lemma extends_for_items_from {A} (b1 b2 : string -> val -> A -> M A) (l : loc) (len : nat) :
  (forall k v acc, extends (b1 k v acc) (b2 k v acc)) ->
  forall todo i acc,
    extends (for_items_from b1 l len i todo acc) (for_items_from b2 l len i todo acc).
Proof.
  intros Hb. induction todo as [| t IH]; intros i acc h; simpl;
    destruct (h !! l) as [[d | xs] |]; try (right; reflexivity);
    destruct (Nat.eqb (length d) len); try (right; reflexivity).
  destruct (d !! i) as [[k v] |]; [| right; reflexivity].
  apply (extends_bind (b1 k v acc) (b2 k v acc)); auto.
Qed.

Lemma extends_for_items {A} (d : val) (acc : A) (b1 b2 : string -> val -> A -> M A) :
  (forall k v acc, extends (b1 k v acc) (b2 k v acc)) ->
  extends (for_items d acc b1) (for_items d acc b2).
Proof.
  intros Hb h. unfold for_items.
  destruct (deref h d) as [[kvs | xs] |]; try (right; reflexivity).
  destruct d; try (right; reflexivity).
  apply extends_for_items_from. exact Hb.
Qed.

Create HintDb extends.
#[local] Hint Resolve extends_find_key : extends.

Ltac ext :=
  lazymatch goal with
  | |- extends (bind _ _) (bind _ _) => apply extends_bind; [ext | intros ?; ext]
  | |- extends (for_items _ _ _) (for_items _ _ _) =>
      apply extends_for_items; intros ? ? ?; ext
  | |- extends (if ?c then _ else _) _ => destruct c; ext
  | |- extends (match ?x with _ => _ end) _ => destruct x; ext
  | |- extends ?a ?b =>
      first [constr_eq a b; apply extends_refl | solve [eauto with extends]]
  end.

Lemma extends_parse_ref (self : SwaggerProcessor) (gas gas' : nat) :
  gas <= gas' ->
  forall depth depth' ref_path,
    depth <= depth' ->
    extends (parse_ref self gas depth ref_path) (parse_ref self gas' depth' ref_path).
Proof.
  intros Hgas. induction depth as [| depth IH]; intros depth' ref_path Hle.
  - intros h. left. reflexivity.
  - destruct depth' as [| depth']; [lia |].
    assert (IH' : forall r, extends (parse_ref self gas depth r) (parse_ref self gas' depth' r))
      by (intros r; apply IH; lia).
    simpl. ext.
Qed.

(** More gas and more depth do not change how a call ends. *)

Lemma extends_Done {A} (m1 m2 : M A) (h : store) (r : A * store) :
  extends m1 m2 -> m1 h = Done r -> m2 h = Done r.
Proof. intros H E. destruct (H h) as [E' | E']; congruence. Qed.

Lemma extends_Raise {A} (m1 m2 : M A) (h : store) (e : exn) :
  extends m1 m2 -> m1 h = Raise e -> m2 h = Raise e.
Proof. intros H E. destruct (H h) as [E' | E']; congruence. Qed.

Section MoreGas.
Variable self : SwaggerProcessor.
Variables gas gas' depth depth' : nat.
Hypothesis Hgas : gas <= gas'.
Hypothesis Hdepth : depth <= depth'.

Lemma extends_parse_ref' (r : val) :
  extends (parse_ref self gas depth r) (parse_ref self gas' depth' r).
Proof. apply extends_parse_ref; assumption. Qed.

#[local] Hint Resolve extends_parse_ref' : extends.

Lemma extends_parse_parameter (param : val) :
  extends (parse_parameter self gas depth param) (parse_parameter self gas' depth' param).
Proof. unfold parse_parameter, get_with_schema_fallback. ext. Qed.

Lemma extends_parse_parameters (params_data : val) :
  extends (parse_parameters self gas depth params_data)
    (parse_parameters self gas' depth' params_data).
Proof.
  unfold parse_parameters. apply extends_bind; [apply extends_refl |].
  intros params. generalize (@nil Parameter').
  induction params as [| p r IH]; intros acc; simpl; [apply extends_refl |].
  apply extends_bind; [apply extends_parse_parameter | intros ?; apply IH].
Qed.

Lemma extends_parse_response (http_code : string) (response_data : val) :
  extends (parse_response self gas depth http_code response_data)
    (parse_response self gas' depth' http_code response_data).
Proof. pose proof Hgas. unfold parse_response. ext. Qed.

Lemma extends_parse_responses (responses_data : val) :
  extends (parse_responses self gas depth responses_data)
    (parse_responses self gas' depth' responses_data).
Proof.
  unfold parse_responses. apply extends_for_items. intros k v acc.
  apply extends_bind; [apply extends_parse_response | intros ?; apply extends_refl].
Qed.

Lemma extends_parse_request_body (request_body_data : val) :
  extends (parse_request_body self gas depth request_body_data)
    (parse_request_body self gas' depth' request_body_data).
Proof. pose proof Hgas. unfold parse_request_body. ext. Qed.

Lemma extends_parse_method (method : string) (method_data : val) (method_url : string) :
  extends (parse_method self gas depth method method_data method_url)
    (parse_method self gas' depth' method method_data method_url).
Proof.
  pose proof extends_parse_parameters. pose proof extends_parse_responses.
  pose proof extends_parse_request_body.
  unfold parse_method. ext.
Qed.

Lemma extends_parse_swagger :
  extends (parse_swagger self gas depth) (parse_swagger self gas' depth').
Proof.
  pose proof extends_parse_method.
  unfold parse_swagger, parse_endpoints. ext.
Qed.

End MoreGas.

Lemma parse_ref_more (self : SwaggerProcessor) (gas gas' depth depth' : nat)
    (ref_path : val) (h : store) (r : val * store) :
  gas <= gas' -> depth <= depth' ->
  parse_ref self gas depth ref_path h = Done r ->
  parse_ref self gas' depth' ref_path h = Done r.
Proof. intros Hg Hd. apply extends_Done, extends_parse_ref; assumption. Qed.

(** ** Searching a tree that does not hold the key *)

Lemma reads_as_scalar (h : store) (v : val) (j : json) :
  reads_as h v j -> is_container v = false -> is_node j = false /\ deref h v = None.
Proof.
  intros [n H] Hv.
  destruct v; simpl in *; try discriminate;
    destruct n; simpl in H; injection H as <-; auto.
Qed.

Lemma reads_as_loc (h : store) (l : loc) (j : json) :
  reads_as h (VLoc l) j ->
  (exists d kvs, h !! l = Some (ODict d) /\ j = JDict kvs /\
     Forall2 (fun kv kj => fst kv = fst kj /\ reads_as h (snd kv) (snd kj)) d kvs)
  \/ (exists xs js, h !! l = Some (OList xs) /\ j = JList js /\
        Forall2 (reads_as h) xs js).
Proof.
  intros [[| n] H]; simpl in H; [discriminate |].
  destruct (h !! l) as [[d | xs] |]; [| | discriminate].
  - left. apply fmap_Some in H as (kvs & Hm & ->).
    exists d, kvs. repeat split.
    apply mapM_Some in Hm. 
    induction Hm as [| [k v] [k' j'] d' kvs' Hx _ IH]; constructor; [| exact IH].
    simpl in *. apply fmap_Some in Hx as (j0 & Hs & [= -> ->]).
    split; [reflexivity | exists n; exact Hs].
  - right. apply fmap_Some in H as (js & Hm & ->).
    exists xs, js. repeat split.
    apply mapM_Some in Hm. eapply Forall2_impl; [exact Hm |].
    intros v j Hs. exists n. exact Hs.
Qed.

Lemma reads_as_node (h : store) (v : val) (j : json) :
  reads_as h v j -> is_container v = is_node j.
Proof.
  intros H.
  destruct v;
    try (destruct (reads_as_scalar h _ j H eq_refl) as [-> _]; reflexivity).
  apply reads_as_loc in H as [(d & kvs & _ & -> & _) | (xs & js & _ & -> & _)];
    reflexivity.
Qed.

Lemma has_key_dict_false (k : string) (kvs : list (string * json)) :
  has_key k (JDict kvs) = false ->
  Forall (fun kj => String.eqb (fst kj) k = false /\ has_key k (snd kj) = false) kvs.
Proof.
  simpl. induction kvs as [| [k' v] r IH]; intros H; constructor.
  - simpl. apply orb_false_iff in H as [H _]. apply orb_false_iff in H. exact H.
  - apply IH. apply orb_false_iff in H as [_ H]. exact H.
Qed.

Lemma has_key_list_false (k : string) (js : list json) :
  has_key k (JList js) = false -> Forall (fun j => has_key k j = false) js.
Proof.
  simpl. induction js as [| j r IH]; intros H; constructor.
  - apply orb_false_iff in H as [H _]. exact H.
  - apply IH. apply orb_false_iff in H as [_ H]. exact H.
Qed.

Lemma json_size_dict (kvs : list (string * json)) :
  json_size (JDict kvs) = S (forest_size (map snd kvs)).
Proof.
  simpl. f_equal.
  induction kvs as [| [k v] r IH]; simpl; [reflexivity | now rewrite IH].
Qed.

Lemma json_size_list (js : list json) : json_size (JList js) = S (forest_size js).
Proof. reflexivity. Qed.

Lemma forest_size_app (js1 js2 : list json) :
  forest_size (js1 ++ js2) = forest_size js1 + forest_size js2.
Proof. induction js1 as [| j r IH]; simpl; [reflexivity | rewrite IH; lia]. Qed.

Lemma forest_size_filter (f : json -> bool) (js : list json) :
  forest_size (List.filter f js) <= forest_size js.
Proof. induction js as [| j r IH]; simpl; [lia |]. destruct (f j); simpl; lia. Qed.

Lemma scan_items_absent (k : string) (d : list (string * val)) :
  Forall (fun kv => String.eqb (fst kv) k = false) d ->
  scan_items k d = (None, List.filter is_container (map snd d)).
Proof.
  induction 1 as [| [k' v] r Hk _ IH]; simpl; [reflexivity |].
  simpl in Hk. rewrite Hk, IH. reflexivity.
Qed.

Lemma reads_as_filter (h : store) (vs : list val) (js : list json) :
  Forall2 (reads_as h) vs js ->
  Forall2 (reads_as h) (List.filter is_container vs) (List.filter is_node js).
Proof.
  induction 1 as [| v j vs js Hv _ IH]; simpl; [constructor |].
  rewrite (reads_as_node h v j Hv).
  destruct (is_node j); [constructor |]; assumption.
Qed.

Lemma Forall_filter_bool {A} (P : A -> Prop) (f : A -> bool) (l : list A) :
  Forall P l -> Forall P (List.filter f l).
Proof.
  induction 1 as [| x r Hx _ IH]; simpl; [constructor |].
  destruct (f x); [constructor |]; assumption.
Qed.

(** The search over trees without the key empties the queue and leaves
    [found] as it was; one unit of gas per value of the trees is enough. *)
Lemma find_key_loop_absent (k : string) (h : store) :
  forall gas queue trees found,
    Forall2 (reads_as h) queue trees ->
    Forall (fun j => has_key k j = false) trees ->
    forest_size trees <= gas ->
    find_key_loop gas h k queue found = Done found.
Proof.
  induction gas as [| gas IH]; intros queue trees found Hq Hk Hsize.
  - destruct Hq as [| v j vs js Hv _]; [reflexivity |].
    simpl in Hsize. destruct j; simpl in Hsize; lia.
  - destruct Hq as [| v j vs js Hv Hq]; [reflexivity |].
    apply Forall_cons in Hk as [Hj Hk]. simpl in Hsize. simpl.
    destruct v as [| b | z | s | l];
      try (apply (IH vs js); [assumption | assumption | destruct j; simpl in Hsize; lia]).
    simpl.
    apply reads_as_loc in Hv as [(d & kvs & -> & -> & Hd) | (xs & js' & -> & -> & Hxs)].
    + apply has_key_dict_false in Hj. rewrite json_size_dict in Hsize.
      rewrite scan_items_absent.
      2:{ clear -Hd Hj. induction Hd as [| kv kj d kvs [E _] _ IHd]; constructor.
          - apply Forall_cons in Hj as [[Hj _] _]. rewrite E. exact Hj.
          - apply IHd. apply Forall_cons in Hj as [_ Hj]. exact Hj. }
      simpl. apply (IH _ (js ++ List.filter is_node (map snd kvs))).
      * apply Forall2_app; [assumption |]. apply reads_as_filter.
        clear -Hd. induction Hd as [| kv kj d kvs [_ R] _ IHd]; constructor; assumption.
      * apply Forall_app. split; [assumption |]. apply Forall_filter_bool.
        clear -Hj. induction Hj as [| kj r [_ Hx] _ IHj]; constructor; assumption.
      * rewrite forest_size_app.
        pose proof (forest_size_filter is_node (map snd kvs)). lia.
    + apply has_key_list_false in Hj. rewrite json_size_list in Hsize.
      apply (IH _ (js ++ List.filter is_node js')).
      * apply Forall2_app; [assumption |]. apply reads_as_filter. assumption.
      * apply Forall_app. split; [assumption |]. apply Forall_filter_bool. assumption.
      * rewrite forest_size_app.
        pose proof (forest_size_filter is_node js'). lia.
Qed.

Lemma find_key_absent (gas : nat) (k : string) (h : store) (v : val) (j : json) :
  reads_as h v j -> has_key k j = false -> json_size j <= gas ->
  find_key_in_dict gas v k h = Done (VNone, h).
Proof.
  intros Hv Hk Hsize. unfold find_key_in_dict.
  destruct (is_none v); [reflexivity |].
  rewrite (find_key_loop_absent k h gas [v] [j] VNone); auto.
  simpl. lia.
Qed.

Lemma reads_as_text (h : store) (v : val) (j : json) :
  reads_as h v j ->
  match j with
  | JNull => v = VNone
  | JStr s => v = VStr s
  | _ => True
  end.
Proof.
  intros H. pose proof (reads_as_node h v j H) as Hn. destruct H as [n H].
  destruct j; try exact I;
    destruct v; simpl in Hn; try discriminate Hn;
    destruct n; simpl in H; try discriminate H; congruence.
Qed.

Lemma dict_get_reads_as (h : store) (k : string)
    (d : list (string * val)) (kvs : list (string * json)) :
  Forall2 (fun kv kj => fst kv = fst kj /\ reads_as h (snd kv) (snd kj)) d kvs ->
  match dict_get k kvs with
  | None => dict_get k d = None
  | Some j => exists v, dict_get k d = Some v /\ reads_as h v j
  end.
Proof.
  induction 1 as [| [k1 v] [k2 j] d kvs [E R] _ IH]; simpl in *; [reflexivity |].
  subst k2. destruct (String.eqb k1 k); [eauto | exact IH].
Qed.

(** ** Pointer resolution *)

Import Examples.

Lemma order_resolved_once :
  exists l h1 j,
    parse_ref (processor_of order_doc) 0 1 (VStr "#/definitions/Order")
      (store_of order_doc) = Done (VLoc l, h1)
    /\ snapshot 20 h1 (VLoc l) = Some j
    /\ json_path ["properties"; "customer"; "properties"; "address"] j
       = Some (JDict [("$ref", JStr "#/definitions/Address")])
    /\ has_key "$ref" j = true.
Proof. do 3 eexists. repeat split; reflexivity. Qed.

(** C1 (the code departs from it).  [order_doc] has no cycle of pointers:
    [Order] points to [Address], which points nowhere.  Resolving
    [#/definitions/Order] returns, whatever the gas and for any depth of at
    least one call, and the schema it returns still holds a pointer key: the
    pointer under the inline object [customer] was not followed. *)
Theorem nested_inline_pointer_remains (gas depth : nat) :
  1 <= depth ->
  exists l h1 j,
    parse_ref (processor_of order_doc) gas depth (VStr "#/definitions/Order")
      (store_of order_doc) = Done (VLoc l, h1)
    /\ snapshot 20 h1 (VLoc l) = Some j
    /\ json_path ["properties"; "customer"; "properties"; "address"] j
       = Some (JDict [("$ref", JStr "#/definitions/Address")])
    /\ has_key "$ref" j = true.
Proof.
  intros Hdepth. destruct order_resolved_once as (l & h1 & j & Hrun & Hrest).
  exists l, h1, j. split; [| exact Hrest].
  apply (parse_ref_more _ 0 gas 1 depth); [lia | exact Hdepth | exact Hrun].
Qed.

Lemma nested_inline_pointer_remains_witness :
  exists l h1 j,
    parse_ref (processor_of order_doc) 50 10 (VStr "#/definitions/Order")
      (store_of order_doc) = Done (VLoc l, h1)
    /\ snapshot 20 h1 (VLoc l) = Some j
    /\ json_path ["properties"; "customer"; "properties"; "address"] j
       = Some (JDict [("$ref", JStr "#/definitions/Address")])
    /\ has_key "$ref" j = true.
Proof. apply (nested_inline_pointer_remains 50 10). lia. Defined.

Lemma pet_resolved_once :
  exists l h1 j,
    parse_ref (processor_of pet_doc) 0 2 (VStr "#/definitions/Pet")
      (store_of pet_doc) = Done (VLoc l, h1)
    /\ snapshot 20 h1 (VLoc l) = Some j
    /\ j = resolved_pet
    /\ json_path ["properties"; "tags"] j = Some tag_schema
    /\ json_path ["properties"; "tags"; "type"] j = Some (JStr "object")
    /\ json_path ["properties"; "tags"; "items"] j = None.
Proof. do 3 eexists. repeat split; reflexivity. Qed.

(** C6 (the code departs from it).  In [pet_doc] the property [tags] of [Pet]
    is an array whose [items] is a pointer to [Tag].  Resolving
    [#/definitions/Pet] returns, whatever the gas and for any depth of at
    least two calls; after it the property is the schema of [Tag] itself: its
    type is [object] and it has no [items], the array around the resolved
    schema is gone. *)
Theorem array_property_is_replaced (gas depth : nat) :
  2 <= depth ->
  exists l h1 j,
    parse_ref (processor_of pet_doc) gas depth (VStr "#/definitions/Pet")
      (store_of pet_doc) = Done (VLoc l, h1)
    /\ snapshot 20 h1 (VLoc l) = Some j
    /\ j = resolved_pet
    /\ json_path ["properties"; "tags"] j = Some tag_schema
    /\ json_path ["properties"; "tags"; "type"] j = Some (JStr "object")
    /\ json_path ["properties"; "tags"; "items"] j = None.
Proof.
  intros Hdepth. destruct pet_resolved_once as (l & h1 & j & Hrun & Hrest).
  exists l, h1, j. split; [| exact Hrest].
  apply (parse_ref_more _ 0 gas 2 depth); [lia | exact Hdepth | exact Hrun].
Qed.

Lemma array_property_is_replaced_witness :
  exists l h1 j,
    parse_ref (processor_of pet_doc) 50 10 (VStr "#/definitions/Pet")
      (store_of pet_doc) = Done (VLoc l, h1)
    /\ snapshot 20 h1 (VLoc l) = Some j
    /\ j = resolved_pet
    /\ json_path ["properties"; "tags"] j = Some tag_schema
    /\ json_path ["properties"; "tags"; "type"] j = Some (JStr "object")
    /\ json_path ["properties"; "tags"; "items"] j = None.
Proof. apply (array_property_is_replaced 50 10). lia. Defined.

(** C4, as amended.  Resolution works in place.  A call that returns leaves
    the store with the same objects (every position still holds a dict, or
    still holds a list) and returns a reference to a dict that was in the
    store before the call: no new value is built, the result is shared with
    the Document.  What the dicts hold may have changed. *)
Theorem resolution_works_in_place (self : SwaggerProcessor) (gas depth : nat)
    (ref_path v : val) (h h' : store) :
  parse_ref self gas depth ref_path h = Done (v, h') ->
  shape h' = shape h /\
  exists l d d', v = VLoc l /\ h !! l = Some (ODict d) /\ h' !! l = Some (ODict d').
Proof. apply parse_ref_returns_dict. Qed.

Lemma resolution_works_in_place_witness :
  exists v h',
    parse_ref (processor_of pet_doc) 50 10 (VStr "#/definitions/Pet")
      (store_of pet_doc) = Done (v, h')
    /\ shape h' = shape (store_of pet_doc)
    /\ exists l d d',
         v = VLoc l /\ store_of pet_doc !! l = Some (ODict d)
         /\ h' !! l = Some (ODict d').
Proof.
  do 2 eexists. split; [reflexivity |].
  apply (resolution_works_in_place (processor_of pet_doc) 50 10
           (VStr "#/definitions/Pet")).
  reflexivity.
Defined.

(** C4 fails as stated.  Resolving [#/definitions/Pet] in [pet_doc] returns
    object 10 of the document itself and deletes [xml] from it, so the
    document is not what it was.  In [list_doc], resolving
    [#/definitions/Page] twice returns two schemas that differ. *)
Lemma resolution_changes_the_document :
  (exists h1,
      parse_ref (processor_of pet_doc) 50 10 (VStr "#/definitions/Pet")
        (store_of pet_doc) = Done (VLoc 10, h1)
      /\ store_of pet_doc !! 10
         = Some (ODict [("type", VStr "object"); ("xml", VLoc 1); ("properties", VLoc 9)])
      /\ h1 !! 10 = Some (ODict [("type", VStr "object"); ("properties", VLoc 9)])
      /\ h1 <> store_of pet_doc)
  /\ (exists v1 h1 v2 h2 j1 j2,
        parse_ref (processor_of list_doc) 50 10 (VStr "#/definitions/Page")
          (store_of list_doc) = Done (v1, h1)
        /\ parse_ref (processor_of list_doc) 50 10 (VStr "#/definitions/Page") h1
           = Done (v2, h2)
        /\ snapshot 20 h1 v1 = Some j1
        /\ snapshot 20 h2 v2 = Some j2
        /\ json_path ["properties"; "rows"; "type"] j1 = Some (JStr "array")
        /\ json_path ["properties"; "rows"; "type"] j2 = Some (JStr "string")
        /\ j1 <> j2).
Proof.
  split.
  - eexists. repeat split; try reflexivity. intros E. vm_compute in E. discriminate E.
  - do 6 eexists. repeat split; try reflexivity. intros E. discriminate E.
Qed.

(** ** The key search *)

(** C3 (the code departs from it).  In [names_response] the shallowest [type]
    key, the first one in breadth-first order, has the value [array].  With
    gas for the three mappings of the entry the search returns [string], the
    value of the [type] key one level further down: a hit does not end the
    search, and a later hit replaces it. *)
Theorem find_key_returns_last_hit (gas : nat) :
  3 <= gas ->
  first_in_bfs (json_size names_response) "type" [names_response]
    = Some (JStr "array")
  /\ find_key_in_dict gas (root_of names_response) "type" (store_of names_response)
     = Done (VStr "string", store_of names_response).
Proof.
  intros Hgas. split; [reflexivity |].
  apply (extends_Done (find_key_in_dict 3 (root_of names_response) "type"));
    [| reflexivity].
  apply extends_find_key. exact Hgas.
Qed.

Lemma find_key_returns_last_hit_witness :
  first_in_bfs (json_size names_response) "type" [names_response]
    = Some (JStr "array")
  /\ find_key_in_dict 20 (root_of names_response) "type" (store_of names_response)
     = Done (VStr "string", store_of names_response).
Proof. apply (find_key_returns_last_hit 20). lia. Defined.

(** ** Request bodies and responses *)

(** C7.  A request body that holds no pointer key anywhere in its tree makes
    [__parse_request_body] raise [AssertionError], as soon as the search has
    gas for every value of the tree: no [RequestBody] is built.  When the
    search finds a pointer and its resolution returns, the resolved schema is
    the [data_schema] of the [RequestBody] that is returned (for a request
    body that is a mapping with a textual or absent [description] and a
    boolean or absent [required]). *)
Theorem request_body_needs_a_pointer (self : SwaggerProcessor) (gas depth : nat)
    (request_body_data : val) (h : store) :
  (forall j,
      reads_as h request_body_data j ->
      has_key "$ref" j = false ->
      json_size j <= gas ->
      parse_request_body self gas depth request_body_data h = Raise AssertionError)
  /\ (forall (l : loc) (d d' : list (string * val)) ref schema h',
        request_body_data = VLoc l ->
        h !! l = Some (ODict d) ->
        is_opt_str (dict_get "description" d) ->
        find_key_in_dict gas request_body_data "$ref" h = Done (ref, h) ->
        ref <> VNone ->
        parse_ref self gas depth ref h = Done (schema, h') ->
        h' !! l = Some (ODict d') ->
        is_opt_bool (dict_get "required" d') ->
        exists ls,
          schema = VLoc ls /\
          parse_request_body self gas depth request_body_data h =
            Done ({| RequestBody_description :=
                       long_description (dict_get "description" d);
                     RequestBody_data_schema := ls;
                     RequestBody_required := bool_of (dict_get "required" d') |},
                  h')).
Proof.
  split.
  - intros j Hj Hk Hgas.
    pose proof (find_key_absent gas "$ref" h request_body_data j Hj Hk Hgas) as Href.
    unfold parse_request_body. rewrite (bind_eq _ _ _ _ _ Href).
    reflexivity.
  - intros l d d' ref schema h' -> Hl Hd Href Hne Hres Hl' Hreq.
    destruct (parse_ref_returns_dict _ _ _ _ _ _ _ Hres)
      as (_ & ls & d0 & ds & -> & _ & Hls).
    exists ls. split; [reflexivity |].
    unfold parse_request_body. rewrite (bind_eq _ _ _ _ _ Href).
    assert (is_none ref = false) as -> by (destruct ref; simpl; congruence).
    unfold bind, py_get, py_get_default, py_len, as_opt_str, as_dict, as_bool, ret.
    simpl. rewrite Hl.
    destruct (dict_get "description" d) as [[| | | s |] |]; simpl in *;
      try contradiction;
      try destruct (Nat.ltb 1 (String.length s));
      rewrite Hres; simpl; rewrite Hl', Hls;
      destruct (dict_get "required" d') as [[| b | | |] |]; simpl in *;
      try contradiction; reflexivity.
Qed.

Lemma request_body_needs_a_pointer_witness :
  parse_request_body (processor_of pet_doc) 50 10 (root_beside_pet inline_body)
    (store_beside_pet inline_body) = Raise AssertionError
  /\ exists h',
      parse_request_body (processor_of pet_doc) 50 10 (root_beside_pet pet_body)
        (store_beside_pet pet_body)
      = Done ({| RequestBody_description := Some "the pet to add";
                 RequestBody_data_schema := 10;
                 RequestBody_required := true |}, h').
Proof.
  split.
  - apply (proj1 (request_body_needs_a_pointer (processor_of pet_doc) 50 10
                    (root_beside_pet inline_body) (store_beside_pet inline_body))
             inline_body).
    + exists 10. reflexivity.
    + reflexivity.
    + simpl. lia.
  - edestruct (proj2 (request_body_needs_a_pointer (processor_of pet_doc) 50 10
                        (root_beside_pet pet_body) (store_beside_pet pet_body)))
      as (ls & Els & Erun).
    + reflexivity.
    + reflexivity.
    + exact I.
    + reflexivity.
    + discriminate.
    + reflexivity.
    + reflexivity.
    + exact I.
    + injection Els as <-. eexists. exact Erun.
Defined.

(** What [__parse_responses] does with an entry in which neither search has
    a hit. *)
Lemma parse_response_without_hits (self : SwaggerProcessor) (gas depth : nat)
    (http_code : string) (l : loc) (d : list (string * val)) (h : store) :
  h !! l = Some (ODict d) ->
  is_opt_str (dict_get "description" d) ->
  find_key_in_dict gas (VLoc l) "$ref" h = Done (VNone, h) ->
  find_key_in_dict gas (VLoc l) "type" h = Done (VNone, h) ->
  parse_response self gas depth http_code (VLoc l) h =
    Done ({| Response_code := http_code;
             Response_description := opt_str_of (dict_get "description" d);
             Response_return_schema :=
               Some {| ResponseSchema_type := None; ResponseSchema_items := None |} |},
          h).
Proof.
  intros Hl Hd Href Htype. unfold parse_response.
  rewrite (bind_eq _ _ _ _ _ Href), (bind_eq _ _ _ _ _ Htype). simpl.
  unfold bind at 1. simpl. unfold bind at 1. simpl.
  unfold py_get_default, bind. simpl. rewrite Hl.
  destruct (dict_get "description" d) as [[| | | s |] |]; simpl in *;
    try contradiction; reflexivity.
Qed.

(** The loop over the items of a dict when no step writes: the results of
    the steps, in the order of the dict. *)
Lemma for_items_from_collect {B} (body : string -> val -> list B -> M (list B))
    (l : loc) (d : list (string * val)) (h : store) (out : list B) :
  h !! l = Some (ODict d) ->
  Forall2 (fun kv b => forall acc, body (fst kv) (snd kv) acc h = Done (acc ++ [b], h))
    d out ->
  forall todo i acc,
    i + todo = length d ->
    for_items_from body l (length d) i todo acc h = Done (acc ++ drop i out, h).
Proof.
  intros Hl Hall. pose proof (Forall2_length _ _ _ Hall) as Hlen.
  induction todo as [| t IH]; intros i acc Hi; simpl; rewrite Hl, Nat.eqb_refl.
  - rewrite drop_ge by lia. rewrite app_nil_r. reflexivity.
  - destruct (d !! i) as [[k v] |] eqn:Ei.
    + destruct (Forall2_lookup_l _ _ _ _ _ Hall Ei) as (b & Eb & Hb).
      unfold bind. simpl in Hb. rewrite Hb. rewrite IH by lia.
      rewrite <- app_assoc. simpl. rewrite (drop_S _ _ _ Eb). reflexivity.
    + apply lookup_ge_None in Ei. lia.
Qed.

Lemma parse_response_plain (self : SwaggerProcessor) (gas depth : nat)
    (http_code : string) (response_data : val) (kvs : list (string * json))
    (h : store) :
  reads_as h response_data (JDict kvs) ->
  is_opt_text (dict_get "description" kvs) ->
  has_key "$ref" (JDict kvs) = false ->
  has_key "type" (JDict kvs) = false ->
  json_size (JDict kvs) <= gas ->
  parse_response self gas depth http_code response_data h =
    Done (plain_Response http_code (JDict kvs), h).
Proof.
  intros Hr Hd Href Htype Hgas.
  pose proof (find_key_absent gas "$ref" h _ _ Hr Href Hgas) as Eref.
  pose proof (find_key_absent gas "type" h _ _ Hr Htype Hgas) as Etype.
  destruct response_data as [| | | | l];
    try (destruct (reads_as_scalar h _ _ Hr eq_refl) as [[=] _]).
  apply reads_as_loc in Hr as [(d & kvs' & Hl & [= <-] & Hd') | (xs & js & _ & [=] & _)].
  pose proof (dict_get_reads_as h "description" d kvs Hd') as Hdescr.
  assert (is_opt_str (dict_get "description" d)
          /\ opt_str_of (dict_get "description" d)
             = text_of (dict_get "description" kvs)) as [Hd1 Hd2].
  { destruct (dict_get "description" kvs) as [j |].
    - destruct Hdescr as (v & -> & Rv). apply reads_as_text in Rv.
      destruct j; simpl in Hd; try contradiction; subst v; simpl; auto.
    - rewrite Hdescr. simpl. auto. }
  unfold plain_Response. rewrite <- Hd2. apply parse_response_without_hits; assumption.
Qed.

(** C10, as amended.  A response entry that is a mapping whose [description]
    is absent, [null] or a string, and that holds neither a pointer key nor a
    [type] key anywhere in its tree ([plain_entry]), is parsed without an
    error as soon as the search has gas for every value of the tree: the
    [Response] is returned, its [return_schema] has [type] and [items] both
    [None], and the store is as it was.  A mapping all of whose entries are
    of that kind makes [__parse_responses] return one such [Response] per
    entry, in the order of the mapping, without writing to the store. *)
Theorem response_without_pointer_or_type (self : SwaggerProcessor) (gas depth : nat) :
  (forall (http_code : string) (response_data : val) (entry : json) (h : store),
      reads_as h response_data entry ->
      plain_entry gas entry ->
      parse_response self gas depth http_code response_data h =
        Done (plain_Response http_code entry, h))
  /\ (forall (responses_data : val) (entries : list (string * json)) (h : store),
        reads_as h responses_data (JDict entries) ->
        Forall (fun e => plain_entry gas (snd e)) entries ->
        parse_responses self gas depth responses_data h =
          Done (map (fun e => plain_Response (fst e) (snd e)) entries, h)).
Proof.
  assert (Hone : forall http_code response_data entry h,
             reads_as h response_data entry ->
             plain_entry gas entry ->
             parse_response self gas depth http_code response_data h =
               Done (plain_Response http_code entry, h)).
  { intros http_code response_data entry h Hr (kvs & -> & Hd & Href & Htype & Hgas).
    apply parse_response_plain; assumption. }
  split; [exact Hone |].
  intros responses_data entries h Hr Hall.
  destruct responses_data as [| | | | l];
    try (destruct (reads_as_scalar h _ _ Hr eq_refl) as [[=] _]).
  apply reads_as_loc in Hr as [(d & kvs' & Hl & [= <-] & Hd) | (xs & js & _ & [=] & _)].
  unfold parse_responses, for_items. simpl. rewrite Hl.
  rewrite (for_items_from_collect _ l d h
             (map (fun e => plain_Response (fst e) (snd e)) entries) Hl);
    [reflexivity | | lia].
  clear Hl. induction Hd as [| [k v] [k' j] d entries [Ek Hv] _ IH]; simpl.
  - constructor.
  - apply Forall_cons in Hall as [Hj Hall]. simpl in *. subst k'.
    constructor; [| exact (IH Hall)].
    intros acc. simpl. unfold bind. rewrite (Hone k v j h Hv Hj). reflexivity.
Qed.

Lemma response_without_pointer_or_type_witness :
  parse_response (processor_of pet_doc) 50 10 "204" (root_beside_pet plain_response)
    (store_beside_pet plain_response)
  = Done ({| Response_code := "204";
             Response_description := Some "done";
             Response_return_schema :=
               Some {| ResponseSchema_type := None; ResponseSchema_items := None |} |},
          store_beside_pet plain_response)
  /\ parse_responses (processor_of pet_doc) 50 10 (root_beside_pet plain_responses)
       (store_beside_pet plain_responses)
     = Done ([plain_Response "204" plain_response;
              plain_Response "default" (JDict [("description", JNull)])],
             store_beside_pet plain_responses).
Proof.
  split.
  - apply (proj1 (response_without_pointer_or_type (processor_of pet_doc) 50 10) "204"
             (root_beside_pet plain_response) plain_response).
    + exists 10. reflexivity.
    + eexists. split; [reflexivity |]. split; [exact I |].
      split; [reflexivity |]. split; [reflexivity |]. simpl. lia.
  - apply (proj2 (response_without_pointer_or_type (processor_of pet_doc) 50 10)
             (root_beside_pet plain_responses)
             [("204", plain_response); ("default", JDict [("description", JNull)])]).
    + exists 10. reflexivity.
    + repeat constructor;
        (eexists; split; [reflexivity |]; split; [exact I |];
         split; [reflexivity |]; split; [reflexivity |]; simpl; lia).
Defined.

(** C10 fails as stated.  In the mapping [{"204": "done"}] the entry is a
    string: neither search has a hit in it, and [__parse_responses] raises
    [AttributeError] at [response_data.get].  In [{"404": {"description":
    404}}] the entry is a mapping whose description is a number: neither
    search has a hit, and building the [Response] raises [ValidationError]. *)
Lemma response_without_hits_can_fail :
  (find_key_in_dict 50 (VStr "done") "$ref" (store_beside_pet text_responses)
   = Done (VNone, store_beside_pet text_responses)
   /\ find_key_in_dict 50 (VStr "done") "type" (store_beside_pet text_responses)
      = Done (VNone, store_beside_pet text_responses)
   /\ reads_as (store_beside_pet text_responses) (root_beside_pet text_responses)
        text_responses
   /\ parse_responses (processor_of pet_doc) 50 10 (root_beside_pet text_responses)
        (store_beside_pet text_responses) = Raise AttributeError)
  /\ (find_key_in_dict 50 (root_beside_pet coded_response) "$ref"
        (store_beside_pet coded_response)
      = Done (VNone, store_beside_pet coded_response)
      /\ find_key_in_dict 50 (root_beside_pet coded_response) "type"
           (store_beside_pet coded_response)
         = Done (VNone, store_beside_pet coded_response)
      /\ reads_as (store_beside_pet coded_responses) (root_beside_pet coded_responses)
           coded_responses
      /\ parse_responses (processor_of pet_doc) 50 10 (root_beside_pet coded_responses)
           (store_beside_pet coded_responses) = Raise ValidationError).
Proof.
  split; (split; [reflexivity |]; split; [reflexivity |];
          split; [exists 10; reflexivity | reflexivity]).
Qed.

(** ** Operations *)

(** [__parse_method] returns [None] for deprecated entries only. *)
Lemma parse_method_None (self : SwaggerProcessor) (gas depth : nat)
    method method_data method_url (h h' : store) :
  parse_method self gas depth method method_data method_url h = Done (None, h') ->
  exists d,
    deref h method_data = Some (ODict d)
    /\ truthy h (default (VBool false) (dict_get "deprecated" d)) = true.
Proof.
  unfold parse_method. intros H. inv_bind H.
  unfold py_get_default in E.
  destruct (deref h method_data) as [[d | xs] |]; try discriminate E.
  injection E as <- <-. exists d. split; [reflexivity |].
  inv_bind H. unfold truthy_m in E. injection E as <- <-.
  destruct (truthy h (default (VBool false) (dict_get "deprecated" d)));
    [reflexivity |].
  do 7 inv_bind H. discriminate H.
Qed.

(** C9.  Every [Method] of the catalog has one of the eight values of
    [Operation] as its verb.  A [Method] that [__parse_method] returns was
    built for one of the eight member names, and its verb is the matching
    value.  For any other verb string, building the [Method] raises
    [KeyError] whatever the rest of the entry holds, [__parse_method]
    returns no [Method], and for an entry that is not marked deprecated it
    ends with an exception (unless the gas runs out first). *)
Theorem verb_is_an_operation (self : SwaggerProcessor) (gas depth : nat)
    (method : string) (method_data : val) (method_url : string) (h : store) :
  (forall catalog h' m,
      parse_swagger self gas depth h = Done (catalog, h') ->
      In m catalog ->
      In (Operation_value (Method_type m)) Operation_values)
  /\ (forall m h',
      parse_method self gas depth method method_data method_url h = Done (Some m, h') ->
      In method Operation_names /\
      Operation_getitem method = Done (Method_type m) /\
      In (Operation_value (Method_type m)) Operation_values)
  /\ (~ In method Operation_names ->
      (forall params responses request_body,
          new_Method self method method_data method_url params responses request_body h
          = Raise KeyError)
      /\ (forall m h',
            parse_method self gas depth method method_data method_url h
            <> Done (Some m, h'))
      /\ (forall d,
            deref h method_data = Some (ODict d) ->
            truthy h (default (VBool false) (dict_get "deprecated" d)) = false ->
            parse_method self gas depth method method_data method_url h = OutOfGas
            \/ exists e,
                parse_method self gas depth method method_data method_url h
                = Raise e)).
Proof.
  split; [| split].
  - intros catalog h' m _ _. unfold Operation_values.
    destruct (Method_type m); simpl; pick.
  - intros m h' H. apply parse_method_type in H.
    destruct (Operation_getitem_Done _ _ H). auto.
  - intros Hn.
    assert (Hno : forall m h',
               parse_method self gas depth method method_data method_url h
               <> Done (Some m, h')).
    { intros m h' H. apply parse_method_type in H.
      rewrite Operation_getitem_unknown in H; auto. discriminate. }
    split; [| split; [exact Hno |]].
    + intros. unfold new_Method. apply bind_Raise. unfold lift.
      rewrite Operation_getitem_unknown; auto.
    + intros d Hd Hdep.
      destruct (parse_method self gas depth method method_data method_url h)
        as [[[m |] h'] | e |] eqn:E; [| | eauto | auto].
      * exfalso. exact (Hno m h' eq_refl).
      * apply parse_method_None in E as (d0 & Hd0 & Hdep0). congruence.
Qed.

Lemma verb_is_an_operation_witness :
  new_Method (processor_of pet_doc) "fetch" (root_beside_pet bare_operation) "/ping"
    None None None (store_beside_pet bare_operation) = Raise KeyError
  /\ parse_method (processor_of pet_doc) 50 10 "fetch" (root_beside_pet bare_operation)
       "/ping" (store_beside_pet bare_operation) = Raise KeyError.
Proof.
  split; [| reflexivity].
  refine (proj1 (proj2 (proj2 (verb_is_an_operation (processor_of pet_doc) 50 10
                                 "fetch" (root_beside_pet bare_operation) "/ping"
                                 (store_beside_pet bare_operation))) _)
            None None None).
  unfold Operation_names. simpl. intros H.
  repeat (destruct H as [H | H]; [discriminate H |]). exact H.
Defined.

(** The [Method] keeps the lists of parameters and responses it is given,
    empty or not. *)
Lemma new_Method_keeps_lists (self : SwaggerProcessor) method method_data method_url
    params responses request_body (h : store) (m : Method) (h' : store) :
  new_Method self method method_data method_url params responses request_body h
  = Done (m, h') ->
  Method_parameters m = params /\ Method_responses m = responses.
Proof.
  unfold new_Method. intros H.
  do 7 inv_bind H.
  unfold ret in H. injection H as <- _. simpl.
  split; [destruct params | destruct responses]; reflexivity.
Qed.

(** ** The [paths] entry *)

(** Without [paths] (or with [paths: null]) the assertion fails. *)
Lemma missing_paths_is_fatal (self : SwaggerProcessor) (gas depth : nat)
    (h : store) (d : list (string * val)) :
  deref h (swagger_json_data self) = Some (ODict d) ->
  default VNone (dict_get "paths" d) = VNone ->
  parse_swagger self gas depth h = Raise AssertionError.
Proof.
  intros Hroot Hpaths. unfold parse_swagger, bind, py_get, py_get_default.
  rewrite Hroot, Hpaths. reflexivity.
Qed.

(** With an empty mapping as [paths] it passes, and nothing is parsed. *)
Lemma empty_paths_parses_nothing (self : SwaggerProcessor) (gas depth : nat)
    (h : store) (d : list (string * val)) (l : loc) :
  deref h (swagger_json_data self) = Some (ODict d) ->
  dict_get "paths" d = Some (VLoc l) ->
  h !! l = Some (ODict []) ->
  parse_swagger self gas depth h = Done ([], h).
Proof.
  intros Hroot Hpaths Hl.
  unfold parse_swagger, bind, py_get, py_get_default.
  rewrite Hroot, Hpaths. simpl.
  unfold parse_endpoints, bind, py_len, for_items. simpl.
  repeat (rewrite Hl; simpl). reflexivity.
Qed.

End CoreTheory.

(** * What the first variant writes *)

Module CoreFrame.
Import Core CoreTheory.

(** ** Computations that keep an invariant of the store *)

Section Keeps.
Variable I : store -> Prop.

Lemma keeps_bind {A B} (m : M A) (k : A -> M B) (Q : A -> Prop) (R : B -> Prop) :
  keeps I m Q -> (forall a, Q a -> keeps I (k a) R) -> keeps I (bind m k) R.
Proof.
  intros Hm Hk h b h' HI Hrun.
  apply bind_Done in Hrun as (a & h1 & Hm1 & Hk1).
  destruct (Hm _ _ _ HI Hm1) as [HI1 HQ].
  exact (Hk a HQ h1 b h' HI1 Hk1).
Qed.

Lemma keeps_weaken {A} (m : M A) (Q Q' : A -> Prop) :
  keeps I m Q -> (forall a, Q a -> Q' a) -> keeps I m Q'.
Proof. intros Hm HQ h a h' HI Hrun. destruct (Hm _ _ _ HI Hrun). auto. Qed.

Lemma keeps_any {A} (m : M A) (Q : A -> Prop) : keeps I m Q -> keeps I m (fun _ => True).
Proof. intros H. eapply keeps_weaken; [exact H | auto]. Qed.

Lemma keeps_ret {A} (a : A) : keeps I (ret a) (fun x => x = a).
Proof. intros h x h' HI Hrun. unfold ret in Hrun. injection Hrun as <- <-. auto. Qed.

(** A computation that never returns keeps everything. *)
Lemma keeps_never {A} (m : M A) (Q : A -> Prop) :
  (forall h a h', m h <> Done (a, h')) -> keeps I m Q.
Proof. intros Hm h a h' _ Hrun. destruct (Hm _ _ _ Hrun). Qed.

(** So does one that only reads; [R] is what it has read. *)
Lemma keeps_read {A} (m : M A) (R : store -> A -> Prop) :
  (forall h a h', m h = Done (a, h') -> h' = h /\ R h a) ->
  keeps I m (fun a => exists h, I h /\ R h a).
Proof. intros Hm h a h' HI Hrun. destruct (Hm _ _ _ Hrun) as [-> HR]. eauto. Qed.

Lemma keeps_reader {A} (m : M A) :
  (forall h a h', m h = Done (a, h') -> h' = h) -> keeps I m (fun _ => True).
Proof. intros Hm h a h' HI Hrun. apply Hm in Hrun as ->. auto. Qed.

Ltac reads :=
  apply keeps_reader; intros h a h';
  repeat match goal with
         | |- context [match ?x with _ => _ end] => destruct x
         end;
  congruence.

Lemma keeps_raise {A} (e : exn) (Q : A -> Prop) : keeps I (raise e) Q.
Proof. apply keeps_never. discriminate. Qed.

Lemma keeps_out_of_gas {A} (Q : A -> Prop) : keeps I out_of_gas Q.
Proof. apply keeps_never. discriminate. Qed.

Lemma keeps_truthy (v : val) : keeps I (truthy_m v) (fun _ => True).
Proof. unfold truthy_m. reads. Qed.

(** [v.get(k, dflt)] returns what the dict [v] holds in a store that
    satisfies [I]. *)
Lemma keeps_get_default (v : val) (k : string) (dflt : val) :
  keeps I (py_get_default v k dflt)
    (fun a => exists h d,
         I h /\ deref h v = Some (ODict d) /\ a = default dflt (dict_get k d)).
Proof.
  intros h a h' HI Hrun. unfold py_get_default in Hrun.
  destruct (deref h v) as [[d | xs] |] eqn:E; try discriminate.
  injection Hrun as <- <-. eauto 6.
Qed.

Lemma keeps_get (v : val) (k : string) :
  keeps I (py_get v k)
    (fun a => exists h d,
         I h /\ deref h v = Some (ODict d) /\ a = default VNone (dict_get k d)).
Proof. apply keeps_get_default. Qed.

Lemma keeps_get_default_any (v : val) (k : string) (dflt : val) :
  keeps I (py_get_default v k dflt) (fun _ => True).
Proof. eapply keeps_any, keeps_get_default. Qed.

Lemma keeps_get_any (v : val) (k : string) : keeps I (py_get v k) (fun _ => True).
Proof. eapply keeps_any, keeps_get. Qed.

Lemma keeps_get_opt (v : val) (k : string) : keeps I (py_get_opt v k) (fun _ => True).
Proof. unfold py_get_opt, deref. reads. Qed.

Lemma keeps_getitem (v : val) (k : string) : keeps I (py_getitem v k) (fun _ => True).
Proof. unfold py_getitem, deref. reads. Qed.

Lemma keeps_contains (k : string) (v : val) : keeps I (py_contains k v) (fun _ => True).
Proof. unfold py_contains. reads. Qed.

Lemma keeps_iter (v : val) : keeps I (py_iter v) (fun _ => True).
Proof. unfold py_iter. reads. Qed.

Lemma keeps_len (v : val) : keeps I (py_len v) (fun _ => True).
Proof. unfold py_len. reads. Qed.

Lemma keeps_lift {A} (o : outcome A) : keeps I (lift o) (fun _ => True).
Proof. unfold lift. reads. Qed.

Lemma keeps_nth_part (parts : list string) (i : nat) :
  keeps I (nth_part parts i) (fun _ => True).
Proof. unfold nth_part, ret, raise. reads. Qed.

Lemma keeps_find_key (gas : nat) (v : val) (k : string) :
  keeps I (find_key_in_dict gas v k) (fun _ => True).
Proof. unfold find_key_in_dict. reads. Qed.

Lemma keeps_as_str (v : val) : keeps I (as_str v) (fun _ => True).
Proof. unfold as_str, ret, raise. reads. Qed.
Lemma keeps_as_opt_str (v : val) : keeps I (as_opt_str v) (fun _ => True).
Proof. unfold as_opt_str, ret, raise. reads. Qed.
Lemma keeps_as_opt_int (v : val) : keeps I (as_opt_int v) (fun _ => True).
Proof. unfold as_opt_int, ret, raise. reads. Qed.
Lemma keeps_as_bool (v : val) : keeps I (as_bool v) (fun _ => True).
Proof. unfold as_bool, ret, raise. reads. Qed.
Lemma keeps_as_dict (v : val) : keeps I (as_dict v) (fun _ => True).
Proof. unfold as_dict. reads. Qed.
Lemma keeps_as_list_str (v : val) : keeps I (as_list_str v) (fun _ => True).
Proof. unfold as_list_str, deref. reads. Qed.

(** The two statements that write. *)
Lemma keeps_delitem (v : val) (u : string) :
  (forall h l d,
      I h -> v = VLoc l -> h !! l = Some (ODict d) -> dict_mem u d = true ->
      I (<[l := ODict (dict_del u d)]> h)) ->
  keeps I (py_delitem v u) (fun _ => True).
Proof.
  intros Hw h a h' HI Hrun. unfold py_delitem in Hrun.
  destruct v; try discriminate.
  destruct (h !! l) as [[d | xs] |] eqn:E; try discriminate.
  destruct (dict_mem u d) eqn:Eu; try discriminate.
  injection Hrun as _ <-. eauto.
Qed.

Lemma keeps_setitem (v : val) (k : string) (x : val) :
  (forall h l d,
      I h -> v = VLoc l -> h !! l = Some (ODict d) ->
      I (<[l := ODict (dict_set k x d)]> h)) ->
  keeps I (py_setitem v k x) (fun _ => True).
Proof.
  intros Hw h a h' HI Hrun. unfold py_setitem in Hrun.
  destruct v; try discriminate.
  destruct (h !! l) as [[d | xs] |] eqn:E; try discriminate.
  injection Hrun as _ <-. eauto.
Qed.

(** The loop over the items of a dict: the body is run on an entry of the
    dict as it is in a store that satisfies [I]. *)
Lemma keeps_for_items_from {A} (body : string -> val -> A -> M A) (l : loc) (len : nat) :
  (forall k v acc,
      (exists h d i, I h /\ h !! l = Some (ODict d) /\ d !! i = Some (k, v)) ->
      keeps I (body k v acc) (fun _ => True)) ->
  forall todo i acc, keeps I (for_items_from body l len i todo acc) (fun _ => True).
Proof.
  intros Hbody. induction todo as [| t IH]; intros i acc h a h' HI Hrun;
    simpl in Hrun;
    destruct (h !! l) as [[d | xs] |] eqn:El; try discriminate;
    destruct (Nat.eqb (length d) len); try discriminate.
  - injection Hrun as _ <-. auto.
  - destruct (d !! i) as [[k v] |] eqn:Ei.
    + refine (keeps_bind _ _ (fun _ => True) (fun _ => True) _ _ h a h' HI Hrun).
      * apply Hbody. eauto 7.
      * intros acc' _. apply IH.
    + injection Hrun as _ <-. auto.
Qed.

Lemma keeps_for_items {A} (d : val) (acc : A) (body : string -> val -> A -> M A) :
  (forall l k v acc,
      d = VLoc l ->
      (exists h dd i, I h /\ h !! l = Some (ODict dd) /\ dd !! i = Some (k, v)) ->
      keeps I (body k v acc) (fun _ => True)) ->
  keeps I (for_items d acc body) (fun _ => True).
Proof.
  intros Hbody h a h' HI Hrun. unfold for_items in Hrun.
  destruct (deref h d) as [[kvs | xs] |]; try discriminate.
  destruct d; try discriminate.
  refine (keeps_for_items_from body l (length kvs) _ _ _ _ h a h' HI Hrun).
  intros k v acc0. apply Hbody. reflexivity.
Qed.

Lemma keeps_for_items_any {A} (d : val) (acc : A) (body : string -> val -> A -> M A) :
  (forall k v acc, keeps I (body k v acc) (fun _ => True)) ->
  keeps I (for_items d acc body) (fun _ => True).
Proof. intros Hbody. apply keeps_for_items. intros l k v acc0 _ _. apply Hbody. Qed.

End Keeps.

Create HintDb keeps.
#[export] Hint Resolve keeps_truthy keeps_get_default_any keeps_get_any keeps_get_opt
  keeps_getitem keeps_contains keeps_iter keeps_len keeps_lift keeps_nth_part
  keeps_find_key keeps_as_str keeps_as_opt_str keeps_as_opt_int keeps_as_bool
  keeps_as_dict keeps_as_list_str : keeps.
#[export] Hint Extern 1 (keeps _ (ret _) (fun _ => True)) =>
  eapply keeps_any, keeps_ret : keeps.
#[export] Hint Extern 1 (keeps _ (raise _) _) => apply keeps_raise : keeps.
#[export] Hint Extern 1 (keeps _ out_of_gas _) => apply keeps_out_of_gas : keeps.

(** Walks down a computation whose result does not matter. *)
Ltac kp :=
  lazymatch goal with
  | |- keeps _ (bind _ _) _ =>
      eapply (keeps_bind _ _ _ (fun _ => True)); [kp | intros ? _; kp]
  | |- keeps _ (for_items _ _ _) _ =>
      apply keeps_for_items_any; intros ? ? ?; kp
  | |- keeps _ (if ?c then _ else _) _ => destruct c; kp
  | |- keeps _ (match ?x with _ => _ end) _ => destruct x; kp
  | |- _ => eauto with keeps
  end.
Ltac kp_bind :=
  eapply (keeps_bind _ _ _ (fun _ => True)); [solve [kp] | intros ? _].

Lemma keeps_as_opt_dict (I : store -> Prop) (v : val) :
  keeps I (as_opt_dict v) (fun _ => True).
Proof. unfold as_opt_dict. kp. Qed.
Lemma keeps_as_str_or_dict (I : store -> Prop) (v : val) :
  keeps I (as_str_or_dict v) (fun _ => True).
Proof. unfold as_str_or_dict. kp. Qed.
#[export] Hint Resolve keeps_as_opt_dict keeps_as_str_or_dict : keeps.
Lemma keeps_as_opt_str_or_dict (I : store -> Prop) (v : val) :
  keeps I (as_opt_str_or_dict v) (fun _ => True).
Proof. unfold as_opt_str_or_dict. kp. Qed.
Lemma keeps_as_opt_list_str (I : store -> Prop) (v : val) :
  keeps I (as_opt_list_str v) (fun _ => True).
Proof. unfold as_opt_list_str. kp. Qed.
#[export] Hint Resolve keeps_as_opt_str_or_dict keeps_as_opt_list_str : keeps.

(** ** Resolution keeps what its four writes keep *)

(** The end of [__parse_ref] for a schema without [properties], after the
    schema has been chosen. *)
Ltac keeps_items IH Hitems :=
  let h0 := fresh "h0" in
  let d0 := fresh "d0" in
  let Ih0 := fresh "Ih0" in
  let Hd0 := fresh "Hd0" in
  let Harr := fresh "Harr" in
  eapply keeps_bind; [apply keeps_get | intros ? (h0 & d0 & Ih0 & Hd0 & ->)];
  eapply (keeps_bind _ _ _ (fun _ => True));
    [| intros _ _; apply keeps_ret];
  lazymatch goal with
  | |- keeps _ (if ?c then _ else _) _ => destruct c eqn:Harr
  end; [| kp];
  do 2 kp_bind;
  lazymatch goal with
  | |- keeps _ (if ?c then _ else _) _ => destruct c
  end; [| kp];
  eapply (keeps_bind _ _ _ (fun _ => True)); [apply IH | intros ? _];
  apply keeps_setitem; intros ? ? ? ? -> ?;
  simpl in Hd0; eapply (Hitems h0 _ _ d0 _ _ Ih0 Hd0 Harr); eassumption.

(** The end of [__parse_ref] for a schema with [properties]; [Hp] is what
    [schema.get("properties")] has read. *)
Ltac keeps_properties IH Hprops Hover Hp :=
  let h0 := fresh "h0" in
  let d0 := fresh "d0" in
  let Ih0 := fresh "Ih0" in
  let Hd0 := fresh "Hd0" in
  let Ep := fresh "Ep" in
  let lp := fresh "lp" in
  let h1 := fresh "h1" in
  let d1 := fresh "d1" in
  let i := fresh "i" in
  let Ih1 := fresh "Ih1" in
  let Hd1 := fresh "Hd1" in
  let Hi := fresh "Hi" in
  let lv := fresh "lv" in
  let k := fresh "k" in
  let Hset := fresh "Hset" in
  destruct Hp as (h0 & d0 & Ih0 & Hd0 & Ep);
  lazymatch goal with
  | |- keeps _ (bind (for_items ?p _ _) _) _ => destruct p as [| | | | lp]
  end;
  try (apply keeps_never; intros ? ? ?; unfold bind, for_items; simpl; discriminate);
  eapply (keeps_bind _ _ _ (fun _ => True));
  [ apply keeps_for_items; intros ? k [| | | | lv] ? [= <-] (h1 & d1 & i & Ih1 & Hd1 & Hi);
    try (apply keeps_never; intros ? ? ?;
         unfold bind, py_get, py_get_default; simpl; discriminate);
    lazymatch goal with
    | |- keeps ?I _ _ =>
        assert (Hset : forall item, keeps I (py_setitem (VLoc lp) k item) (fun _ => True))
          by (intros ?; apply keeps_setitem; intros ? ? ? ? [= <-] ?;
              eapply (Hover h1 _ _ d1 _ i k lv _ Ih1 Hd1 Hi); eassumption)
    end;
    kp
  | intros _ _;
    eapply (keeps_bind _ _ _ (fun _ => True));
    [ apply keeps_setitem; intros ? ? ? ? -> ?; simpl in Hd0;
      eapply (Hprops h0 _ _ d0 _ lp Ih0 Hd0); [| eassumption | eassumption];
      destruct (dict_get "properties" d0); simpl in Ep; congruence
    | intros _ _; apply keeps_ret ] ].

Section KeepsParseRef.
Variable self : SwaggerProcessor.
Variable gas : nat.
Variable I : store -> Prop.
Hypothesis HI : write_closed (schema_useless_keys self) I.

Lemma keeps_delete_useless (ukeys : list string) (schema : val) :
  (forall u, In u ukeys -> In u (schema_useless_keys self)) ->
  keeps I (delete_useless ukeys schema) (fun _ => True).
Proof.
  destruct HI as (Hdel & _).
  induction ukeys as [| u r IH]; intros Hin; simpl; [kp |].
  kp_bind.
  eapply (keeps_bind _ _ _ (fun _ => True)).
  - lazymatch goal with |- keeps _ (if ?c then _ else _) _ => destruct c end; [| kp].
    apply keeps_delitem. intros h l d Ih -> Hl Hu.
    apply Hdel; auto. apply Hin. left. reflexivity.
  - intros _ _. apply IH. intros u' Hu'. apply Hin. right. exact Hu'.
Qed.

Lemma keeps_parse_ref (depth : nat) :
  forall ref_path, keeps I (parse_ref self gas depth ref_path) (fun _ => True).
Proof.
  induction depth as [| depth IH]; intros ref_path; simpl.
  - apply keeps_out_of_gas.
  - do 7 kp_bind.
    eapply (keeps_bind _ _ _ (fun _ => True));
      [apply keeps_delete_useless; auto | intros _ _].
    eapply keeps_bind; [apply keeps_get | intros properties Hprops].
    destruct (is_none properties) eqn:Hnone.
    + do 2 kp_bind.
      eapply (keeps_bind _ _ _ (fun _ => True)).
      { lazymatch goal with
        | |- keeps _ (if ?c then _ else _) _ => destruct c
        end; [| kp].
        kp_bind.
        lazymatch goal with
        | |- keeps _ (if ?c then _ else _) _ => destruct c
        end; [apply IH | kp]. }
      intros schema' _. eapply keeps_any. destruct HI as (_ & Hitems & _). keeps_items IH Hitems.
    + eapply keeps_any. destruct HI as (_ & _ & Hprops' & Hover).
      keeps_properties IH Hprops' Hover Hprops.
Qed.

#[local] Hint Resolve keeps_parse_ref : keeps.

Lemma keeps_parse_parameter (depth : nat) (param : val) :
  keeps I (parse_parameter self gas depth param) (fun _ => True).
Proof. unfold parse_parameter, get_with_schema_fallback. cbv zeta. kp. Qed.

Lemma keeps_parse_parameters_loop (depth : nat) :
  forall params acc,
    keeps I (parse_parameters_loop self gas depth params acc) (fun _ => True).
Proof.
  induction params as [| p r IH]; intros acc; simpl; [kp |].
  eapply (keeps_bind _ _ _ (fun _ => True));
    [apply keeps_parse_parameter | intros ? _; apply IH].
Qed.

Lemma keeps_parse_parameters (depth : nat) (params_data : val) :
  keeps I (parse_parameters self gas depth params_data) (fun _ => True).
Proof.
  unfold parse_parameters. kp_bind. apply keeps_parse_parameters_loop.
Qed.

Lemma keeps_parse_response (depth : nat) (http_code : string) (response_data : val) :
  keeps I (parse_response self gas depth http_code response_data) (fun _ => True).
Proof. unfold parse_response. kp. Qed.

Lemma keeps_parse_responses (depth : nat) (responses_data : val) :
  keeps I (parse_responses self gas depth responses_data) (fun _ => True).
Proof. pose proof keeps_parse_response. unfold parse_responses. kp. Qed.

Lemma keeps_parse_request_body (depth : nat) (request_body_data : val) :
  keeps I (parse_request_body self gas depth request_body_data) (fun _ => True).
Proof. unfold parse_request_body. kp. Qed.

#[local] Hint Resolve keeps_parse_parameters keeps_parse_responses
  keeps_parse_request_body : keeps.

Lemma keeps_parse_method (depth : nat) (method : string) (method_data : val)
    (method_url : string) :
  keeps I (parse_method self gas depth method method_data method_url) (fun _ => True).
Proof.
  unfold parse_method, new_Method, get_formats. cbv zeta. kp.
Qed.

#[local] Hint Resolve keeps_parse_method : keeps.

Lemma keeps_parse_swagger (depth : nat) :
  keeps I (parse_swagger self gas depth) (fun _ => True).
Proof. unfold parse_swagger, parse_endpoints. kp. Qed.

End KeepsParseRef.

(** ** Invariants that the four writes keep *)

Lemma dict_get_set_other {A} (k k' : string) (x : A) (d : list (string * A)) :
  k' <> k -> dict_get k (dict_set k' x d) = dict_get k d.
Proof.
  intros Hne. induction d as [| [k1 v1] r IH]; simpl.
  - destruct (String.eqb_spec k' k); [congruence | reflexivity].
  - destruct (String.eqb_spec k1 k') as [-> | _]; simpl.
    + destruct (String.eqb_spec k' k); [congruence | reflexivity].
    + destruct (String.eqb k1 k); [reflexivity | exact IH].
Qed.

Lemma dict_get_del_other {A} (k k' : string) (d : list (string * A)) :
  k' <> k -> dict_get k (dict_del k' d) = dict_get k d.
Proof.
  intros Hne. induction d as [| [k1 v1] r IH]; simpl; [reflexivity |].
  destruct (String.eqb_spec k1 k') as [-> | _]; simpl.
  - destruct (String.eqb_spec k' k); [congruence | reflexivity].
  - destruct (String.eqb k1 k); [reflexivity | exact IH].
Qed.

Lemma dict_get_del_absent {A} (k k' : string) (d : list (string * A)) :
  dict_get k d = None -> dict_get k (dict_del k' d) = None.
Proof.
  induction d as [| [k1 v1] r IH]; simpl; [reflexivity |].
  destruct (String.eqb k1 k) eqn:E; [discriminate |]. intros H.
  destruct (String.eqb k1 k'); simpl; [exact H |]. rewrite E. auto.
Qed.

Lemma dict_get_In {A} (k : string) (d : list (string * A)) :
  In k (map fst d) <-> dict_get k d <> None.
Proof.
  induction d as [| [k1 v1] r IH]; simpl; [tauto |].
  destruct (String.eqb_spec k1 k) as [-> | Hne].
  - split; [discriminate | auto].
  - rewrite <- IH. split; [intros [? | ?]; [congruence | assumption] | auto].
Qed.

Lemma dict_lookup_In {A} (d : list (string * A)) (i : nat) (k : string) (v : A) :
  d !! i = Some (k, v) -> In k (map fst d).
Proof.
  intros H. apply in_map_iff. exists (k, v). split; [reflexivity |].
  apply list_elem_of_In. eapply list_elem_of_lookup_2. exact H.
Qed.

Lemma dict_set_keys {A} (k : string) (x : A) (d : list (string * A)) :
  In k (map fst d) -> map fst (dict_set k x d) = map fst d.
Proof.
  induction d as [| [k1 v1] r IH]; simpl; [intros [] |].
  destruct (String.eqb_spec k1 k) as [-> | Hne]; [reflexivity |].
  intros [? | H]; [congruence |]. simpl. rewrite (IH H). reflexivity.
Qed.

Lemma dict_set_keys_new {A} (k : string) (x : A) (d : list (string * A)) :
  ~ In k (map fst d) -> map fst (dict_set k x d) = map fst d ++ [k].
Proof.
  induction d as [| [k1 v1] r IH]; simpl; [reflexivity |].
  destruct (String.eqb_spec k1 k) as [-> | Hne]; [tauto |].
  intros H. simpl. rewrite IH; tauto.
Qed.

Lemma dict_set_unique {A} (k : string) (x : A) (d : list (string * A)) :
  NoDup (map fst d) -> NoDup (map fst (dict_set k x d)).
Proof.
  intros Hd. destruct (in_dec String.string_dec k (map fst d)) as [Hin | Hout].
  - rewrite dict_set_keys; assumption.
  - rewrite dict_set_keys_new by assumption.
    apply NoDup_app. split; [assumption |]. split.
    + intros k' Hk' Hk. apply list_elem_of_In in Hk', Hk. simpl in Hk.
      destruct Hk as [<- | []]. contradiction.
    + apply NoDup_singleton.
Qed.

Lemma dict_del_keys_sub {A} (k k' : string) (d : list (string * A)) :
  In k' (map fst (dict_del k d)) -> In k' (map fst d).
Proof.
  induction d as [| [k1 v] r IH]; simpl; [auto |].
  destruct (String.eqb k1 k); simpl; [auto |]. intros [-> | H]; auto.
Qed.

Lemma dict_del_unique {A} (k : string) (d : list (string * A)) :
  NoDup (map fst d) -> NoDup (map fst (dict_del k d)).
Proof.
  induction d as [| [k1 v] r IH]; simpl; [auto |]. intros H.
  apply NoDup_cons in H as [Hk1 Hr].
  destruct (String.eqb k1 k); [exact Hr |]. simpl.
  apply NoDup_cons. split; [| auto].
  rewrite list_elem_of_In in *. intros Hin. apply Hk1. eauto using dict_del_keys_sub.
Qed.

Lemma dict_get_del_self {A} (k : string) (d : list (string * A)) :
  NoDup (map fst d) -> dict_get k (dict_del k d) = None.
Proof.
  induction d as [| [k1 v] r IH]; simpl; [reflexivity |]. intros H.
  apply NoDup_cons in H as [Hk1 Hr]. rewrite list_elem_of_In in Hk1.
  destruct (String.eqb_spec k1 k) as [-> | Hne]; simpl.
  - destruct (dict_get k r) eqn:E; [| reflexivity].
    exfalso. apply Hk1. apply dict_get_In. congruence.
  - destruct (String.eqb_spec k1 k) as [-> | _]; [congruence | auto].
Qed.

Lemma dict_get_unique {A} (d : list (string * A)) (i : nat) (k : string) (v : A) :
  NoDup (map fst d) -> d !! i = Some (k, v) -> dict_get k d = Some v.
Proof.
  revert i. induction d as [| [k1 v1] r IH]; intros i Hd Hi; [discriminate |].
  simpl in Hd. apply NoDup_cons in Hd as [Hk1 Hr]. rewrite list_elem_of_In in Hk1.
  destruct i as [| i]; simpl in *.
  - injection Hi as -> ->. rewrite String.eqb_refl. reflexivity.
  - destruct (String.eqb_spec k1 k) as [-> | _]; [| eauto].
    exfalso. apply Hk1. eapply dict_lookup_In. exact Hi.
Qed.

Lemma write_closed_and (ukeys : list string) (I J : store -> Prop) :
  write_closed ukeys I -> write_closed ukeys J ->
  write_closed ukeys (fun h => I h /\ J h).
Proof.
  intros (I1 & I2 & I3 & I4) (J1 & J2 & J3 & J4).
  split; [| split; [| split]].
  - intros h l d u [Hi Hj] Hl Hu Hm. split; [eapply I1 | eapply J1]; eassumption.
  - intros h0 h l d0 d x [Hi0 Hj0] Hl0 Hty [Hi Hj] Hl.
    split; [exact (I2 h0 h l d0 d x Hi0 Hl0 Hty Hi Hl)
           | exact (J2 h0 h l d0 d x Hj0 Hl0 Hty Hj Hl)].
  - intros h0 h l d0 d lp [Hi0 Hj0] Hl0 Hp [Hi Hj] Hl.
    split; [exact (I3 h0 h l d0 d lp Hi0 Hl0 Hp Hi Hl)
           | exact (J3 h0 h l d0 d lp Hj0 Hl0 Hp Hj Hl)].
  - intros h0 h l d0 d i k lv x [Hi0 Hj0] Hl0 Hk [Hi Hj] Hl.
    split; [exact (I4 h0 h l d0 d i k lv x Hi0 Hl0 Hk Hi Hl)
           | exact (J4 h0 h l d0 d i k lv x Hj0 Hl0 Hk Hj Hl)].
Qed.

Lemma lookup_insert_dict (h : store) (l l' : loc) (d d' d1 : list (string * val)) :
  h !! l' = Some (ODict d) -> <[l' := ODict d']> h !! l = Some (ODict d1) ->
  (l = l' /\ d1 = d') \/ (l <> l' /\ h !! l = Some (ODict d1)).
Proof.
  intros Hl' H. destruct (decide (l' = l)) as [-> | Hne].
  - rewrite list_lookup_insert_eq in H by (eapply lookup_lt_Some; exact Hl').
    injection H as <-. auto.
  - rewrite list_lookup_insert_ne in H by assumption. auto.
Qed.

Lemma write_closed_unique_keys (ukeys : list string) : write_closed ukeys unique_keys.
Proof.
  assert (Hins : forall (h : store) l d d',
             unique_keys h -> h !! l = Some (ODict d) ->
             (NoDup (map fst d) -> NoDup (map fst d')) ->
             unique_keys (<[l := ODict d']> h)).
  { intros h l d d' Hu Hl Hd l1 d1 H1.
    destruct (lookup_insert_dict _ _ _ _ _ _ Hl H1) as [[-> ->] | [_ H]]; eauto. }
  split; [| split; [| split]]; intros; eapply Hins;
    eauto using dict_del_unique, dict_set_unique.
Qed.

(** A schema that has lost its denylisted keys does not get them back. *)
Lemma write_closed_top_clean (ukeys : list string) (v : val) :
  write_closed ukeys (top_clean ukeys v).
Proof.
  assert (Hins : forall (h : store) l d d',
             top_clean ukeys v h -> h !! l = Some (ODict d) ->
             (v = VLoc l ->
              forall u, In u ukeys -> u <> "items" ->
                        dict_get u d = None -> dict_get u d' = None) ->
             top_clean ukeys v (<[l := ODict d']> h)).
  { intros h l d d' Hc Hl Hd l1 d1 -> H1 u Hu Hne.
    destruct (lookup_insert_dict _ _ _ _ _ _ Hl H1) as [[-> ->] | [_ H]].
    - apply Hd; auto. eapply Hc; eauto.
    - eapply Hc; eauto. }
  split; [| split; [| split]].
  - intros h l d u Hc Hl Hu Hmem. apply (Hins h l d _ Hc Hl).
    intros _ u' _ _. apply dict_get_del_absent.
  - intros h0 h l d0 d x _ _ _ Hc Hl. apply (Hins h l d _ Hc Hl).
    intros _ u' _ Hne H. rewrite dict_get_set_other; auto.
  - intros h0 h l d0 d lp Hc0 Hl0 Hp Hc Hl. apply (Hins h l d _ Hc Hl).
    intros -> u' Hu Hne H. rewrite dict_get_set_other; [exact H |].
    intros <-. rewrite (Hc0 l d0 eq_refl Hl0 _ Hu Hne) in Hp. discriminate Hp.
  - intros h0 h l d0 d i k lv x Hc0 Hl0 Hk Hc Hl. apply (Hins h l d _ Hc Hl).
    intros -> u' Hu Hne H. rewrite dict_get_set_other; [exact H |].
    intros <-. apply dict_lookup_In, dict_get_In in Hk. apply Hk.
    exact (Hc0 l d0 eq_refl Hl0 _ Hu Hne).
Qed.

(** An invariant of the dict at one position. *)
Lemma write_closed_dict (ukeys : list string) (l : loc)
    (P : list (string * val) -> Prop) :
  (forall d u, P d -> In u ukeys -> dict_mem u d = true -> P (dict_del u d)) ->
  (forall d0 d x, P d0 ->
                  eq_str (default VNone (dict_get "type" d0)) "array" = true ->
                  P d -> P (dict_set "items" x d)) ->
  (forall d0 d lp, P d0 -> dict_get "properties" d0 = Some (VLoc lp) ->
                   P d -> P (dict_set "properties" (VLoc lp) d)) ->
  (forall d0 d i k lv x, P d0 -> d0 !! i = Some (k, VLoc lv) ->
                         P d -> P (dict_set k x d)) ->
  write_closed ukeys (fun h => exists d, h !! l = Some (ODict d) /\ P d).
Proof.
  intros Hdel Hitems Hprops Hover.
  assert (Hins : forall (h : store) l' d d',
             (exists d1, h !! l = Some (ODict d1) /\ P d1) ->
             h !! l' = Some (ODict d) ->
             (l' = l -> P d -> P d') ->
             exists d1, <[l' := ODict d']> h !! l = Some (ODict d1) /\ P d1).
  { intros h l' d d' (d1 & Hd1 & Pd1) Hl' Hw.
    destruct (decide (l' = l)) as [-> | Hne].
    - rewrite Hd1 in Hl'. injection Hl' as ->.
      exists d'. split; [| auto].
      apply list_lookup_insert_eq. eapply lookup_lt_Some. exact Hd1.
    - exists d1. split; [| exact Pd1]. rewrite list_lookup_insert_ne; assumption. }
  assert (Hat : forall (h : store) d,
             (exists d1, h !! l = Some (ODict d1) /\ P d1) -> h !! l = Some (ODict d) ->
             P d).
  { intros h d (d1 & Hd1 & Pd1) Hd. rewrite Hd1 in Hd. injection Hd as ->. exact Pd1. }
  split; [| split; [| split]].
  - intros h l' d u Ih Hl' Hu Hmem. apply (Hins h l' d _ Ih Hl'). intros -> Pd. eauto.
  - intros h0 h l' d0 d x Ih0 Hl0 Hty Ih Hl'. apply (Hins h l' d _ Ih Hl').
    intros -> Pd. eauto.
  - intros h0 h l' d0 d lp Ih0 Hl0 Hp Ih Hl'. apply (Hins h l' d _ Ih Hl').
    intros -> Pd. eauto.
  - intros h0 h l' d0 d i k lv x Ih0 Hl0 Hi Ih Hl'. apply (Hins h l' d _ Ih Hl').
    intros -> Pd. eauto.
Qed.

Lemma dict_mem_In {A} (k : string) (d : list (string * A)) :
  dict_mem k d = true -> In k (map fst d).
Proof.
  unfold dict_mem. intros H. apply dict_get_In. destruct (dict_get k d); congruence.
Qed.

(** A mapping whose keys are neither [type] nor denylisted keeps its keys. *)
Lemma write_closed_keys (ukeys : list string) (l : loc) (ks : list string) :
  (forall u, In u ukeys -> ~ In u ks) -> ~ In "type" ks ->
  write_closed ukeys (keys_are l ks).
Proof.
  intros Hu Hty. apply write_closed_dict.
  - intros d u <- Hin Hmem. destruct (Hu u Hin). apply dict_mem_In. exact Hmem.
  - intros d0 d x <- Harr _. destruct Hty. apply dict_get_In.
    destruct (dict_get "type" d0); [discriminate | discriminate Harr].
  - intros d0 d lp <- Hp Hd. rewrite dict_set_keys; [exact Hd |].
    rewrite Hd. apply dict_get_In. congruence.
  - intros d0 d i k lv x <- Hk Hd. rewrite dict_set_keys; [exact Hd |].
    rewrite Hd. eapply dict_lookup_In. exact Hk.
Qed.

(** An entry that holds a scalar under a key other than [items] and the
    denylisted keys is not written. *)
Lemma write_closed_entry (ukeys : list string) (l : loc) (k : string) (s : val) :
  is_container s = false -> ~ In k ukeys -> k <> "items" ->
  write_closed ukeys (entry_is l k s).
Proof.
  intros Hs Hk Hitems.
  apply (write_closed_dict ukeys l
           (fun d => NoDup (map fst d) /\ dict_get k d = Some s)).
  - intros d u [Hd Hg] Hin _. split; [apply dict_del_unique; exact Hd |].
    rewrite dict_get_del_other; [exact Hg | congruence].
  - intros d0 d x _ _ [Hd Hg]. split; [apply dict_set_unique; exact Hd |].
    rewrite dict_get_set_other; [exact Hg | congruence].
  - intros d0 d lp [_ Hg0] Hp [Hd Hg]. split; [apply dict_set_unique; exact Hd |].
    rewrite dict_get_set_other; [exact Hg |].
    intros <-. rewrite Hg0 in Hp. injection Hp as ->. discriminate Hs.
  - intros d0 d i k' lv x [Hd0 Hg0] Hk' [Hd Hg]. split; [apply dict_set_unique; exact Hd |].
    rewrite dict_get_set_other; [exact Hg |].
    intros ->. rewrite (dict_get_unique _ _ _ _ Hd0 Hk') in Hg0.
    injection Hg0 as <-. discriminate Hs.
Qed.

(** A key other than [items] that a mapping lacks is not added. *)
Lemma write_closed_absent (ukeys : list string) (l : loc) (u : string) :
  u <> "items" -> write_closed ukeys (entry_absent l u).
Proof.
  intros Hitems. apply (write_closed_dict ukeys l (fun d => dict_get u d = None)).
  - intros d u' Hg _ _. apply dict_get_del_absent. exact Hg.
  - intros d0 d x _ _ Hg. rewrite dict_get_set_other; [exact Hg | congruence].
  - intros d0 d lp Hg0 Hp Hg. rewrite dict_get_set_other; [exact Hg |].
    intros <-. congruence.
  - intros d0 d i k lv x Hg0 Hk Hg. rewrite dict_get_set_other; [exact Hg |].
    intros ->. apply dict_lookup_In, dict_get_In in Hk. contradiction.
Qed.

(** No list is written. *)
Lemma write_closed_list (ukeys : list string) (l : loc) (xs : list val) :
  write_closed ukeys (list_is l xs).
Proof.
  assert (Hins : forall (h : store) l' d d',
             list_is l xs h -> h !! l' = Some (ODict d) ->
             list_is l xs (<[l' := ODict d']> h)).
  { unfold list_is. intros h l' d d' Hl Hl'.
    rewrite list_lookup_insert_ne; [exact Hl | congruence]. }
  split; [| split; [| split]]; intros; eapply Hins; eassumption.
Qed.

(** ** Stores whose dicts have unique keys *)

Lemma distinct_NoDup (ks : list string) : distinct ks = true -> NoDup ks.
Proof.
  induction ks as [| k r IH]; simpl; [constructor |].
  intros H. apply andb_true_iff in H as [Hk Hr]. apply NoDup_cons. split; [| auto].
  intros Hin. apply list_elem_of_In in Hin.
  apply negb_true_iff in Hk. apply not_true_iff_false in Hk. apply Hk.
  apply existsb_exists. exists k. split; [exact Hin | apply String.eqb_refl].
Qed.

Lemma unique_keysb_ok (h : Core.store) : unique_keysb h = true -> unique_keys h.
Proof.
  unfold unique_keysb. intros H l d Hl.
  rewrite forallb_forall in H.
  specialize (H (Core.ODict d)). apply distinct_NoDup, H.
  apply list_elem_of_In. eapply list_elem_of_lookup_2. exact Hl.
Qed.

(** ** What [__parse_ref] returns has no denylisted key at its top level *)

Section Hoare.
Context {A B : Type}.

Lemma hoare_bind (P : store -> Prop) (m : M A) (k : A -> M B)
    (Q : A -> store -> Prop) (R : B -> store -> Prop) :
  hoare P m Q -> (forall a, hoare (Q a) (k a) R) -> hoare P (bind m k) R.
Proof.
  intros Hm Hk h b h' HP Hrun.
  apply bind_Done in Hrun as (a & h1 & Hm1 & Hk1).
  exact (Hk a h1 b h' (Hm _ _ _ HP Hm1) Hk1).
Qed.

Lemma hoare_keeps (I : store -> Prop) (m : M A) (Q : A -> Prop) :
  keeps I m Q -> hoare I m (fun a h' => I h' /\ Q a).
Proof. intros H h a h' HI Hrun. exact (H h a h' HI Hrun). Qed.

Lemma hoare_weaken (P P' : store -> Prop) (m : M A) (Q Q' : A -> store -> Prop) :
  hoare P m Q -> (forall h, P' h -> P h) -> (forall a h, Q a h -> Q' a h) ->
  hoare P' m Q'.
Proof. intros H HP HQ h a h' HP' Hrun. eauto. Qed.

Lemma hoare_fact (P : store -> Prop) (F : Prop) (m : M A) (Q : A -> store -> Prop) :
  (F -> hoare P m Q) -> hoare (fun h => P h /\ F) m Q.
Proof. intros H h a h' [HP HF] Hrun. exact (H HF h a h' HP Hrun). Qed.

End Hoare.

Section TopClean.
Variable self : SwaggerProcessor.
Variable gas : nat.

Lemma py_contains_Done (k : string) (v : val) (h h1 : store) (b : bool) :
  py_contains k v h = Done (b, h1) ->
  h1 = h /\ forall l d, v = VLoc l -> h !! l = Some (ODict d) -> b = dict_mem k d.
Proof.
  unfold py_contains. destruct v as [| | | | l0]; try discriminate.
  - intros [= <- <-]. split; [reflexivity | discriminate].
  - destruct (h !! l0) as [[d0 | xs] |] eqn:E0; try discriminate;
      intros [= <- <-]; split; try reflexivity; intros l d [= <-]; congruence.
Qed.

Lemma py_delitem_Done (v : val) (u : string) (h h2 : store) (x : unit) :
  py_delitem v u h = Done (x, h2) ->
  exists l d,
    v = VLoc l /\ h !! l = Some (ODict d) /\ dict_mem u d = true
    /\ h2 = <[l := ODict (dict_del u d)]> h.
Proof.
  unfold py_delitem. destruct v as [| | | | l0]; try discriminate.
  destruct (h !! l0) as [[d0 | xs] |] eqn:E0; try discriminate.
  destruct (dict_mem u d0) eqn:Em; try discriminate.
  intros [= <-]. eauto 6.
Qed.

(** After the loop over the denylist the schema has none of its keys. *)
Lemma delete_useless_absent (schema : val) :
  forall ukeys gone h h',
    unique_keys h ->
    (forall l d, schema = VLoc l -> h !! l = Some (ODict d) ->
                 forall u, In u gone -> dict_get u d = None) ->
    delete_useless ukeys schema h = Done (tt, h') ->
    unique_keys h'
    /\ (forall l d, schema = VLoc l -> h' !! l = Some (ODict d) ->
                    forall u, In u (gone ++ ukeys) -> dict_get u d = None).
Proof.
  induction ukeys as [| u r IH]; simpl; intros gone h h' Hu Hgone Hrun.
  - unfold ret in Hrun. injection Hrun as <-. rewrite app_nil_r. auto.
  - apply bind_Done in Hrun as (present & h1 & E1 & Hrun).
    apply bind_Done in Hrun as ([] & h2 & E2 & Hrun).
    apply py_contains_Done in E1 as [-> Hmem].
    replace (gone ++ u :: r) with ((gone ++ [u]) ++ r)
      by (rewrite <- app_assoc; reflexivity).
    apply (IH (gone ++ [u]) h2 h'); [| | exact Hrun]; destruct present.
    + apply py_delitem_Done in E2 as (l0 & d0 & -> & E0 & Em & ->).
      destruct (write_closed_unique_keys [u]) as (Hdel & _).
      apply (Hdel h l0 d0 u); auto. left. reflexivity.
    + unfold ret in E2. injection E2 as <-. exact Hu.
    + apply py_delitem_Done in E2 as (l0 & d0 & -> & E0 & Em & ->).
      intros l d [= <-] Hl u' Hu'.
      rewrite list_lookup_insert_eq in Hl by (eapply lookup_lt_Some; exact E0).
      injection Hl as <-.
      apply in_app_iff in Hu' as [Hu' | [<- | []]].
      * apply dict_get_del_absent. eauto.
      * apply dict_get_del_self. eauto.
    + unfold ret in E2. injection E2 as <-.
      intros l d -> Hl u' Hu'.
      apply in_app_iff in Hu' as [Hu' | [<- | []]]; [eauto |].
      specialize (Hmem l d eq_refl Hl). unfold dict_mem in Hmem.
      destruct (dict_get u d); [discriminate | reflexivity].
Qed.

(** What [__parse_ref] returns has no denylisted key at its top level, in
    a store whose dicts have unique keys. *)
Lemma parse_ref_top_clean (depth : nat) :
  forall ref_path,
    hoare unique_keys (parse_ref self gas depth ref_path)
      (fun v h' => unique_keys h' /\ top_clean (schema_useless_keys self) v h').
Proof.
  pose proof (write_closed_unique_keys (schema_useless_keys self)) as Wu.
  assert (W : forall v, write_closed (schema_useless_keys self)
                          (fun h => unique_keys h
                                    /\ top_clean (schema_useless_keys self) v h))
    by (intros v; apply write_closed_and;
        [exact Wu | apply write_closed_top_clean]).
  set (Is := fun v h => unique_keys h /\ top_clean (schema_useless_keys self) v h).
  assert (Hstep : forall {X Y} (I : store -> Prop) (m : M X) (k : X -> M Y) R,
             keeps I m (fun _ => True) ->
             (forall x, hoare I (k x) R) ->
             hoare I (bind m k) R).
  { intros X Y I m k R Hm Hk. eapply hoare_bind; [apply hoare_keeps, Hm |].
    intros x. eapply hoare_weaken; [apply Hk | tauto | auto]. }
  assert (Hret : forall v, hoare (Is v) (ret v) Is).
  { intros v h a h' HI Hrun. unfold ret in Hrun. injection Hrun as <- <-. exact HI. }
  induction depth as [| depth IH]; intros ref_path; simpl.
  - intros h a h' _ Hrun. discriminate Hrun.
  - do 7 (apply Hstep; [solve [kp] | intros ?]).
    eapply (hoare_bind _ _ _ (fun _ => Is _)).
    { intros h [] h' Hu Hrun.
      destruct (delete_useless_absent _ _ [] h h' Hu ltac:(intros ? ? ? ? ? []) Hrun)
        as [Hu' Hc].
      split; [exact Hu' |]. intros l d Hv Hl u Hin _. eauto. }
    intros [].
    eapply hoare_bind; [apply hoare_keeps, keeps_get | intros properties].
    apply hoare_fact. intros Hp.
    destruct (is_none properties) eqn:Hnone.
    + do 2 (apply Hstep; [solve [kp] | intros ?]).
      eapply (hoare_bind _ _ _ Is).
      { lazymatch goal with
        | |- hoare _ (if ?c then _ else _) _ => destruct c
        end; [| apply Hret].
        apply Hstep; [solve [kp] | intros ty].
        destruct (negb (eq_str ty "array")); [| apply Hret].
        eapply hoare_weaken; [apply IH | intros h [Hu _]; exact Hu | auto]. }
      intros schema'.
      eapply hoare_weaken;
        [apply (hoare_keeps (Is schema') _ (fun v => v = schema'))
        | auto | intros v h [HI ->]; exact HI].
      destruct (W schema') as (_ & Hitems & _).
      pose proof (keeps_parse_ref self gas _ (W schema') depth) as IH'.
      keeps_items IH' Hitems.
    + eapply hoare_weaken;
        [apply (hoare_keeps (Is x5) _ (fun v => v = x5))
        | auto | intros v h [HI ->]; exact HI].
      destruct (W x5) as (_ & _ & Hprops & Hover).
      pose proof (keeps_parse_ref self gas _ (W x5) depth) as IH'.
      keeps_properties IH' Hprops Hover Hp.
Qed.

(** [__parse_ref] returns a dict of the store without the denylisted keys at
    its top level. *)
Lemma parse_ref_returns_top_clean (depth : nat) (ref_path v : val) (h h' : store) :
  unique_keys h ->
  parse_ref self gas depth ref_path h = Done (v, h') ->
  exists l d,
    v = VLoc l /\ h' !! l = Some (ODict d)
    /\ forall u, In u (schema_useless_keys self) -> u <> "items" ->
                 dict_get u d = None.
Proof.
  intros Hu Hrun.
  destruct (parse_ref_returns_dict _ _ _ _ _ _ _ Hrun) as (_ & l & d0 & d & -> & _ & Hl).
  exists l, d. split; [reflexivity |]. split; [exact Hl |].
  destruct (parse_ref_top_clean depth ref_path h (VLoc l) h' Hu Hrun) as [_ Hc].
  exact (Hc l d eq_refl Hl).
Qed.

End TopClean.
End CoreFrame.

(** * Properties of the second variant *)

Module ProjectTheory.
Import Project.

(** ** The sanitizer *)

Lemma existsb_eqb_In (k : string) (keys : list string) :
  In k keys -> existsb (String.eqb k) keys = true.
Proof.
  intros H. apply existsb_exists. exists k. split; [assumption |].
  apply String.eqb_refl.
Qed.

(** No key of [keys_set] is left, at any depth. *)
Lemma delete_useless_keys_clean (keys_set : list string) (k : string) :
  In k keys_set ->
  forall data, has_key k (delete_useless_keys keys_set data) = false.
Proof.
  intros Hk. induction data as [| b | z | s | xs IH | kvs IH] using json_ind;
    try reflexivity.
  - simpl. induction IH as [| x r Hx _ IHr]; simpl; [reflexivity |].
    rewrite Hx. exact IHr.
  - simpl. induction IH as [| [k' v] r Hv _ IHr]; simpl; [reflexivity |].
    destruct (existsb (String.eqb k') keys_set) eqn:E; [exact IHr |].
    simpl in Hv. simpl. rewrite Hv, IHr.
    destruct (String.eqb_spec k' k) as [-> | _]; [| reflexivity].
    rewrite (existsb_eqb_In k keys_set Hk) in E. discriminate E.
Qed.

Lemma outcome_bind_Done {A B} (m : outcome A) (k : A -> outcome B) (r : B) :
  bind m k = Done r <-> exists a, m = Done a /\ k a = Done r.
Proof.
  unfold bind. split.
  - destruct m as [a | e |]; try discriminate. eauto.
  - intros (a & -> & Hk). exact Hk.
Qed.

Ltac inv_bind H :=
  let a := fresh "a" in
  let E := fresh "E" in
  apply outcome_bind_Done in H as (a & E & H).

Lemma prepare_schema_clean (keys_set : list string) (schema_data : json)
    (delete_type : bool) (more : list string) (r : json) (k : string) :
  prepare_schema keys_set schema_data delete_type more = Done r ->
  In k keys_set -> has_key k r = false.
Proof.
  unfold prepare_schema. intros H Hk. do 2 inv_bind H.
  injection H as <-. auto using delete_useless_keys_clean.
Qed.

(** A parameter's [schema_obj] went through the sanitizer, and so did an
    item descriptor of type [object]. *)
Lemma parse_parameter_clean (self : SwaggerProcessor) (param : json)
    (p : Parameter') (k : string) :
  parse_parameter self param = Done p ->
  In k (schema_useless_keys self) ->
  (forall d, Parameter_schema_obj p = Some d -> has_key k (JDict d) = false)
  /\ (forall d, Parameter_items p = Some d ->
                dict_get "type" d = Some (JStr "object") ->
                has_key k (JDict d) = false).
Proof.
  unfold parse_parameter. intros H Hk.
  repeat inv_bind H. injection H as <-. cbn [Parameter_schema_obj Parameter_items].
  rename a into param_schema, a1 into param_type, a5 into schema_obj, a6 into items,
         E5 into Hschema, E6 into Hitems, E20 into Hitems', E21 into Hschema'.
  split; intros d ->.
  - destruct (truthy schema_obj); [| discriminate Hschema'].
    destruct schema_obj; try discriminate Hschema'. injection Hschema' as ->.
    destruct (truthy param_schema && negb (eq_str param_type "array"));
      [| discriminate Hschema].
    eauto using prepare_schema_clean.
  - intros Hty.
    destruct items; try discriminate Hitems'. injection Hitems' as ->.
    destruct (eq_str param_type "array"); [| discriminate Hitems].
    inv_bind Hitems. inv_bind Hitems. inv_bind Hitems.
    lazymatch type of Hitems with
    | (if eq_str ?ty _ then _ else _) = _ => destruct (eq_str ty "object") eqn:Eobj
    end; [eauto using prepare_schema_clean |].
    injection Hitems as ->.
    lazymatch goal with
    | Hget : py_getitem (JDict d) "type" = Done _ |- _ =>
        unfold py_getitem in Hget; rewrite Hty in Hget; injection Hget as <-
    end.
    discriminate Eobj.
Qed.

Lemma parse_parameters_loop_each (self : SwaggerProcessor) :
  forall params acc parsed,
    parse_parameters_loop self params acc = Done parsed ->
    exists new,
      parsed = acc ++ new
      /\ Forall2 (fun param p => parse_parameter self param = Done p) params new.
Proof.
  induction params as [| param r IH]; simpl; intros acc parsed H.
  - injection H as <-. exists []. rewrite app_nil_r. split; [reflexivity | constructor].
  - inv_bind H. destruct (IH _ _ H) as (new & -> & Hnew).
    exists (a :: new). rewrite <- app_assoc. split; [reflexivity |].
    constructor; assumption.
Qed.

(** The item descriptor of a parameter is the declared one, sanitized when
    its type is [object]. *)
Lemma parse_parameter_items (self : SwaggerProcessor) (param : json)
    (p : Parameter') (d : list (string * json)) :
  parse_parameter self param = Done p ->
  Parameter_items p = Some d ->
  exists declared ty,
    declared_items param = Done declared
    /\ py_getitem declared "type" = Done ty
    /\ if eq_str ty "object"
       then forall k, In k (schema_useless_keys self) -> has_key k (JDict d) = false
       else declared = JDict d.
Proof.
  unfold parse_parameter, declared_items. intros H Hd.
  apply outcome_bind_Done in H as (param_schema & Hschema & H).
  apply outcome_bind_Done in H as (t & _ & H).
  apply outcome_bind_Done in H as (param_type & _ & H).
  apply outcome_bind_Done in H as (pattern & _ & H).
  apply outcome_bind_Done in H as (format & _ & H).
  apply outcome_bind_Done in H as (max_len & _ & H).
  apply outcome_bind_Done in H as (schema_obj & _ & H).
  apply outcome_bind_Done in H as (items & Hitems & H).
  do 13 (apply outcome_bind_Done in H as (? & _ & H)).
  apply outcome_bind_Done in H as (items' & Hopt & H).
  do 6 (apply outcome_bind_Done in H as (? & _ & H)).
  injection H as <-. cbn [Parameter_items] in Hd. subst items'.
  destruct items; try discriminate Hopt. injection Hopt as ->.
  destruct (eq_str param_type "array"); [| discriminate Hitems].
  apply outcome_bind_Done in Hitems as (i & Hi & Hitems).
  apply outcome_bind_Done in Hitems as (array_items & Harr & Hitems).
  apply outcome_bind_Done in Hitems as (ty & Hty & Hitems).
  rewrite Hschema. simpl. rewrite Hi. simpl. rewrite Harr. exists array_items, ty.
  split; [reflexivity |]. split; [exact Hty |].
  destruct (eq_str ty "object").
  - intros k Hk. exact (prepare_schema_clean _ _ _ _ _ _ Hitems Hk).
  - injection Hitems as ->. reflexivity.
Qed.

Import Examples.

(** A [Method] of this variant never has an empty list of parameters. *)
Lemma parameters_absent_or_nonempty (self : SwaggerProcessor) method method_data
    method_url (m : Method) :
  parse_method self method method_data method_url = Done (Some m) ->
  Method_parameters m = None \/ exists p ps, Method_parameters m = Some (p :: ps).
Proof.
  unfold parse_method. intros H. inv_bind H.
  destruct (truthy a); [discriminate H |].
  do 3 inv_bind H. injection H as <-.
  unfold new_Method in E2. repeat inv_bind E2. injection E2 as <-. simpl.
  destruct a1 as [[| p ps] |]; simpl; eauto.
Qed.

End ProjectTheory.

(** * The two variants side by side *)

Module Variants.
Import Examples.

(** C2 fails as stated.  In the second variant an item descriptor of type
    [string] is embedded as it was declared, [xml] included.  In the first
    variant the schema resolved for a request body keeps the [xml] keys below
    its top level. *)
Lemma unsanitized_schemas_keep_xml :
  (exists p d,
      Project.parse_parameters (Project.new_processor "http://api.test")
        (JList [tags_parameter]) = Done [p]
      /\ Project.Parameter_items p = Some d
      /\ d = [("type", JStr "string"); ("xml", JDict [("name", JStr "tag")])]
      /\ has_key "xml" (JDict d) = true)
  /\ (exists rb h1 j,
        Core.parse_request_body (processor_of pet_doc) 50 10
          (root_beside_pet pet_body) (store_beside_pet pet_body) = Done (rb, h1)
        /\ Core.snapshot 20 h1 (Core.VLoc (Core.RequestBody_data_schema rb)) = Some j
        /\ j = resolved_pet
        /\ has_key "xml" j = true).
Proof.
  split.
  - do 2 eexists. repeat split; reflexivity.
  - do 3 eexists. repeat split; reflexivity.
Qed.

(** C2, as amended.  Where the denylist is applied.  In the second variant,
    for every parameter that [__parse_parameters] returns: the [schema_obj]
    has no key of the denylist at any depth; the item descriptor has none
    either when the declared descriptor is of type [object]; an item
    descriptor of any other type is the declared one ([param.get("items") or
    param_schema.get("items")]) as it is.  In the first variant, in a store
    whose dicts have unique keys, the dict that [__parse_ref] returns has no
    key of the denylist at its top level ([items] apart, which the resolver
    writes). *)
Theorem denylist_is_applied_where_sanitized :
  (forall (self : Project.SwaggerProcessor) (params_data : json)
          (parsed : list Project.Parameter') (k : string),
      Project.parse_parameters self params_data = Done parsed ->
      In k (Project.schema_useless_keys self) ->
      exists params,
        Project.py_iter params_data = Done params
        /\ Forall2
             (fun param p =>
                (forall d, Project.Parameter_schema_obj p = Some d ->
                           has_key k (JDict d) = false)
                /\ (forall d, Project.Parameter_items p = Some d ->
                       exists declared ty,
                         Project.declared_items param = Done declared
                         /\ Project.py_getitem declared "type" = Done ty
                         /\ if Project.eq_str ty "object"
                            then has_key k (JDict d) = false
                            else declared = JDict d))
             params parsed)
  /\ (forall (self : Core.SwaggerProcessor) (gas depth : nat) (ref_path v : Core.val)
             (h h' : Core.store) (k : string),
        Core.unique_keys h ->
        Core.parse_ref self gas depth ref_path h = Done (v, h') ->
        In k (Core.schema_useless_keys self) ->
        k <> "items" ->
        exists l d,
          v = Core.VLoc l /\ h' !! l = Some (Core.ODict d) /\ dict_get k d = None).
Proof.
  split.
  - intros self params_data parsed k H Hk. unfold Project.parse_parameters in H.
    apply ProjectTheory.outcome_bind_Done in H as (params & Hiter & H).
    exists params. split; [exact Hiter |].
    destruct (ProjectTheory.parse_parameters_loop_each self _ _ _ H) as (new & -> & Hnew).
    simpl. eapply Forall2_impl; [exact Hnew |].
    intros param p Hp. split.
    + intros d Hd.
      exact (proj1 (ProjectTheory.parse_parameter_clean self param p k Hp Hk) d Hd).
    + intros d Hd.
      destruct (ProjectTheory.parse_parameter_items self param p d Hp Hd)
        as (declared & ty & Hdecl & Hty & Hcase).
      exists declared, ty. split; [exact Hdecl |]. split; [exact Hty |].
      destruct (Project.eq_str ty "object"); [exact (Hcase k Hk) | exact Hcase].
  - intros self gas depth ref_path v h h' k Hu Hrun Hk Hne.
    destruct (CoreFrame.parse_ref_returns_top_clean self gas depth ref_path v h h' Hu Hrun)
      as (l & d & -> & Hl & Hc).
    exists l, d. auto.
Qed.

Lemma denylist_is_applied_where_sanitized_witness :
  (exists p1 p2 d1 d2,
      Project.parse_parameters (Project.new_processor "http://api.test")
        (JList [tags_parameter; filter_parameter]) = Done [p1; p2]
      /\ Project.Parameter_items p1 = Some d1
      /\ Project.declared_items tags_parameter = Done (JDict d1)
      /\ Project.Parameter_schema_obj p2 = Some d2
      /\ has_key "xml" (JDict d2) = false)
  /\ (exists l h' d,
        Core.parse_ref (processor_of pet_doc) 50 10 (Core.VStr "#/definitions/Pet")
          (store_of pet_doc) = Done (Core.VLoc l, h')
        /\ h' !! l = Some (Core.ODict d)
        /\ dict_get "xml" d = None).
Proof.
  split.
  - let r := eval vm_compute in
      (Project.parse_parameters (Project.new_processor "http://api.test")
         (JList [tags_parameter; filter_parameter])) in
    lazymatch r with
    | Done [?p1; ?p2] =>
        destruct (proj1 denylist_is_applied_where_sanitized
                    (Project.new_processor "http://api.test")
                    (JList [tags_parameter; filter_parameter]) [p1; p2] "xml"
                    eq_refl (or_introl eq_refl))
          as (params & Hiter & Hall);
        exists p1, p2
    end.
    injection Hiter as <-.
    apply Forall2_cons_1 in Hall as [[_ H1] Hall].
    apply Forall2_cons_1 in Hall as [[H2 _] _].
    do 2 eexists. split; [reflexivity |]. split; [reflexivity |].
    split; [reflexivity |]. split; [reflexivity |].
    apply H2. reflexivity.
  - let r := eval vm_compute in
      (Core.parse_ref (processor_of pet_doc) 50 10 (Core.VStr "#/definitions/Pet")
         (store_of pet_doc)) in
    lazymatch r with
    | Done (?v, ?h1) =>
        destruct (proj2 denylist_is_applied_where_sanitized (processor_of pet_doc)
                    50 10 (Core.VStr "#/definitions/Pet") v (store_of pet_doc) h1 "xml"
                    (CoreFrame.unique_keysb_ok (store_of pet_doc) eq_refl) eq_refl (or_introl eq_refl)
                    ltac:(discriminate))
          as (l & d & Hv & Hl & Hd);
        exists l, h1, d
    end.
    injection Hv as <-.
    split; [reflexivity |]. split; [exact Hl | exact Hd].
Defined.

(** C5 (the code departs from it).  A document without [paths] stops both
    variants with the assertion "0 endpoints"; a document whose [paths] is
    the empty mapping passes the assertion, and both variants end normally
    with nothing parsed.  Gas and depth play no part. *)
Theorem empty_paths_is_accepted (gas depth : nat) :
  Core.parse_swagger (processor_of no_paths_doc) gas depth (store_of no_paths_doc)
    = Raise AssertionError
  /\ Project.parse_swagger (Project.new_processor "http://api.test") no_paths_doc
     = Raise AssertionError
  /\ Core.parse_swagger (processor_of empty_paths_doc) gas depth
       (store_of empty_paths_doc)
     = Done ([], store_of empty_paths_doc)
  /\ Project.parse_swagger (Project.new_processor "http://api.test") empty_paths_doc
     = Done [].
Proof.
  split; [| split; [| split]].
  - eapply CoreTheory.missing_paths_is_fatal; reflexivity.
  - reflexivity.
  - eapply CoreTheory.empty_paths_parses_nothing; reflexivity.
  - reflexivity.
Qed.

(** C8 (the code departs from it).  For an operation that declares an empty
    list of parameters and an empty mapping of responses, the first variant
    returns a [Method] whose [parameters] and [responses] are empty lists,
    not [None]: its test is [len(params) < 0].  The second variant, whose
    test is [len(params) <= 0], returns [None].  Gas and depth play no
    part. *)
Theorem empty_parameters_stay_a_list (gas depth : nat) :
  (exists m h1,
      Core.parse_method (processor_of pet_doc) gas depth "get"
        (root_beside_pet bare_operation) "/ping" (store_beside_pet bare_operation)
      = Done (Some m, h1)
      /\ Core.Method_parameters m = Some []
      /\ Core.Method_responses m = Some [])
  /\ (exists m,
        Project.parse_method (Project.new_processor "http://api.test") "get"
          bare_operation "/ping" = Done (Some m)
        /\ Project.Method_parameters m = None).
Proof.
  split.
  - do 2 eexists. split.
    + apply (CoreTheory.extends_Done
               (Core.parse_method (processor_of pet_doc) 0 0 "get"
                  (root_beside_pet bare_operation) "/ping"));
        [apply CoreTheory.extends_parse_method; lia | reflexivity].
    + split; reflexivity.
  - eexists. split; reflexivity.
Qed.

End Variants.

(** * What else the first variant does *)

Module CoreBehaviour.
Import Core CoreTheory CoreFrame Examples Samples.

(** ** Running a computation step by step *)

Ltac step E := rewrite (bind_eq _ _ _ _ _ E).

Lemma bind_assoc {A B C} (m : M A) (k1 : A -> M B) (k2 : B -> M C) (h : store) :
  bind (bind m k1) k2 h = bind m (fun a => bind (k1 a) k2) h.
Proof. unfold bind. destruct (m h) as [[a h1] | e |]; reflexivity. Qed.

Lemma py_get_dict (h : store) (l : loc) (d : list (string * val)) (k : string) :
  h !! l = Some (ODict d) ->
  py_get (VLoc l) k h = Done (default VNone (dict_get k d), h).
Proof. intros Hl. unfold py_get, py_get_default. simpl. rewrite Hl. reflexivity. Qed.

Lemma py_get_default_dict (h : store) (l : loc) (d : list (string * val))
    (k : string) (dflt : val) :
  h !! l = Some (ODict d) ->
  py_get_default (VLoc l) k dflt h = Done (default dflt (dict_get k d), h).
Proof. intros Hl. unfold py_get_default. simpl. rewrite Hl. reflexivity. Qed.

(** The dict, or the list, that [v] refers to in [h]. *)
Ltac with_dict h v k :=
  let r := eval vm_compute in (deref h v) in
  lazymatch r with
  | Some (ODict ?d) =>
      let lv := eval vm_compute in v in
      lazymatch lv with VLoc ?l => k l d end
  end.
Ltac with_list h v k :=
  let r := eval vm_compute in (deref h v) in
  lazymatch r with
  | Some (OList ?xs) =>
      let lv := eval vm_compute in v in
      lazymatch lv with VLoc ?l => k l xs end
  end.

(** ** The key search finds a value of the key *)

Lemma key_values_dict (k : string) (kvs : list (string * json)) :
  key_values k (JDict kvs)
  = flat_map (fun kv => (if String.eqb (fst kv) k then [snd kv] else [])
                        ++ key_values k (snd kv)) kvs.
Proof.
  simpl. induction kvs as [| [k' v] r IH]; simpl; [reflexivity |].
  rewrite IH. rewrite <- app_assoc. reflexivity.
Qed.

Lemma key_values_list (k : string) (js : list json) :
  key_values k (JList js) = flat_map (key_values k) js.
Proof.
  simpl. induction js as [| j r IH]; simpl; [reflexivity | now rewrite IH].
Qed.

Lemma key_values_top (k : string) (kvs : list (string * json)) (j : json) :
  In (k, j) kvs -> In j (key_values k (JDict kvs)).
Proof.
  intros H. rewrite key_values_dict. apply in_flat_map. exists (k, j).
  split; [exact H |]. simpl. rewrite String.eqb_refl. left. reflexivity.
Qed.

Lemma key_values_below (k k' : string) (kvs : list (string * json)) (t j : json) :
  In (k', t) kvs -> In j (key_values k t) -> In j (key_values k (JDict kvs)).
Proof.
  intros H Hj. rewrite key_values_dict. apply in_flat_map. exists (k', t).
  split; [exact H |]. apply in_or_app. right. exact Hj.
Qed.

Lemma key_values_item (k : string) (js : list json) (t j : json) :
  In t js -> In j (key_values k t) -> In j (key_values k (JList js)).
Proof.
  intros H Hj. rewrite key_values_list. apply in_flat_map. eauto.
Qed.

Lemma has_key_node (k : string) (j : json) : has_key k j = true -> is_node j = true.
Proof. destruct j; simpl; auto. Qed.

Lemma has_key_dict_true (k : string) (kvs : list (string * json)) :
  has_key k (JDict kvs) = true ->
  (exists j, In (k, j) kvs)
  \/ exists k' t, In (k', t) kvs /\ has_key k t = true.
Proof.
  simpl. induction kvs as [| [k' v] r IH]; intros H; [discriminate |].
  apply orb_true_iff in H as [H | H].
  - apply orb_true_iff in H as [H | H].
    + apply String.eqb_eq in H as ->. left. exists v. left. reflexivity.
    + right. exists k', v. split; [left; reflexivity | exact H].
  - destruct (IH H) as [(j & Hj) | (k2 & t & Hin & Ht)].
    + left. exists j. right. exact Hj.
    + right. exists k2, t. split; [right; exact Hin | exact Ht].
Qed.

Lemma has_key_list_true (k : string) (js : list json) :
  has_key k (JList js) = true -> exists t, In t js /\ has_key k t = true.
Proof.
  simpl. induction js as [| j r IH]; intros H; [discriminate |].
  apply orb_true_iff in H as [H | H].
  - exists j. split; [left; reflexivity | exact H].
  - destruct (IH H) as (t & Hin & Ht). exists t. split; [right; exact Hin | exact Ht].
Qed.

(** What the [for] loop over a dict leaves: the hit, if any, is the value of
    the key at the top of the tree; what goes to the queue are subtrees, and
    without a hit all of them. *)
Lemma scan_items_reads (h : store) (k : string)
    (d : list (string * val)) (kvs : list (string * json)) :
  Forall2 (fun kv kj => fst kv = fst kj /\ reads_as h (snd kv) (snd kj)) d kvs ->
  exists mtrees,
    Forall2 (reads_as h) (snd (scan_items k d)) mtrees
    /\ (forall t, In t mtrees -> exists k', In (k', t) kvs)
    /\ forest_size mtrees <= forest_size (map snd kvs)
    /\ match fst (scan_items k d) with
       | Some x => exists j, In (k, j) kvs /\ reads_as h x j
       | None =>
           (forall j, ~ In (k, j) kvs)
           /\ forall k' t, In (k', t) kvs -> is_node t = true -> In t mtrees
       end.
Proof.
  induction 1 as [| [k1 v] [k2 j] d kvs [E R] _ IH]; simpl in *.
  - exists []. repeat split; auto.
  - subst k2. destruct (String.eqb_spec k1 k) as [-> | Hne]; simpl.
    + exists []. split; [constructor |]. split; [intros t [] |]. split; [simpl; lia |].
      exists j. split; [left; reflexivity | exact R].
    + destruct IH as (mtrees & Hm & Hsub & Hsize & Hhit).
      destruct (scan_items k d) as [hit more]. simpl in *.
      rewrite (reads_as_node h v j R).
      destruct (is_node j) eqn:Hnode.
      * exists (j :: mtrees). repeat split.
        -- constructor; assumption.
        -- intros t [<- | Ht]; [exists k1; left; reflexivity |].
           destruct (Hsub t Ht) as (k' & Hk'). exists k'. right. exact Hk'.
        -- simpl. lia.
        -- destruct hit as [x |].
           ++ destruct Hhit as (j' & Hin & Hx). exists j'. split; [right |]; assumption.
           ++ destruct Hhit as [Hno Hall]. split.
              ** intros j' [[= -> ->] | Hin]; [congruence | exact (Hno j' Hin)].
              ** intros k' t [[= <- <-] | Hin] Ht; [left; reflexivity |].
                 right. eauto.
      * exists mtrees. repeat split.
        -- assumption.
        -- intros t Ht. destruct (Hsub t Ht) as (k' & Hk'). exists k'. right. exact Hk'.
        -- lia.
        -- destruct hit as [x |].
           ++ destruct Hhit as (j' & Hin & Hx). exists j'. split; [right |]; assumption.
           ++ destruct Hhit as [Hno Hall]. split.
              ** intros j' [[= -> ->] | Hin]; [congruence | exact (Hno j' Hin)].
              ** intros k' t [[= <- <-] | Hin] Ht; [congruence |]. eauto.
Qed.

Lemma in_filter_node (t : json) (js : list json) :
  In t js -> is_node t = true -> In t (List.filter is_node js).
Proof. intros H Ht. apply List.filter_In. auto. Qed.

Lemma find_key_loop_finds (k : string) (h : store) :
  forall gas queue trees found,
    Forall2 (reads_as h) queue trees ->
    forest_size trees <= gas ->
    exists x,
      find_key_loop gas h k queue found = Done x
      /\ (x = found \/ hit_in h k trees x)
      /\ (Exists (fun t => has_key k t = true) trees -> hit_in h k trees x).
Proof.
  induction gas as [| gas IH]; intros queue trees found Hq Hsize.
  - destruct Hq as [| v j vs js Hv _].
    + exists found. repeat split; auto. intros H. inversion H.
    + simpl in Hsize. destruct j; simpl in Hsize; lia.
  - destruct Hq as [| v j vs js Hv Hq].
    { exists found. repeat split; auto. intros H. inversion H. }
    simpl in Hsize.
    assert (Hscalar : is_container v = false ->
              exists x,
                find_key_loop (S gas) h k (v :: vs) found = Done x
                /\ (x = found \/ hit_in h k (j :: js) x)
                /\ (Exists (fun t => has_key k t = true) (j :: js) ->
                    hit_in h k (j :: js) x)).
    { intros Hc. destruct (reads_as_scalar h v j Hv Hc) as [Hn Hd].
      destruct (IH vs js found Hq) as (x & Hx & Hs & Hc').
      { destruct j; simpl in Hsize; lia. }
      exists x. simpl. rewrite Hd. split; [exact Hx |]. split.
      - destruct Hs as [-> | (t & j' & Hin & Hj' & R)]; [left; reflexivity |].
        right. exists t, j'. split; [right |]; auto.
      - intros He. apply Exists_cons in He as [He | He].
        + apply has_key_node in He. congruence.
        + destruct (Hc' He) as (t & j' & Hin & Hj' & R).
          exists t, j'. split; [right |]; auto. }
    destruct v as [| b | z | s | l]; try (apply Hscalar; reflexivity).
    clear Hscalar. simpl.
    apply reads_as_loc in Hv as [(d & kvs & -> & -> & Hd) | (xs & js' & -> & -> & Hxs)].
    + rewrite json_size_dict in Hsize.
      destruct (scan_items_reads h k d kvs Hd) as (mtrees & Hm & Hsub & Hms & Hhit).
      destruct (scan_items k d) as [hit more]. simpl in Hm, Hhit.
      destruct (IH (vs ++ more) (js ++ mtrees) (default found hit)) as (x & Hx & Hs & Hc).
      { apply Forall2_app; assumption. }
      { rewrite forest_size_app. lia. }
      exists x. split; [exact Hx |].
      assert (Hlift : hit_in h k (js ++ mtrees) x -> hit_in h k (JDict kvs :: js) x).
      { intros (t & j' & Hin & Hj' & R). apply in_app_or in Hin as [Hin | Hin].
        - exists t, j'. split; [right |]; auto.
        - destruct (Hsub t Hin) as (k' & Hk').
          exists (JDict kvs), j'. split; [left; reflexivity |].
          split; [eapply key_values_below; eauto | exact R]. }
      destruct hit as [xh |]; simpl in Hs.
      * destruct Hhit as (jh & Hin & Rh).
        assert (Hgot : hit_in h k (JDict kvs :: js) x).
        { destruct Hs as [-> | Hs]; [| auto].
          exists (JDict kvs), jh. split; [left; reflexivity |].
          split; [apply key_values_top; exact Hin | exact Rh]. }
        auto.
      * destruct Hhit as [Hno Hall]. split.
        -- destruct Hs as [-> | Hs]; auto.
        -- intros He. apply Hlift, Hc. apply Exists_app.
           apply Exists_cons in He as [He | He]; [right | left; exact He].
           apply has_key_dict_true in He as [(j' & Hj') | (k' & t & Hin & Ht)].
           ++ exfalso. exact (Hno j' Hj').
           ++ apply Exists_exists. exists t. split; [| exact Ht].
              apply list_elem_of_In. eapply Hall; eauto using has_key_node.
    + rewrite json_size_list in Hsize.
      destruct (IH (vs ++ List.filter is_container xs) (js ++ List.filter is_node js') found)
        as (x & Hx & Hs & Hc).
      { apply Forall2_app; [assumption |]. apply reads_as_filter. assumption. }
      { rewrite forest_size_app. pose proof (forest_size_filter is_node js'). lia. }
      exists x. split; [exact Hx |].
      assert (Hlift : hit_in h k (js ++ List.filter is_node js') x ->
                      hit_in h k (JList js' :: js) x).
      { intros (t & j' & Hin & Hj' & R). apply in_app_or in Hin as [Hin | Hin].
        - exists t, j'. split; [right |]; auto.
        - apply List.filter_In in Hin as [Hin _].
          exists (JList js'), j'. split; [left; reflexivity |].
          split; [eapply key_values_item; eauto | exact R]. }
      split.
      * destruct Hs as [-> | Hs]; auto.
      * intros He. apply Hlift, Hc. apply Exists_app.
        apply Exists_cons in He as [He | He]; [right | left; exact He].
        apply has_key_list_true in He as (t & Hin & Ht).
        apply Exists_exists. exists t. split; [| exact Ht].
        apply list_elem_of_In. apply in_filter_node; eauto using has_key_node.
Qed.

(** X1.  On a finite tree, and with one unit of gas per value of the tree,
    [__find_key_in_dict] returns and leaves the store as it was.  When some
    mapping of the tree holds the key, at any depth, the result is the value
    that one of these mappings holds under the key; when none does, the
    result is [None]. *)
Theorem find_key_finds_a_value_of_the_key (gas : nat) (k : string) (h : store)
    (v : val) (j : json) :
  reads_as h v j -> json_size j <= gas ->
  exists x,
    find_key_in_dict gas v k h = Done (x, h)
    /\ if has_key k j
       then exists j', In j' (key_values k j) /\ reads_as h x j'
       else x = VNone.
Proof.
  intros Hv Hsize. unfold find_key_in_dict.
  destruct (is_none v) eqn:Hnone.
  - exists VNone. split; [reflexivity |].
    destruct v; try discriminate Hnone.
    destruct (reads_as_scalar h VNone j Hv eq_refl) as [Hn _].
    destruct (has_key k j) eqn:Hk; [| reflexivity].
    apply has_key_node in Hk. congruence.
  - destruct (find_key_loop_finds k h gas [v] [j] VNone) as (x & Hx & Hs & Hc).
    { repeat constructor. exact Hv. }
    { simpl. lia. }
    rewrite Hx. exists x. split; [reflexivity |].
    destruct (has_key k j) eqn:Hk.
    + destruct Hc as (t & j' & [<- | []] & Hj' & R); [| eauto].
      constructor. exact Hk.
    + rewrite (find_key_loop_absent k h gas [v] [j] VNone) in Hx.
      * congruence.
      * repeat constructor. exact Hv.
      * repeat constructor. exact Hk.
      * simpl. lia.
Qed.

Lemma find_key_finds_a_value_of_the_key_witness :
  exists x,
    find_key_in_dict 50 (root_beside_pet pet_body) "$ref" (store_beside_pet pet_body)
    = Done (x, store_beside_pet pet_body)
    /\ exists j', In j' (key_values "$ref" pet_body)
                  /\ reads_as (store_beside_pet pet_body) x j'.
Proof.
  refine (find_key_finds_a_value_of_the_key 50 "$ref" (store_beside_pet pet_body)
            (root_beside_pet pet_body) pet_body _ _).
  - exists 10. reflexivity.
  - simpl. lia.
Defined.

Lemma find_key_keeps_store (gas : nat) (v : val) (k : string) (h : store)
    (x : val) (h' : store) :
  find_key_in_dict gas v k h = Done (x, h') -> h' = h.
Proof.
  unfold find_key_in_dict. destruct (is_none v); [congruence |].
  destruct (find_key_loop gas h k [v] VNone); congruence.
Qed.

(** X2.  Whatever it is given, with whatever gas, [__find_key_in_dict] raises
    no exception, and a call that returns leaves the store as it was.  For
    what is neither a dict nor a list (a string, a number, ...) it returns
    [None]. *)
Theorem find_key_never_raises_or_writes (gas : nat) (v : val) (k : string)
    (h : store) :
  (forall e, find_key_in_dict gas v k h <> Raise e)
  /\ (forall x h', find_key_in_dict gas v k h = Done (x, h') -> h' = h)
  /\ (is_container v = false -> 1 <= gas ->
      find_key_in_dict gas v k h = Done (VNone, h)).
Proof.
  split; [| split].
  - intros e. unfold find_key_in_dict. destruct (is_none v); [discriminate |].
    destruct (find_key_loop gas h k [v] VNone) as [x | e' |] eqn:E; try discriminate.
    exfalso. exact (find_key_loop_never_raises h k _ _ _ _ E).
  - intros x h'. apply find_key_keeps_store.
  - intros Hv Hgas. unfold find_key_in_dict. destruct gas as [| gas]; [lia |].
    destruct v; try discriminate Hv; destruct gas; reflexivity.
Qed.

Lemma find_key_never_raises_or_writes_witness :
  find_key_in_dict 1 (VStr "#/definitions/Pet") "$ref" (store_of pet_doc)
  = Done (VNone, store_of pet_doc).
Proof.
  apply (proj2 (proj2 (find_key_never_raises_or_writes 1 (VStr "#/definitions/Pet")
                         "$ref" (store_of pet_doc)))).
  - reflexivity.
  - lia.
Defined.

(** ** Pointers *)

Lemma append_cons (x : ascii) (a b : string) :
  String.append (String x a) b = String x (String.append a b).
Proof. reflexivity. Qed.

Lemma append_nil_r (a : string) : String.append a EmptyString = a.
Proof.
  induction a as [| x a IH]; [reflexivity |]. rewrite append_cons, IH. reflexivity.
Qed.

Lemma append_assoc (a b c : string) :
  String.append (String.append a b) c = String.append a (String.append b c).
Proof.
  induction a as [| x a IH]; [reflexivity |]. rewrite !append_cons, IH. reflexivity.
Qed.

Lemma split_slash_aux_no_slash (s : string) :
  no_slash s = true ->
  forall cur, split_slash_aux s cur = [String.append cur s].
Proof.
  induction s as [| c r IH]; simpl; intros H cur.
  - rewrite append_nil_r. reflexivity.
  - apply andb_true_iff in H as [Hc Hr]. apply negb_true_iff in Hc. rewrite Hc.
    rewrite (IH Hr). rewrite append_assoc. reflexivity.
Qed.

Lemma split_slash_aux_app (a b : string) :
  no_slash a = true ->
  forall cur,
    split_slash_aux (String.append a (String "/" b)) cur
    = String.append cur a :: split_slash_aux b EmptyString.
Proof.
  induction a as [| c r IH]; intros H cur.
  - rewrite append_nil_r. reflexivity.
  - simpl in H. apply andb_true_iff in H as [Hc Hr]. apply negb_true_iff in Hc.
    rewrite append_cons. simpl. rewrite Hc.
    rewrite (IH Hr). rewrite append_assoc. reflexivity.
Qed.

Lemma split_slash_no_slash (s : string) :
  no_slash s = true -> split_slash s = [s].
Proof. intros H. unfold split_slash. now rewrite split_slash_aux_no_slash. Qed.

Lemma split_slash_pointer (c n : string) :
  no_slash c = true -> no_slash n = true ->
  tail (split_slash (pointer c n)) = [c; n].
Proof.
  intros Hc Hn. unfold split_slash, pointer.
  change (String.append "#/" ?x) with (String "#" (String "/" x)).
  change (String.append "/" n) with (String "/" n). simpl.
  rewrite (split_slash_aux_app c n Hc).
  rewrite (split_slash_aux_no_slash n Hn). reflexivity.
Qed.

(** X3.  [__parse_ref] takes its pointer apart with [split("/")] before it
    looks at the document: a pointer that is not a string raises
    [AttributeError], and a string without any ["/"] raises [IndexError]
    (nothing is left after the part before the first slash is dropped),
    whatever the document holds. *)
Theorem pointer_must_be_text_with_a_slash (self : SwaggerProcessor) (gas depth : nat)
    (h : store) :
  (forall v, (forall s, v <> VStr s) ->
             parse_ref self gas (S depth) v h = Raise AttributeError)
  /\ (forall s, no_slash s = true ->
                parse_ref self gas (S depth) (VStr s) h = Raise IndexError).
Proof.
  split.
  - intros v Hv. simpl. apply bind_Raise.
    destruct v; try reflexivity. destruct (Hv s eq_refl).
  - intros s Hs. simpl. rewrite (split_slash_no_slash s Hs). reflexivity.
Qed.

Lemma pointer_must_be_text_with_a_slash_witness :
  parse_ref (processor_of pet_doc) 50 10 VNone (store_of pet_doc) = Raise AttributeError
  /\ parse_ref (processor_of pet_doc) 50 10 (VStr "Pet") (store_of pet_doc)
     = Raise IndexError.
Proof.
  split.
  - apply (proj1 (pointer_must_be_text_with_a_slash (processor_of pet_doc) 50 9
                    (store_of pet_doc))).
    discriminate.
  - apply (proj2 (pointer_must_be_text_with_a_slash (processor_of pet_doc) 50 9
                    (store_of pet_doc))).
    reflexivity.
Defined.

(** Starts the resolution of [#/c/n]. *)
Ltac locate c n Hc Hn :=
  cbn [parse_ref]; rewrite (split_slash_pointer c n Hc Hn);
  rewrite (bind_eq (ret [c; n]) _ _ _ _ eq_refl); cbv beta;
  change (last [c; n]) with (Some n);
  change (nth_part [c; n] 0) with (@ret string c);
  change (nth_part [c; n] 1) with (@ret string n).

(** X4.  A pointer [#/c/n] that leads nowhere raises [KeyError]: when the
    document has no entry [c]; when the container [c] has no entry [n]; and
    also when [n] is there but is the empty schema, because an empty dict is
    false and the code then looks for [n] inside [n]. *)
Theorem dangling_pointer_raises_KeyError (self : SwaggerProcessor) (gas depth : nat)
    (h : store) (c n : string) (root : list (string * val)) :
  no_slash c = true -> no_slash n = true ->
  deref h (swagger_json_data self) = Some (ODict root) ->
  (dict_get c root = None ->
   parse_ref self gas (S depth) (VStr (pointer c n)) h = Raise KeyError)
  /\ (forall lc dc,
        dict_get c root = Some (VLoc lc) -> h !! lc = Some (ODict dc) ->
        (dict_get n dc = None ->
         parse_ref self gas (S depth) (VStr (pointer c n)) h = Raise KeyError)
        /\ (forall ls,
              dict_get n dc = Some (VLoc ls) -> h !! ls = Some (ODict []) ->
              parse_ref self gas (S depth) (VStr (pointer c n)) h = Raise KeyError)).
Proof.
  intros Hc Hn Hroot. split; [| intros lc dc Hlc Hdc; split; [| intros ls Hls Hempty]];
    try intros Hnone; locate c n Hc Hn;
    unfold bind, ret, py_getitem, py_get, py_get_default, truthy_m; cbv beta iota;
    rewrite Hroot.
  - rewrite Hnone. reflexivity.
  - rewrite Hlc. simpl. rewrite Hdc, Hnone. simpl. rewrite Hdc, Hnone. reflexivity.
  - rewrite Hlc. simpl. rewrite Hdc, Hls. simpl. rewrite Hempty, Hdc, Hls. simpl.
    rewrite Hempty. reflexivity.
Qed.

Lemma dangling_pointer_raises_KeyError_witness :
  parse_ref (processor_of status_doc) 50 10 (VStr "#/components/Status")
    (store_of status_doc) = Raise KeyError
  /\ parse_ref (processor_of status_doc) 50 10 (VStr "#/definitions/Nope")
       (store_of status_doc) = Raise KeyError
  /\ parse_ref (processor_of status_doc) 50 10 (VStr "#/definitions/Empty")
       (store_of status_doc) = Raise KeyError.
Proof.
  with_dict (store_of status_doc) (root_of status_doc) ltac:(fun l root =>
    split; [| split];
    [ exact (proj1 (dangling_pointer_raises_KeyError (processor_of status_doc) 50 9
                      (store_of status_doc) "components" "Status" root
                      eq_refl eq_refl eq_refl) eq_refl)
    | edestruct (proj2 (dangling_pointer_raises_KeyError (processor_of status_doc) 50 9
                          (store_of status_doc) "definitions" "Nope" root
                          eq_refl eq_refl eq_refl)) as [H _];
      [reflexivity | reflexivity | exact (H eq_refl)]
    | edestruct (proj2 (dangling_pointer_raises_KeyError (processor_of status_doc) 50 9
                          (store_of status_doc) "definitions" "Empty" root
                          eq_refl eq_refl eq_refl)) as [_ H];
      [reflexivity | reflexivity | eapply H; reflexivity] ]).
Defined.


(** ** Reading a tree after a write to its root *)

Lemma snapshot_more (h : store) :
  forall n v j, snapshot n h v = Some j ->
  forall n', n <= n' -> snapshot n' h v = Some j.
Proof.
  induction n as [| n IH]; intros v j H n' Hle.
  - destruct v; simpl in H; try discriminate H; destruct n'; exact H.
  - destruct n' as [| n']; [lia |]. destruct v; try exact H.
    simpl in *. destruct (h !! l) as [[d | xs] |]; [| | discriminate H].
    + apply fmap_Some in H as (kvs & Hm & ->). apply fmap_Some.
      exists kvs. split; [| reflexivity].
      apply mapM_Some. apply mapM_Some in Hm. eapply Forall2_impl; [exact Hm |].
      intros kv kj Hx. simpl in *. apply fmap_Some in Hx as (t & Ht & ->).
      rewrite (IH _ _ Ht n'); [reflexivity | lia].
    + apply fmap_Some in H as (js & Hm & ->). apply fmap_Some.
      exists js. split; [| reflexivity].
      apply mapM_Some. apply mapM_Some in Hm. eapply Forall2_impl; [exact Hm |].
      intros x t Ht. apply (IH _ _ Ht n'). lia.
Qed.

Lemma reads_as_unique (h : store) (v : val) (j1 j2 : json) :
  reads_as h v j1 -> reads_as h v j2 -> j1 = j2.
Proof.
  intros [n1 H1] [n2 H2].
  pose proof (snapshot_more h n1 v j1 H1 (n1 + n2)) as E1.
  pose proof (snapshot_more h n2 v j2 H2 (n1 + n2)) as E2.
  rewrite E1 in E2 by lia. injection E2; [auto | lia].
Qed.

Lemma Forall2_impl_In {A B} (P Q : A -> B -> Prop) (l : list A) (k : list B) :
  Forall2 P l k -> (forall x y, In y k -> P x y -> Q x y) -> Forall2 Q l k.
Proof.
  induction 1 as [| x y l k Hxy _ IH]; intros HPQ; constructor.
  - apply HPQ; [left; reflexivity | exact Hxy].
  - apply IH. intros x' y' Hin. apply HPQ. right. exact Hin.
Qed.

Lemma json_size_in_forest (t : json) (js : list json) :
  In t js -> json_size t <= forest_size js.
Proof.
  induction js as [| j r IH]; [intros [] |].
  intros [<- | H]; simpl; [lia |]. specialize (IH H). lia.
Qed.

(** A write to the root of a tree is not seen from below the root. *)
Lemma snapshot_frame (h : store) (l : loc) (o : obj) (j : json) :
  reads_as h (VLoc l) j ->
  forall n v t,
    snapshot n h v = Some t -> json_size t < json_size j ->
    snapshot n (<[l := o]> h) v = Some t.
Proof.
  intros Hroot. induction n as [| n IH]; intros v t H Hlt.
  - destruct v; simpl in *; try exact H.
  - destruct v as [| b | z | s | l0]; try exact H.
    destruct (decide (l0 = l)) as [-> | Hne].
    + assert (t = j) by (eapply reads_as_unique; [exists (S n); exact H | exact Hroot]).
      subst t. lia.
    + simpl in H |- *. rewrite list_lookup_insert_ne by congruence.
      destruct (h !! l0) as [[d | xs] |]; [| | discriminate H].
      * apply fmap_Some in H as (kvs & Hm & ->). apply fmap_Some.
        exists kvs. split; [| reflexivity].
        apply mapM_Some. apply mapM_Some in Hm.
        rewrite json_size_dict in Hlt.
        eapply Forall2_impl_In; [exact Hm |].
        intros kv kj Hin Hx. simpl in *. apply fmap_Some in Hx as (t & Ht & ->).
        rewrite (IH _ _ Ht); [reflexivity |].
        pose proof (json_size_in_forest t (map snd kvs)
                      (in_map snd kvs (kv.1, t) Hin)).
        lia.
      * apply fmap_Some in H as (js & Hm & ->). apply fmap_Some.
        exists js. split; [| reflexivity].
        apply mapM_Some. apply mapM_Some in Hm.
        rewrite json_size_list in Hlt.
        eapply Forall2_impl_In; [exact Hm |].
        intros x t Hin Ht. apply (IH _ _ Ht).
        pose proof (json_size_in_forest t js Hin). lia.
Qed.

(** Deleting a key from the dict at the root deletes it from the top of the
    tree, and leaves the rest of the tree as it was. *)
Lemma reads_as_del_top (h : store) (l : loc) (d : list (string * val))
    (kvs : list (string * json)) (k : string) :
  h !! l = Some (ODict d) ->
  reads_as h (VLoc l) (JDict kvs) ->
  reads_as (<[l := ODict (dict_del k d)]> h) (VLoc l) (JDict (dict_del k kvs)).
Proof.
  intros Hl Hr. pose proof Hr as [[| n] H]; [discriminate H |].
  simpl in H. rewrite Hl in H.
  apply fmap_Some in H as (kvs' & Hm & [= <-]). apply mapM_Some in Hm.
  exists (S n). simpl.
  rewrite list_lookup_insert_eq by (eapply lookup_lt_Some; exact Hl).
  apply fmap_Some. eexists. split; [| reflexivity]. apply mapM_Some.
  remember (<[l := ODict (dict_del k d)]> h) as h1 eqn:Eh1.
  assert (Hall : Forall2 (fun kv kj => pair kv.1 <$> snapshot n h1 kv.2 = Some kj) d kvs).
  { eapply Forall2_impl_In; [exact Hm |].
    intros kv kj Hin Hx. simpl in *. apply fmap_Some in Hx as (t & Ht & ->).
    subst h1. rewrite (snapshot_frame h l _ (JDict kvs) Hr n _ t Ht); [reflexivity |].
    rewrite json_size_dict.
    pose proof (json_size_in_forest t (map snd kvs) (in_map snd kvs (kv.1, t) Hin)).
    lia. }
  clear -Hall. induction Hall as [| [k1 v] [k2 t] d0 kvs0 Hx Htl IH]; simpl; [constructor |].
  simpl in Hx. apply fmap_Some in Hx as (t' & Ht & [= ? ?]). subst k2 t'.
  destruct (String.eqb k1 k); [assumption |].
  constructor; [| exact IH]. simpl. rewrite Ht. reflexivity.
Qed.

Lemma dict_get_del_ne {A} (k k' : string) (d : list (string * A)) :
  k <> k' -> dict_get k (dict_del k' d) = dict_get k d.
Proof.
  intros Hne. induction d as [| [k1 v] r IH]; simpl; [reflexivity |].
  destruct (String.eqb_spec k1 k') as [-> | H1]; simpl.
  - destruct (String.eqb_spec k' k) as [-> | _]; [congruence | reflexivity].
  - rewrite IH. reflexivity.
Qed.

Lemma dict_del_absent {A} (k : string) (d : list (string * A)) :
  dict_get k d = None -> dict_del k d = d.
Proof.
  induction d as [| [k1 v] r IH]; simpl; [reflexivity |].
  destruct (String.eqb k1 k); [discriminate |]. intros H. now rewrite IH.
Qed.

Lemma json_size_dict_del (k : string) (kvs : list (string * json)) :
  json_size (JDict (dict_del k kvs)) <= json_size (JDict kvs).
Proof.
  rewrite !json_size_dict. apply le_n_S.
  induction kvs as [| [k1 v] r IH]; simpl; [lia |].
  destruct (String.eqb k1 k); simpl; lia.
Qed.

(** X5.  Resolving a pointer to a schema without [properties] that holds no
    pointer of its own (apart, possibly, from inside its [xml] entry)
    returns that very node of the document.  Afterwards the node reads as
    the schema without its top-level [xml] entry, and no other object of the
    document was written to.  Stated for the denylist that [__init__] sets,
    and for gas enough for every value of the schema. *)
Theorem leaf_schema_resolves_to_itself (self : SwaggerProcessor) (gas depth : nat)
    (h : store) (c n : string) (root : list (string * val))
    (lc : loc) (dc : list (string * val)) (ls : loc) (kvs : list (string * json)) :
  schema_useless_keys self = ["xml"] ->
  no_slash c = true -> no_slash n = true ->
  deref h (swagger_json_data self) = Some (ODict root) ->
  dict_get c root = Some (VLoc lc) -> h !! lc = Some (ODict dc) ->
  dict_get n dc = Some (VLoc ls) ->
  reads_as h (VLoc ls) (JDict kvs) -> kvs <> [] ->
  default JNull (dict_get "properties" kvs) = JNull ->
  has_key "$ref" (JDict (dict_del "xml" kvs)) = false ->
  json_size (JDict kvs) <= gas ->
  exists h',
    parse_ref self gas (S depth) (VStr (pointer c n)) h = Done (VLoc ls, h')
    /\ reads_as h' (VLoc ls) (JDict (dict_del "xml" kvs))
    /\ forall l, l <> ls -> h' !! l = h !! l.
Proof.
  intros Hkeys Hc Hn Hroot Hlc Hdc Hls Hr Hne Hprops Hnoref Hgas.
  pose proof Hr as Hr0.
  apply reads_as_loc in Hr0 as [(d & kvs' & Hl & [= <-] & Hd) | (xs & js & _ & [=] & _)].
  assert (Hd_ne : d <> []).
  { intros ->. inversion Hd. congruence. }
  set (h' := if dict_mem "xml" d then <[ls := ODict (dict_del "xml" d)]> h else h).
  assert (Hr' : reads_as h' (VLoc ls) (JDict (dict_del "xml" kvs))).
  { unfold h'. destruct (dict_mem "xml" d) eqn:Hmem.
    - apply reads_as_del_top; assumption.
    - pose proof (dict_get_reads_as h "xml" d kvs Hd) as Hx.
      unfold dict_mem in Hmem.
      destruct (dict_get "xml" kvs) as [jx |] eqn:Ex.
      + destruct Hx as (vx & Evx & _). rewrite Evx in Hmem. discriminate Hmem.
      + rewrite (dict_del_absent "xml" kvs Ex). exact Hr. }
  assert (Hframe : forall l, l <> ls -> h' !! l = h !! l).
  { intros l Hl'. unfold h'. destruct (dict_mem "xml" d); [| reflexivity].
    apply list_lookup_insert_ne. congruence. }
  exists h'. split; [| split; assumption].
  pose proof Hr' as Hr1.
  apply reads_as_loc in Hr1 as [(d' & kvs' & Hl' & [= <-] & Hd') | (xs & js & _ & [=] & _)].
  assert (E1 : py_getitem (swagger_json_data self) c h = Done (VLoc lc, h)).
  { unfold py_getitem. rewrite Hroot, Hlc. reflexivity. }
  assert (E2 : py_get (VLoc lc) n h = Done (VLoc ls, h)).
  { unfold py_get, py_get_default. simpl. rewrite Hdc, Hls. reflexivity. }
  assert (E3 : truthy_m (VLoc ls) h = Done (true, h)).
  { unfold truthy_m. simpl. rewrite Hl. destruct d; [congruence | reflexivity]. }
  assert (E4 : py_getitem (VLoc lc) n h = Done (VLoc ls, h)).
  { unfold py_getitem. simpl. rewrite Hdc, Hls. reflexivity. }
  assert (E5 : delete_useless ["xml"] (VLoc ls) h = Done (tt, h')).
  { simpl. unfold bind, py_contains, py_delitem, ret, h'. rewrite Hl.
    destruct (dict_mem "xml" d) eqn:Hmem; [rewrite Hl, Hmem |]; reflexivity. }
  assert (E6 : py_get (VLoc ls) "properties" h' = Done (VNone, h')).
  { unfold py_get, py_get_default. simpl. rewrite Hl'. f_equal. f_equal.
    pose proof (dict_get_reads_as h' "properties" d' _ Hd') as Hx.
    rewrite dict_get_del_ne in Hx by discriminate.
    destruct (dict_get "properties" kvs) as [jp |].
    - destruct Hx as (vp & -> & Rp). simpl in Hprops. subst jp.
      apply reads_as_text in Rp. exact Rp.
    - rewrite Hx. reflexivity. }
  assert (E7 : find_key_in_dict gas (VLoc ls) "$ref" h' = Done (VNone, h')).
  { apply (find_key_absent gas "$ref" h' _ _ Hr' Hnoref).
    pose proof (json_size_dict_del "xml" kvs). lia. }
  assert (E8 : exists ty, py_get (VLoc ls) "type" h' = Done (ty, h')).
  { unfold py_get, py_get_default. simpl. rewrite Hl'. eauto. }
  destruct E8 as (ty & E8).
  locate c n Hc Hn. rewrite Hkeys.
  rewrite (bind_eq _ _ _ _ _ eq_refl). cbv beta.
  rewrite (bind_eq _ _ _ _ _ eq_refl). cbv beta.
  rewrite (bind_eq _ _ _ _ _ E1), (bind_eq _ _ _ _ _ E2), (bind_eq _ _ _ _ _ E3).
  rewrite (bind_eq _ _ _ _ _ E4), (bind_eq _ _ _ _ _ E5), (bind_eq _ _ _ _ _ E6).
  cbn [is_none].
  rewrite (bind_eq _ _ _ _ _ E7). unfold truthy_m at 1.
  rewrite (bind_eq _ _ _ _ _ eq_refl). cbn [truthy].
  rewrite (bind_eq (ret _) _ _ _ _ eq_refl).
  rewrite (bind_eq _ _ _ _ _ E8).
  destruct (eq_str ty "array").
  - rewrite (bind_eq _ (fun _ => ret (VLoc ls)) h' h' tt); [reflexivity |].
    rewrite (bind_eq _ _ _ _ _ E7). reflexivity.
  - reflexivity.
Qed.

Lemma leaf_schema_resolves_to_itself_witness :
  exists l h',
    parse_ref (processor_of status_doc) 50 10 (VStr "#/definitions/Status")
      (store_of status_doc) = Done (VLoc l, h')
    /\ reads_as h' (VLoc l)
         (JDict [("type", JStr "string"); ("enum", JList [JStr "on"; JStr "off"])]).
Proof.
  edestruct (leaf_schema_resolves_to_itself (processor_of status_doc) 50 9
               (store_of status_doc) "definitions" "Status")
    as (h' & Hrun & Hread & _).
  - reflexivity.
  - reflexivity.
  - reflexivity.
  - reflexivity.
  - reflexivity.
  - reflexivity.
  - reflexivity.
  - exists 10. reflexivity.
  - discriminate.
  - reflexivity.
  - reflexivity.
  - simpl. lia.
  - eexists. exists h'. split; [exact Hrun | exact Hread].
Defined.

Lemma dict_set_same {A} (k : string) (v : A) (d : list (string * A)) :
  dict_get k d = Some v -> dict_set k v d = d.
Proof.
  induction d as [| [k1 v1] r IH]; simpl; [discriminate |].
  destruct (String.eqb k1 k); [intros [= ->]; reflexivity |].
  intros H. rewrite (IH H). reflexivity.
Qed.

Lemma for_items_from_idle {A} (body : string -> val -> A -> M A) (l : loc)
    (d : list (string * val)) (h : store) (acc : A) :
  h !! l = Some (ODict d) ->
  (forall k v, In (k, v) d -> body k v acc h = Done (acc, h)) ->
  forall todo i, for_items_from body l (length d) i todo acc h = Done (acc, h).
Proof.
  intros Hl Hbody. induction todo as [| t IH]; intros i; simpl; rewrite Hl, Nat.eqb_refl.
  - reflexivity.
  - destruct (d !! i) as [[k v] |] eqn:Ei; [| reflexivity].
    unfold bind. rewrite (Hbody k v).
    + apply IH.
    + apply list_elem_of_In. eapply list_elem_of_lookup_2. exact Ei.
Qed.

(** X6.  Where no pointer is involved, resolution changes nothing.
    Resolving a pointer to an object schema that has no denylisted key and
    whose properties are all plain (mappings without a pointer whose type is
    not ["array"]) returns that very node and leaves the document exactly as
    it was, for any gas and any depth of at least one call. *)
Theorem plain_object_schema_resolves_to_itself (self : SwaggerProcessor)
    (gas depth : nat) (h : store) (c n : string) (root : list (string * val))
    (lc : loc) (dc : list (string * val)) (ls : loc) (d : list (string * val))
    (lp : loc) (props : list (string * val)) :
  no_slash c = true -> no_slash n = true ->
  deref h (swagger_json_data self) = Some (ODict root) ->
  dict_get c root = Some (VLoc lc) -> h !! lc = Some (ODict dc) ->
  dict_get n dc = Some (VLoc ls) -> h !! ls = Some (ODict d) ->
  Forall (fun ukey => dict_get ukey d = None) (schema_useless_keys self) ->
  dict_get "properties" d = Some (VLoc lp) -> h !! lp = Some (ODict props) ->
  Forall (fun kv => plain_property h (snd kv)) props ->
  parse_ref self gas (S depth) (VStr (pointer c n)) h = Done (VLoc ls, h).
Proof.
  intros Hc Hn Hroot Hlc Hdc Hls Hl Hkeys Hprops Hlp Hplain.
  assert (Hne : d <> []) by (intros ->; discriminate Hprops).
  assert (E1 : py_getitem (swagger_json_data self) c h = Done (VLoc lc, h)).
  { unfold py_getitem. rewrite Hroot, Hlc. reflexivity. }
  assert (E2 : py_get (VLoc lc) n h = Done (VLoc ls, h)).
  { rewrite (py_get_dict h lc dc n Hdc), Hls. reflexivity. }
  assert (E3 : truthy_m (VLoc ls) h = Done (true, h)).
  { unfold truthy_m. simpl. rewrite Hl. destruct d; [congruence | reflexivity]. }
  assert (E4 : py_getitem (VLoc lc) n h = Done (VLoc ls, h)).
  { unfold py_getitem. simpl. rewrite Hdc, Hls. reflexivity. }
  assert (E5 : delete_useless (schema_useless_keys self) (VLoc ls) h = Done (tt, h)).
  { induction Hkeys as [| ukey r Hu _ IH]; simpl; [reflexivity |].
    unfold bind at 1. unfold py_contains. rewrite Hl. unfold dict_mem. rewrite Hu.
    unfold bind at 1. simpl. exact IH. }
  assert (E6 : py_get (VLoc ls) "properties" h = Done (VLoc lp, h)).
  { rewrite (py_get_dict h ls d "properties" Hl), Hprops. reflexivity. }
  assert (E7 : for_items (VLoc lp) tt (fun k v _ =>
                 let* r := py_get v "$ref" in
                 let* has_ref := truthy_m r in
                 if has_ref then
                   let* r := py_getitem v "$ref" in
                   let* item := parse_ref self gas depth r in
                   py_setitem (VLoc lp) k item
                 else
                   let* property_type := py_get v "type" in
                   if eq_str property_type "array" then
                     let* items := py_getitem v "items" in
                     let* r := py_get items "$ref" in
                     let* has_ref := truthy_m r in
                     if has_ref then
                       let* r := py_getitem items "$ref" in
                       let* item := parse_ref self gas depth r in
                       py_setitem (VLoc lp) k item
                     else ret tt
                   else ret tt) h = Done (tt, h)).
  { unfold for_items. simpl. rewrite Hlp.
    apply (for_items_from_idle _ lp props h tt Hlp).
    intros k v Hin. rewrite List.Forall_forall in Hplain.
    destruct (Hplain (k, v) Hin) as (lv & dv & Hv & Hlv & Href & Hty). simpl in Hv.
    subst v. step (py_get_dict h lv dv "$ref" Hlv).
    unfold truthy_m at 1. rewrite (bind_eq _ _ _ _ _ eq_refl). rewrite Href.
    step (py_get_dict h lv dv "type" Hlv). rewrite Hty. reflexivity. }
  assert (E8 : py_setitem (VLoc ls) "properties" (VLoc lp) h = Done (tt, h)).
  { unfold py_setitem. rewrite Hl. rewrite (dict_set_same _ _ _ Hprops).
    rewrite (list_insert_id _ _ _ Hl). reflexivity. }
  locate c n Hc Hn.
  rewrite (bind_eq _ _ _ _ _ eq_refl). cbv beta.
  rewrite (bind_eq _ _ _ _ _ eq_refl). cbv beta.
  step E1. step E2. step E3. step E4. step E5. step E6. cbn [is_none].
  step E7. step E8. reflexivity.
Qed.

Lemma plain_object_schema_resolves_to_itself_witness :
  exists l,
    parse_ref (processor_of pet_doc) 0 1 (VStr "#/definitions/Tag") (store_of pet_doc)
    = Done (VLoc l, store_of pet_doc)
    /\ reads_as (store_of pet_doc) (VLoc l) tag_schema.
Proof.
  eexists. split.
  - eapply (plain_object_schema_resolves_to_itself (processor_of pet_doc) 0 0
              (store_of pet_doc) "definitions" "Tag").
    + reflexivity.
    + reflexivity.
    + reflexivity.
    + reflexivity.
    + reflexivity.
    + reflexivity.
    + reflexivity.
    + repeat constructor.
    + reflexivity.
    + reflexivity.
    + repeat constructor. do 2 eexists. repeat split; reflexivity.
  - exists 10. reflexivity.
Defined.


(** ** Responses *)

Lemma parse_ref_returns_loc (self : SwaggerProcessor) (gas depth : nat)
    (ref_path v : val) (h h' : store) :
  parse_ref self gas depth ref_path h = Done (v, h') ->
  exists l d, v = VLoc l /\ h' !! l = Some (ODict d).
Proof.
  intros H. destruct (parse_ref_returns_dict _ _ _ _ _ _ _ H) as (_ & l & d & d' & ? & _ & ?).
  eauto.
Qed.

(** X7.  The [return_schema] of a [Response] that [__parse_responses]
    builds: the code is the key of the entry; when the search for [type] in
    the entry returns ["array"], the schema's type is ["array"] (and [items]
    is what the pointer resolved to); for any other result of the search the
    schema has no [items] and its type is never a string: a type such as
    ["string"] or ["object"] found in the entry is dropped in favour of the
    resolved schema, or of [None]. *)
Theorem response_type_is_array_or_resolved (self : SwaggerProcessor) (gas depth : nat)
    (http_code : string) (response_data : val) (h : store) (r : Response) (h' : store) :
  parse_response self gas depth http_code response_data h = Done (r, h') ->
  exists out_type rs,
    find_key_in_dict gas response_data "type" h = Done (out_type, h)
    /\ Response_code r = http_code
    /\ Response_return_schema r = Some rs
    /\ if eq_str out_type "array"
       then ResponseSchema_type rs = Some (AsStr "array")
       else ResponseSchema_items rs = None
            /\ forall s, ResponseSchema_type rs <> Some (AsStr s).
Proof.
  unfold parse_response. intros H.
  apply bind_Done in H as (ref & h1 & Eref & H).
  pose proof (find_key_keeps_store _ _ _ _ _ _ Eref) as ->.
  apply bind_Done in H as (out_type & h2 & Etype & H).
  pose proof (find_key_keeps_store _ _ _ _ _ _ Etype) as ->.
  apply bind_Done in H as (parsed0 & h3 & E0 & H).
  apply bind_Done in H as (any_ref & h4 & Eany & H).
  apply bind_Done in H as (more & h5 & Emore & H).
  apply bind_Done in H as (parsed & h6 & Eparsed & H).
  apply bind_Done in H as (ty & h7 & Ety & H).
  apply bind_Done in H as (items & h8 & Eitems & H).
  apply bind_Done in H as (descr0 & h9 & Ed0 & H).
  apply bind_Done in H as (descr & h10 & Ed & H).
  unfold ret in H. injection H as <- _.
  exists out_type. eexists. split; [exact Etype |]. split; [reflexivity |].
  split; [reflexivity |]. simpl.
  assert (Hparsed : parsed = VNone \/ exists l, parsed = VLoc l).
  { destruct more.
    - apply parse_ref_returns_loc in Eparsed as (l & d & -> & _). eauto.
    - unfold ret in Eparsed. injection Eparsed as <- _.
      destruct (negb (is_none ref)).
      + apply parse_ref_returns_loc in E0 as (l & d & -> & _). eauto.
      + unfold ret in E0. injection E0 as <- _. auto. }
  destruct (eq_str out_type "array") eqn:Harr.
  - destruct out_type; try discriminate Harr. simpl in Harr.
    apply String.eqb_eq in Harr as ->.
    unfold as_opt_str_or_dict, as_str_or_dict, bind, ret in Ety.
    injection Ety as <- _. reflexivity.
  - split.
    + unfold as_opt_dict, ret in Eitems. injection Eitems as <- _. reflexivity.
    + intros s Hs. subst ty.
      destruct Hparsed as [-> | (l & ->)];
        unfold as_opt_str_or_dict, as_str_or_dict, bind, ret in Ety;
        [discriminate Ety |].
      destruct (as_dict (VLoc l) _) as [[? ?] | |]; discriminate Ety.
Qed.

Lemma response_type_is_array_or_resolved_witness :
  exists r h' rs,
    parse_response (processor_of pet_doc) 50 10 "200" (root_beside_pet tags_response)
      (store_beside_pet tags_response) = Done (r, h')
    /\ Response_code r = "200"
    /\ Response_return_schema r = Some rs
    /\ ResponseSchema_type rs = Some (AsStr "array").
Proof.
  let run := eval vm_compute in
    (parse_response (processor_of pet_doc) 50 10 "200" (root_beside_pet tags_response)
       (store_beside_pet tags_response)) in
  lazymatch run with
  | Done (?r, ?h1) =>
      destruct (response_type_is_array_or_resolved (processor_of pet_doc) 50 10 "200"
                  (root_beside_pet tags_response) (store_beside_pet tags_response)
                  r h1 eq_refl)
        as (out_type & rs & Etype & Ecode & Ers & Hty);
      exists r, h1, rs
  end.
  vm_compute in Etype. injection Etype as <-.
  repeat split; assumption.
Defined.

(** ** One model for every declared entry *)

Lemma for_items_from_length {B} (body : string -> val -> list B -> M (list B))
    (l : loc) (len : nat) :
  (forall k v acc h acc' h',
      body k v acc h = Done (acc', h') -> length acc' = S (length acc)) ->
  forall todo i acc h acc' h',
    for_items_from body l len i todo acc h = Done (acc', h') ->
    i + todo = len ->
    length acc' = length acc + todo.
Proof.
  intros Hbody. induction todo as [| t IH]; intros i acc h acc' h' H Hi; simpl in H;
    destruct (h !! l) as [[d | xs] |]; try discriminate H;
    destruct (Nat.eqb_spec (length d) len) as [Hlen | _]; try discriminate H.
  - injection H as <- _. lia.
  - destruct (d !! i) as [[k v] |] eqn:Ei.
    + apply bind_Done in H as (acc1 & h1 & Hb & H).
      apply IH in H; [| lia]. apply Hbody in Hb. lia.
    + apply lookup_ge_None in Ei. lia.
Qed.

Lemma parse_response_code (self : SwaggerProcessor) (gas depth : nat)
    (http_code : string) (response_data : val) (h : store) (r : Response) (h' : store) :
  parse_response self gas depth http_code response_data h = Done (r, h') ->
  Response_code r = http_code.
Proof.
  unfold parse_response. intros H.
  do 10 (apply bind_Done in H as (? & ? & _ & H)).
  unfold ret in H. injection H as <- _. reflexivity.
Qed.

Section Entries.
Variable self : SwaggerProcessor.
Variables gas depth : nat.

Lemma parse_responses_codes (l : loc) (ks : list string) :
  write_closed (schema_useless_keys self) (keys_are l ks) ->
  forall todo i acc h rs h',
    keys_are l ks h ->
    i + todo = length ks ->
    for_items_from
      (fun http_code response_data parsed_responses =>
         let* r := parse_response self gas depth http_code response_data in
         ret (parsed_responses ++ [r]))
      l (length ks) i todo acc h = Done (rs, h') ->
    map Response_code rs = map Response_code acc ++ drop i ks.
Proof.
  intros W. induction todo as [| t IH]; intros i acc h rs h' (d & Hl & Hd) Hi H;
    simpl in H; rewrite Hl in H;
    destruct (Nat.eqb (length d) (length ks)); try discriminate H.
  - injection H as <- _. rewrite drop_ge by lia. rewrite app_nil_r. reflexivity.
  - destruct (d !! i) as [[k v] |] eqn:Ei.
    + apply bind_Done in H as (acc1 & h1 & Hb & H).
      apply bind_Done in Hb as (r & h2 & Hr & Hb).
      unfold ret in Hb. injection Hb as <- <-.
      assert (Hk : ks !! i = Some k).
      { rewrite <- Hd, list_lookup_fmap, Ei. reflexivity. }
      destruct (keeps_parse_response self gas _ W depth k v h r h2
                  (ex_intro _ d (conj Hl Hd)) Hr) as [Hkeys _].
      rewrite (IH (S i) _ h2 rs h' Hkeys ltac:(lia) H).
      rewrite map_app. simpl. rewrite (parse_response_code _ _ _ _ _ _ _ _ Hr).
      rewrite <- app_assoc. simpl. rewrite (drop_S _ _ _ Hk). reflexivity.
    + apply lookup_ge_None in Ei. apply (f_equal length) in Hd.
      rewrite length_map in Hd. lia.
Qed.

Hypothesis Hname : ~ In "name" (schema_useless_keys self).

Lemma write_closed_named (lx : loc) (n : string) :
  write_closed (schema_useless_keys self) (named lx n).
Proof.
  apply write_closed_and.
  - apply write_closed_entry; [reflexivity | exact Hname | discriminate].
  - apply write_closed_absent. discriminate.
Qed.

Lemma keeps_truthy_fact (I : store -> Prop) (v : val) :
  keeps I (truthy_m v) (fun b => exists h, I h /\ b = truthy h v).
Proof.
  apply (keeps_read I (truthy_m v) (fun h b => b = truthy h v)).
  intros h a h' H. unfold truthy_m in H. injection H as <- <-. auto.
Qed.

Lemma parse_parameter_name (lx : loc) (n : string) :
  keeps (named lx n) (parse_parameter self gas depth (VLoc lx))
    (fun p => Parameter_name p = n).
Proof.
  pose proof (write_closed_named lx n) as W.
  pose proof (keeps_parse_ref self gas _ W depth) as Href.
  unfold parse_parameter, get_with_schema_fallback. cbv zeta.
  kp_bind.
  eapply (keeps_bind _ _ _ (fun p' => p' = VLoc lx)).
  { lazymatch goal with
    | |- keeps _ (if ?c then _ else _) _ => destruct c
    end; [| apply keeps_ret].
    eapply keeps_bind;
      [apply keeps_get | intros r (h0 & d0 & [_ (d1 & Hl1 & Habs)] & Hd0 & ->)].
    simpl in Hd0. rewrite Hl1 in Hd0. injection Hd0 as <-. rewrite Habs.
    eapply keeps_bind; [apply keeps_truthy_fact | intros b (h1 & _ & ->)].
    apply keeps_ret. }
  intros p' ->.
  do 7 kp_bind.
  eapply keeps_bind;
    [apply keeps_get | intros name (h0 & d0 & [(d1 & Hl1 & _ & Hn) _] & Hd0 & ->)].
  simpl in Hd0. rewrite Hl1 in Hd0. injection Hd0 as <-. rewrite Hn.
  do 5 kp_bind.
  eapply keeps_bind; [apply keeps_ret | intros name' ->].
  do 9 kp_bind.
  eapply keeps_weaken; [apply keeps_ret | intros p ->; reflexivity].
Qed.

Lemma parse_parameters_names :
  forall params acc h ps h',
    parse_parameters_loop self gas depth params acc h = Done (ps, h') ->
    exists new,
      ps = acc ++ new
      /\ Forall2 (fun p x => forall lx n, x = VLoc lx -> named lx n h ->
                                         Parameter_name p = n) new params.
Proof.
  induction params as [| x r IH]; simpl; intros acc h ps h' H.
  - unfold ret in H. injection H as <- _. exists []. rewrite app_nil_r.
    split; [reflexivity | constructor].
  - apply bind_Done in H as (p & h1 & Hp & H).
    destruct (IH _ _ _ _ H) as (new & -> & Hnew).
    exists (p :: new). rewrite <- app_assoc. split; [reflexivity |].
    constructor.
    + intros lx n -> Hn. exact (proj2 (parse_parameter_name lx n h p h1 Hn Hp)).
    + eapply Forall2_impl; [exact Hnew |].
      intros p' x' Hx' lx n -> Hn. apply (Hx' lx n eq_refl).
      exact (proj1 (keeps_parse_parameter self gas _ (write_closed_named lx n)
                      depth x h p h1 Hn Hp)).
Qed.

End Entries.

(** X8.  Which model belongs to which entry.  When [__parse_responses]
    returns it has built one [Response] per entry of the mapping; for a
    mapping whose keys are status codes (none is [type] or a key of the
    denylist) the codes of the [Response]s are the keys of the mapping, in
    its order.  When [__parse_parameters] returns it has built one
    [Parameter] per declared parameter, in the order of the list: for a
    declared parameter that is a mapping (with unique keys) without a [$ref]
    key whose [name] is a string, the [Parameter] at the same position has
    that name ([name] not being on the denylist). *)
Theorem one_model_per_entry (self : SwaggerProcessor) (gas depth : nat) (l : loc)
    (h : store) :
  (forall d rs h',
      h !! l = Some (ODict d) ->
      parse_responses self gas depth (VLoc l) h = Done (rs, h') ->
      length rs = length d
      /\ ((forall u, In u (schema_useless_keys self) -> ~ In u (map fst d)) ->
          ~ In "type" (map fst d) ->
          map Response_code rs = map fst d))
  /\ (forall xs ps h',
        h !! l = Some (OList xs) ->
        parse_parameters self gas depth (VLoc l) h = Done (ps, h') ->
        length ps = length xs
        /\ (~ In "name" (schema_useless_keys self) ->
            Forall2
              (fun p x =>
                 forall lx dx n,
                   x = VLoc lx -> h !! lx = Some (ODict dx) -> NoDup (map fst dx) ->
                   dict_get "$ref" dx = None -> dict_get "name" dx = Some (VStr n) ->
                   Parameter_name p = n)
              ps xs)).
Proof.
  split.
  - intros d rs h' Hl H. split.
    + unfold parse_responses, for_items in H. simpl in H. rewrite Hl in H.
      apply for_items_from_length in H; [exact H | | lia].
      intros k v acc h0 acc' h0' Hb. apply bind_Done in Hb as (r & h1 & _ & Hb).
      unfold ret in Hb. injection Hb as <- _. rewrite length_app. simpl. lia.
    + intros Hu Hty. unfold parse_responses, for_items in H. simpl in H.
      rewrite Hl in H.
      pose proof (write_closed_keys _ l (map fst d) Hu Hty) as W.
      rewrite <- (length_map fst d) in H.
      apply (parse_responses_codes self gas depth l (map fst d) W) in H.
      * exact H.
      * exists d. auto.
      * lia.
  - intros xs ps h' Hl H. unfold parse_parameters in H.
    apply bind_Done in H as (params & h1 & Hiter & H).
    unfold py_iter in Hiter. rewrite Hl in Hiter. injection Hiter as <- <-.
    split.
    + assert (Hloop : forall params acc h0 ps0 h0',
                 parse_parameters_loop self gas depth params acc h0 = Done (ps0, h0') ->
                 length ps0 = length acc + length params).
      { induction params as [| x r IH]; simpl; intros acc h0 ps0 h0' Hrun.
        - unfold ret in Hrun. injection Hrun as <- _. lia.
        - apply bind_Done in Hrun as (p & h1 & _ & Hrun). apply IH in Hrun.
          rewrite length_app in Hrun. simpl in Hrun. lia. }
      apply Hloop in H. exact H.
    + intros Hname.
      destruct (parse_parameters_names self gas depth Hname _ _ _ _ _ H)
        as (new & -> & Hnew).
      simpl. eapply Forall2_impl; [exact Hnew |].
      intros p x Hx lx dx n -> Hlx Hdx Href Hn. apply (Hx lx n eq_refl).
      split; exists dx; auto.
Qed.

Lemma one_model_per_entry_witness :
  (exists rs h',
      parse_responses (processor_of pet_doc) 50 10 (root_beside_pet tags_responses)
        (store_beside_pet tags_responses) = Done (rs, h')
      /\ length rs = 2
      /\ map Response_code rs = ["200"; "204"])
  /\ (exists p1 p2 h',
        parse_parameters (processor_of pet_doc) 50 10
          (root_beside_pet (JList [limit_parameter; name_parameter]))
          (store_beside_pet (JList [limit_parameter; name_parameter]))
        = Done ([p1; p2], h')
        /\ Parameter_name p1 = "limit"
        /\ Parameter_name p2 = "name").
Proof.
  split.
  - let run := eval vm_compute in
      (parse_responses (processor_of pet_doc) 50 10 (root_beside_pet tags_responses)
         (store_beside_pet tags_responses)) in
    lazymatch run with
    | Done (?rs, ?h1) =>
        exists rs, h1; split; [reflexivity |];
        with_dict (store_beside_pet tags_responses) (root_beside_pet tags_responses)
          ltac:(fun l d =>
            destruct (proj1 (one_model_per_entry (processor_of pet_doc) 50 10 l
                               (store_beside_pet tags_responses))
                        d rs h1 eq_refl eq_refl) as [Hlen Hcodes])
    end.
    split; [exact Hlen |]. apply Hcodes.
    + intros u Hu. cbn in Hu. destruct Hu as [<- | []].
      cbn. intros [H | [H | []]]; discriminate H.
    + cbn. intros [H | [H | []]]; discriminate H.
  - let run := eval vm_compute in
      (parse_parameters (processor_of pet_doc) 50 10
         (root_beside_pet (JList [limit_parameter; name_parameter]))
         (store_beside_pet (JList [limit_parameter; name_parameter]))) in
    lazymatch run with
    | Done ([?p1; ?p2], ?h1) =>
        exists p1, p2, h1; split; [reflexivity |];
        with_list (store_beside_pet (JList [limit_parameter; name_parameter]))
          (root_beside_pet (JList [limit_parameter; name_parameter]))
          ltac:(fun l xs =>
            destruct (proj2 (one_model_per_entry (processor_of pet_doc) 50 10 l
                               (store_beside_pet (JList [limit_parameter; name_parameter])))
                        xs [p1; p2] h1 eq_refl eq_refl) as [_ Hnames])
    end.
    assert (Hname : ~ In "name" (schema_useless_keys (processor_of pet_doc)))
      by (cbn; intros [H | []]; discriminate H).
    specialize (Hnames Hname).
    apply Forall2_cons_1 in Hnames as [H1 Hnames].
    apply Forall2_cons_1 in Hnames as [H2 _].
    split.
    + eapply H1; [reflexivity | reflexivity | | reflexivity | reflexivity].
      apply distinct_NoDup. reflexivity.
    + eapply H2; [reflexivity | reflexivity | | reflexivity | reflexivity].
      apply distinct_NoDup. reflexivity.
Defined.


(** ** Parameters *)

Lemma as_opt_str_ok (o : option val) (h : store) :
  is_opt_str o -> as_opt_str (default VNone o) h = Done (opt_str_of o, h).
Proof. destruct o as [[] |]; simpl; intros H; try contradiction; reflexivity. Qed.

Lemma as_opt_int_ok (o : option val) (h : store) :
  is_opt_int o -> as_opt_int (default VNone o) h = Done (opt_int_of o, h).
Proof. destruct o as [[] |]; simpl; intros H; try contradiction; reflexivity. Qed.

Lemma as_bool_ok (o : option val) (h : store) :
  is_opt_bool o -> as_bool (default (VBool false) o) h = Done (bool_of o, h).
Proof. destruct o as [[] |]; simpl; intros H; try contradiction; reflexivity. Qed.

Lemma fallback_without_schema (h : store) (l : loc) (d : list (string * val))
    (key : string) :
  h !! l = Some (ODict d) -> dict_get "schema" d = None ->
  get_with_schema_fallback (VLoc l) key h = Done (default VNone (dict_get key d), h).
Proof.
  intros Hl Hs. unfold get_with_schema_fallback.
  step (py_get_dict h l d key Hl).
  destruct (is_none (default VNone (dict_get key d))) eqn:E; [| reflexivity].
  step (py_get_dict h l d "schema" Hl). rewrite Hs. simpl.
  destruct (default VNone (dict_get key d)); try discriminate E. reflexivity.
Qed.

Lemma fallback_with_schema (h : store) (l ls : loc) (d ds : list (string * val))
    (key : string) :
  h !! l = Some (ODict d) -> dict_get "schema" d = Some (VLoc ls) ->
  h !! ls = Some (ODict ds) -> ds <> [] ->
  get_with_schema_fallback (VLoc l) key h
  = Done (default VNone (or_schema d ds key), h).
Proof.
  intros Hl Hs Hls Hne. unfold get_with_schema_fallback, or_schema.
  step (py_get_dict h l d key Hl).
  destruct (is_none (default VNone (dict_get key d))) eqn:E; [| reflexivity].
  step (py_get_dict h l d "schema" Hl). rewrite Hs. simpl.
  unfold truthy_m at 1. unfold bind at 1. simpl. rewrite Hls.
  destruct ds; [congruence |].
  unfold bind, py_getitem. simpl. rewrite Hl, Hs. apply (py_get_dict h ls _ key Hls).
Qed.

(** X9.  A parameter that states its type inline (a type other than
    ["array"]), with no [schema] and no pointer, is parsed without a look at
    the rest of the document, which stays as it was.  Every field of the
    [Parameter] comes from the entry of the parameter: [required] is [False]
    when absent, there are no [items], and the lower bound is read from the
    key ["mimimum"], so that a declared ["minimum"] never reaches the
    [Parameter]. *)
Theorem inline_parameter_is_read_as_declared (self : SwaggerProcessor)
    (gas depth : nat) (l : loc) (d : list (string * val)) (h : store)
    (name location type : string) :
  h !! l = Some (ODict d) ->
  dict_get "schema" d = None ->
  dict_get "$ref" d = None ->
  dict_get "type" d = Some (VStr type) ->
  type <> "array" ->
  dict_get "name" d = Some (VStr name) ->
  dict_get "in" d = Some (VStr location) ->
  is_opt_str (dict_get "description" d) ->
  is_opt_str (dict_get "format" d) ->
  is_opt_str (dict_get "pattern" d) ->
  is_opt_int (dict_get "maximum" d) ->
  is_opt_int (dict_get "mimimum" d) ->
  is_opt_int (dict_get "maxLength" d) ->
  is_opt_bool (dict_get "required" d) ->
  parse_parameter self gas depth (VLoc l) h
  = Done ({| Parameter_name := name;
             Parameter_param_location := location;
             Parameter_description := opt_str_of (dict_get "description" d);
             Parameter_type := AsStr type;
             Parameter_maximum := opt_int_of (dict_get "maximum" d);
             Parameter_mimimum := opt_int_of (dict_get "mimimum" d);
             Parameter_format := opt_str_of (dict_get "format" d);
             Parameter_items := None;
             Parameter_required := bool_of (dict_get "required" d);
             Parameter_pattern := opt_str_of (dict_get "pattern" d);
             Parameter_max_len := opt_int_of (dict_get "maxLength" d) |}, h).
Proof.
  intros Hl Hschema Href Htype Hnarr Hname Hin Hdescr Hformat Hpattern
    Hmax Hmin Hlen Hreq.
  unfold parse_parameter.
  step (py_get_dict h l d "schema" Hl). rewrite Hschema. cbn [from_option id is_none].
  rewrite bind_assoc.
  step (py_get_dict h l d "$ref" Hl). rewrite Href. cbn [from_option id].
  rewrite bind_assoc.
  unfold truthy_m at 1. rewrite (bind_eq _ _ _ _ _ eq_refl). cbn [truthy].
  rewrite (bind_eq (ret _) _ _ _ _ eq_refl).
  step (py_get_dict h l d "type" Hl). rewrite Htype. cbn [from_option id is_none].
  rewrite (bind_eq (ret _) _ _ _ _ eq_refl). cbn [is_none].
  rewrite (bind_eq (ret _) _ _ _ _ eq_refl).
  assert (eq_str (VStr type) "array" = false) as ->.
  { simpl. apply String.eqb_neq. exact Hnarr. }
  rewrite (bind_eq (ret _) _ _ _ _ eq_refl).
  step (fallback_without_schema h l d "pattern" Hl Hschema).
  step (fallback_without_schema h l d "format" Hl Hschema).
  step (fallback_without_schema h l d "maxLength" Hl Hschema).
  step (py_get_dict h l d "name" Hl). step (py_get_dict h l d "in" Hl).
  step (py_get_dict h l d "description" Hl).
  cbv zeta. cbn [is_none].
  step (py_get_dict h l d "maximum" Hl). step (py_get_dict h l d "mimimum" Hl).
  step (py_get_default_dict h l d "required" (VBool false) Hl).
  rewrite Hname, Hin. cbn [from_option id as_str as_str_or_dict].
  rewrite (bind_eq (ret _) _ _ _ _ eq_refl).
  rewrite (bind_eq (ret _) _ _ _ _ eq_refl).
  step (as_opt_str_ok _ h Hdescr).
  rewrite (bind_eq (ret _) _ _ _ _ eq_refl).
  step (as_opt_int_ok _ h Hmax). step (as_opt_int_ok _ h Hmin).
  step (as_opt_str_ok _ h Hformat). step (as_bool_ok _ h Hreq).
  step (as_opt_str_ok _ h Hpattern). step (as_opt_int_ok _ h Hlen).
  reflexivity.
Qed.

Lemma inline_parameter_is_read_as_declared_witness :
  exists p,
    parse_parameter (processor_of pet_doc) 50 10 (root_beside_pet limit_parameter)
      (store_beside_pet limit_parameter) = Done (p, store_beside_pet limit_parameter)
    /\ Parameter_type p = AsStr "integer"
    /\ Parameter_format p = Some "int32"
    /\ Parameter_maximum p = Some 50%Z
    /\ Parameter_mimimum p = None.
Proof.
  with_dict (store_beside_pet limit_parameter) (root_beside_pet limit_parameter)
    ltac:(fun l d =>
      eexists; split;
      [ exact (inline_parameter_is_read_as_declared (processor_of pet_doc) 50 10 l d
                 (store_beside_pet limit_parameter) "limit" "query" "integer"
                 eq_refl eq_refl eq_refl eq_refl ltac:(discriminate) eq_refl eq_refl
                 I I I I I I I)
      | repeat split ]).
Defined.

(** X10.  A parameter without a type of its own whose [schema] states one (a
    type other than ["array"]) gets its type from the schema, and [format],
    [pattern] and [maxLength] from the schema as well where the parameter
    does not state them itself.  The bounds [maximum] and [mimimum] are read
    from the parameter only. *)
Theorem schema_typed_parameter_falls_back_to_schema (self : SwaggerProcessor)
    (gas depth : nat) (l ls : loc) (d ds : list (string * val)) (h : store)
    (name location type : string) :
  h !! l = Some (ODict d) ->
  dict_get "schema" d = Some (VLoc ls) ->
  h !! ls = Some (ODict ds) ->
  default VNone (dict_get "type" d) = VNone ->
  dict_get "type" ds = Some (VStr type) ->
  type <> "array" ->
  dict_get "name" d = Some (VStr name) ->
  dict_get "in" d = Some (VStr location) ->
  is_opt_str (dict_get "description" d) ->
  is_opt_str (or_schema d ds "format") ->
  is_opt_str (or_schema d ds "pattern") ->
  is_opt_int (dict_get "maximum" d) ->
  is_opt_int (dict_get "mimimum" d) ->
  is_opt_int (or_schema d ds "maxLength") ->
  is_opt_bool (dict_get "required" d) ->
  parse_parameter self gas depth (VLoc l) h
  = Done ({| Parameter_name := name;
             Parameter_param_location := location;
             Parameter_description := opt_str_of (dict_get "description" d);
             Parameter_type := AsStr type;
             Parameter_maximum := opt_int_of (dict_get "maximum" d);
             Parameter_mimimum := opt_int_of (dict_get "mimimum" d);
             Parameter_format := opt_str_of (or_schema d ds "format");
             Parameter_items := None;
             Parameter_required := bool_of (dict_get "required" d);
             Parameter_pattern := opt_str_of (or_schema d ds "pattern");
             Parameter_max_len := opt_int_of (or_schema d ds "maxLength") |}, h).
Proof.
  intros Hl Hschema Hls Hnotype Htype Hnarr Hname Hin Hdescr Hformat Hpattern
    Hmax Hmin Hlen Hreq.
  assert (Hne : ds <> []) by (intros ->; discriminate Htype).
  unfold parse_parameter.
  step (py_get_dict h l d "schema" Hl). rewrite Hschema. cbn [from_option id is_none].
  rewrite (bind_eq (ret _) _ _ _ _ eq_refl).
  step (py_get_dict h l d "type" Hl). rewrite Hnotype. cbn [is_none].
  assert (E1 : (let* param_schema := py_get (VLoc l) "schema" in
                if negb (is_none param_schema)
                then let* sch := py_getitem (VLoc l) "schema" in py_get sch "type"
                else ret VNone) h = Done (VStr type, h)).
  { step (py_get_dict h l d "schema" Hl). rewrite Hschema. simpl.
    unfold bind, py_getitem. simpl. rewrite Hl, Hschema.
    rewrite (py_get_dict h ls ds "type" Hls), Htype. reflexivity. }
  step E1. cbn [is_none].
  rewrite (bind_eq (ret _) _ _ _ _ eq_refl).
  assert (eq_str (VStr type) "array" = false) as ->.
  { simpl. apply String.eqb_neq. exact Hnarr. }
  rewrite (bind_eq (ret _) _ _ _ _ eq_refl).
  step (fallback_with_schema h l ls d ds "pattern" Hl Hschema Hls Hne).
  step (fallback_with_schema h l ls d ds "format" Hl Hschema Hls Hne).
  step (fallback_with_schema h l ls d ds "maxLength" Hl Hschema Hls Hne).
  step (py_get_dict h l d "name" Hl). step (py_get_dict h l d "in" Hl).
  step (py_get_dict h l d "description" Hl).
  cbv zeta. cbn [is_none].
  step (py_get_dict h l d "maximum" Hl). step (py_get_dict h l d "mimimum" Hl).
  step (py_get_default_dict h l d "required" (VBool false) Hl).
  rewrite Hname, Hin. cbn [from_option id as_str as_str_or_dict].
  rewrite (bind_eq (ret _) _ _ _ _ eq_refl).
  rewrite (bind_eq (ret _) _ _ _ _ eq_refl).
  step (as_opt_str_ok _ h Hdescr).
  rewrite (bind_eq (ret _) _ _ _ _ eq_refl).
  step (as_opt_int_ok _ h Hmax). step (as_opt_int_ok _ h Hmin).
  step (as_opt_str_ok _ h Hformat). step (as_bool_ok _ h Hreq).
  step (as_opt_str_ok _ h Hpattern). step (as_opt_int_ok _ h Hlen).
  reflexivity.
Qed.

Lemma schema_typed_parameter_falls_back_to_schema_witness :
  exists p,
    parse_parameter (processor_of pet_doc) 50 10 (root_beside_pet name_parameter)
      (store_beside_pet name_parameter) = Done (p, store_beside_pet name_parameter)
    /\ Parameter_type p = AsStr "string"
    /\ Parameter_pattern p = Some "^[a-z]+$"
    /\ Parameter_max_len p = Some 20%Z
    /\ Parameter_required p = true.
Proof.
  with_dict (store_beside_pet name_parameter) (root_beside_pet name_parameter)
    ltac:(fun l d =>
      let sch := eval vm_compute in (dict_get "schema" d) in
      lazymatch sch with
      | Some ?v =>
          with_dict (store_beside_pet name_parameter) v ltac:(fun ls ds =>
            eexists; split;
            [ exact (schema_typed_parameter_falls_back_to_schema
                       (processor_of pet_doc) 50 10 l ls d ds
                       (store_beside_pet name_parameter) "name" "query" "string"
                       eq_refl eq_refl eq_refl eq_refl eq_refl ltac:(discriminate)
                       eq_refl eq_refl I I I I I I I)
            | repeat split ])
      end).
Defined.

(** X11.  An array parameter that does not say what its items are stops the
    parse.  Without a [schema] (and without a pointer) the lookup
    [param["schema"]] raises [KeyError]; with a [schema] that has no [items]
    either, the assertion on the items fails with [AssertionError].  The
    type ["array"] may be stated by the parameter or by its schema. *)
Theorem array_parameter_needs_items (self : SwaggerProcessor) (gas depth : nat)
    (l : loc) (d : list (string * val)) (h : store) :
  h !! l = Some (ODict d) ->
  default VNone (dict_get "items" d) = VNone ->
  (dict_get "schema" d = None -> dict_get "$ref" d = None ->
   dict_get "type" d = Some (VStr "array") ->
   parse_parameter self gas depth (VLoc l) h = Raise KeyError)
  /\ (forall ls ds,
        dict_get "schema" d = Some (VLoc ls) -> h !! ls = Some (ODict ds) ->
        default VNone (dict_get "items" ds) = VNone ->
        default VNone (dict_get "type" d) = VStr "array"
        \/ (default VNone (dict_get "type" d) = VNone
            /\ default VNone (dict_get "type" ds) = VStr "array") ->
        parse_parameter self gas depth (VLoc l) h = Raise AssertionError).
Proof.
  intros Hl Hitems. split.
  - intros Hschema Href Htype. unfold parse_parameter.
    step (py_get_dict h l d "schema" Hl). rewrite Hschema. cbn [from_option id is_none].
    rewrite bind_assoc.
    step (py_get_dict h l d "$ref" Hl). rewrite Href. cbn [from_option id].
    rewrite bind_assoc.
    unfold truthy_m at 1. rewrite (bind_eq _ _ _ _ _ eq_refl). cbn [truthy].
    rewrite (bind_eq (ret _) _ _ _ _ eq_refl).
    step (py_get_dict h l d "type" Hl). rewrite Htype. cbn [from_option id is_none].
    rewrite (bind_eq (ret _) _ _ _ _ eq_refl). cbn [is_none].
    rewrite (bind_eq (ret _) _ _ _ _ eq_refl).
    cbn [eq_str]. rewrite String.eqb_refl.
    apply bind_Raise.
    step (py_get_dict h l d "items" Hl). rewrite Hitems. cbn [is_none].
    apply bind_Raise. apply bind_Raise.
    unfold py_getitem. simpl. rewrite Hl, Hschema. reflexivity.
  - intros ls ds Hschema Hls Hsitems Htype. unfold parse_parameter.
    step (py_get_dict h l d "schema" Hl). rewrite Hschema. cbn [from_option id is_none].
    rewrite (bind_eq (ret _) _ _ _ _ eq_refl).
    step (py_get_dict h l d "type" Hl).
    assert (E1 : (if is_none (default VNone (dict_get "type" d))
                  then
                    let* param_schema := py_get (VLoc l) "schema" in
                    if negb (is_none param_schema)
                    then let* sch := py_getitem (VLoc l) "schema" in py_get sch "type"
                    else ret (default VNone (dict_get "type" d))
                  else ret (default VNone (dict_get "type" d))) h
                 = Done (VStr "array", h)).
    { destruct Htype as [-> | [-> Hs]]; [reflexivity |]. cbn [is_none].
      step (py_get_dict h l d "schema" Hl). rewrite Hschema. simpl.
      unfold bind, py_getitem. simpl. rewrite Hl, Hschema.
      rewrite (py_get_dict h ls ds "type" Hls), Hs. reflexivity. }
    step E1. cbn [is_none].
    rewrite (bind_eq (ret _) _ _ _ _ eq_refl).
    cbn [eq_str]. rewrite String.eqb_refl.
    apply bind_Raise.
    step (py_get_dict h l d "items" Hl). rewrite Hitems. cbn [is_none].
    assert (E2 : (let* sch := py_getitem (VLoc l) "schema" in py_get sch "items") h
                 = Done (VNone, h)).
    { unfold bind, py_getitem. simpl. rewrite Hl, Hschema.
      rewrite (py_get_dict h ls ds "items" Hls), Hsitems. reflexivity. }
    step E2. reflexivity.
Qed.

Lemma array_parameter_needs_items_witness :
  parse_parameter (processor_of pet_doc) 50 10 (root_beside_pet ids_parameter)
    (store_beside_pet ids_parameter) = Raise KeyError
  /\ parse_parameter (processor_of pet_doc) 50 10 (root_beside_pet ids_schema_parameter)
       (store_beside_pet ids_schema_parameter) = Raise AssertionError.
Proof.
  split.
  - with_dict (store_beside_pet ids_parameter) (root_beside_pet ids_parameter)
      ltac:(fun l d =>
        exact (proj1 (array_parameter_needs_items (processor_of pet_doc) 50 10 l d
                        (store_beside_pet ids_parameter) eq_refl eq_refl)
                 eq_refl eq_refl eq_refl)).
  - with_dict (store_beside_pet ids_schema_parameter)
      (root_beside_pet ids_schema_parameter)
      ltac:(fun l d =>
        eapply (proj2 (array_parameter_needs_items (processor_of pet_doc) 50 10 l d
                         (store_beside_pet ids_schema_parameter) eq_refl eq_refl));
        [reflexivity | reflexivity | reflexivity | right; split; reflexivity]).
Defined.

(** ** Deprecated operations *)

(** X12.  [__parse_method] returns [None] exactly for the entries marked
    deprecated.  Such an entry is skipped before anything else is looked at:
    the call returns whatever the verb and the rest of the entry are, and
    the store stays as it was. *)
Theorem deprecated_operations_are_skipped (self : SwaggerProcessor) (gas depth : nat)
    (method : string) (method_data : val) (method_url : string) (h : store)
    (d : list (string * val)) :
  deref h method_data = Some (ODict d) ->
  (truthy h (default (VBool false) (dict_get "deprecated" d)) = true ->
   parse_method self gas depth method method_data method_url h = Done (None, h))
  /\ (forall h',
        parse_method self gas depth method method_data method_url h = Done (None, h') ->
        truthy h (default (VBool false) (dict_get "deprecated" d)) = true).
Proof.
  intros Hd. split.
  - intros Hdep. unfold parse_method, bind, py_get_default, truthy_m.
    rewrite Hd, Hdep. reflexivity.
  - intros h' H. apply parse_method_None in H as (d0 & Hd0 & Hdep). congruence.
Qed.

Lemma deprecated_operations_are_skipped_witness :
  parse_method (processor_of pet_doc) 50 10 "fetch" (root_beside_pet retired_operation)
    "/tags" (store_beside_pet retired_operation)
  = Done (None, store_beside_pet retired_operation).
Proof.
  with_dict (store_beside_pet retired_operation) (root_beside_pet retired_operation)
    ltac:(fun l d =>
      exact (proj1 (deprecated_operations_are_skipped (processor_of pet_doc) 50 10
                      "fetch" (root_beside_pet retired_operation) "/tags"
                      (store_beside_pet retired_operation) d eq_refl)
               eq_refl)).
Defined.

(** ** What a [Method] holds *)

Lemma new_Method_fields (self : SwaggerProcessor) method method_data method_url
    params responses request_body (h : store) (m : Method) (h' : store) :
  new_Method self method method_data method_url params responses request_body h
  = Done (m, h') ->
  Method_url m = String.append (base_endpoint_url self) method_url
  /\ Method_parameters m = params
  /\ Method_responses m = responses
  /\ Method_request_body m = request_body.
Proof.
  unfold new_Method. intros H.
  do 7 inv_bind H.
  unfold ret in H. injection H as <- _. simpl.
  repeat split; [destruct params | destruct responses]; reflexivity.
Qed.

(** X13.  In a [Method] that [__parse_method] returns, the [url] is the base
    URL followed by the path, and [parameters], [responses] and
    [request_body] are [None] exactly when the entry has no (or a null)
    [parameters], [responses] and [requestBody]. *)
Theorem method_fields_follow_the_entry (self : SwaggerProcessor) (gas depth : nat)
    (method : string) (method_data : val) (method_url : string) (h : store)
    (d : list (string * val)) (m : Method) (h' : store) :
  deref h method_data = Some (ODict d) ->
  parse_method self gas depth method method_data method_url h = Done (Some m, h') ->
  Method_url m = String.append (base_endpoint_url self) method_url
  /\ (Method_parameters m = None <-> default VNone (dict_get "parameters" d) = VNone)
  /\ (Method_responses m = None <-> default VNone (dict_get "responses" d) = VNone)
  /\ (Method_request_body m = None
      <-> default VNone (dict_get "requestBody" d) = VNone).
Proof.
  intros Hd H. unfold parse_method in H.
  inv_bind H. unfold py_get_default in E. rewrite Hd in E. injection E as <- <-.
  inv_bind H. unfold truthy_m in E. injection E as <- <-.
  destruct (truthy h _); [discriminate H |].
  inv_bind H. unfold py_get, py_get_default in E. rewrite Hd in E. injection E as <- <-.
  inv_bind H. unfold py_get, py_get_default in E. rewrite Hd in E. injection E as <- <-.
  inv_bind H. unfold py_get, py_get_default in E. rewrite Hd in E. injection E as <- <-.
  inv_bind H. rename a into params, E into Eparams.
  inv_bind H. rename a into responses, E into Eresponses.
  inv_bind H. rename a into request_body, E into Ebody.
  inv_bind H. unfold ret in H. injection H as <- _.
  apply new_Method_fields in E as (-> & -> & -> & ->).
  split; [reflexivity |].
  assert (Hopt : forall {A} (x : val) (m0 : M A) (r : option A) (ha hb : store),
             (if negb (is_none x) then bind m0 (fun a => ret (Some a)) else ret None) ha
             = Done (r, hb) ->
             (r = None <-> x = VNone)).
  { intros A x m0 r ha hb Hrun. destruct x; simpl in Hrun;
      try (inv_bind Hrun; unfold ret in Hrun; injection Hrun as <- _;
           split; discriminate).
    unfold ret in Hrun. injection Hrun as <- _. split; reflexivity. }
  repeat split; eapply Hopt; eassumption.
Qed.

Lemma method_fields_follow_the_entry_witness :
  exists m h',
    parse_method (processor_of pet_doc) 50 10 "get" (root_beside_pet bare_operation)
      "/ping" (store_beside_pet bare_operation) = Done (Some m, h')
    /\ Method_url m = "http://api.test/ping"
    /\ Method_request_body m = None.
Proof.
  let run := eval vm_compute in
    (parse_method (processor_of pet_doc) 50 10 "get" (root_beside_pet bare_operation)
       "/ping" (store_beside_pet bare_operation)) in
  lazymatch run with
  | Done (Some ?m, ?h1) =>
      with_dict (store_beside_pet bare_operation) (root_beside_pet bare_operation)
        ltac:(fun l d =>
          destruct (method_fields_follow_the_entry (processor_of pet_doc) 50 10 "get"
                      (root_beside_pet bare_operation) "/ping"
                      (store_beside_pet bare_operation) d m h1 eq_refl eq_refl)
            as (Hurl & _ & _ & Hbody);
          exists m, h1; split; [reflexivity |];
          split; [exact Hurl | apply Hbody; reflexivity])
  end.
Defined.

(** ** The whole parse works in place *)

Lemma in_place_reader {A} (sh : list bool) (m : M A) :
  (forall h a h', m h = Done (a, h') -> h' = h) ->
  in_place sh m (fun _ => True).
Proof. intros Hm h a h' Hsh Hrun. apply Hm in Hrun as ->. auto. Qed.

Ltac reader :=
  apply in_place_reader; intros h a h';
  repeat match goal with
         | |- context [match ?x with _ => _ end] => destruct x
         end;
  congruence.

Lemma in_place_get_opt (sh : list bool) (v : val) (k : string) :
  in_place sh (py_get_opt v k) (fun _ => True).
Proof. unfold py_get_opt, deref. reader. Qed.

Lemma in_place_get_default' (sh : list bool) (v : val) (k : string) (dflt : val) :
  in_place sh (py_get_default v k dflt) (fun _ => True).
Proof. eapply in_place_any, in_place_get_default. Qed.

Lemma in_place_iter (sh : list bool) (v : val) : in_place sh (py_iter v) (fun _ => True).
Proof. unfold py_iter. reader. Qed.

Lemma in_place_len (sh : list bool) (v : val) : in_place sh (py_len v) (fun _ => True).
Proof. unfold py_len. reader. Qed.

Lemma in_place_lift {A} (sh : list bool) (o : outcome A) :
  in_place sh (lift o) (fun _ => True).
Proof. unfold lift. reader. Qed.

Lemma in_place_as_dict (sh : list bool) (v : val) : in_place sh (as_dict v) (fun _ => True).
Proof. unfold as_dict. reader. Qed.

Lemma in_place_as_list_str (sh : list bool) (v : val) :
  in_place sh (as_list_str v) (fun _ => True).
Proof. unfold as_list_str, deref. reader. Qed.

#[local] Hint Resolve in_place_truthy in_place_setitem in_place_delitem
  in_place_contains in_place_find_key in_place_get_opt in_place_get_default'
  in_place_iter in_place_len in_place_lift in_place_as_dict in_place_as_list_str
  : in_place.
#[local] Hint Extern 1 (in_place _ (py_get _ _) (fun _ => True)) =>
  eapply in_place_any, in_place_get : in_place.
#[local] Hint Extern 1 (in_place _ (py_getitem _ _) (fun _ => True)) =>
  eapply in_place_any, in_place_getitem : in_place.
#[local] Hint Extern 1 (in_place _ (ret _) (fun _ => True)) =>
  eapply in_place_any, in_place_ret : in_place.
#[local] Hint Extern 1 (in_place _ (raise _) _) => apply in_place_raise : in_place.
#[local] Hint Extern 1 (in_place _ (parse_ref _ _ _ _) (fun _ => True)) =>
  eapply in_place_any, parse_ref_in_place : in_place.

Section InPlaceParse.
Variable self : SwaggerProcessor.
Variables gas depth : nat.
Variable sh : list bool.

Lemma in_place_as_opt_str (v : val) : in_place sh (as_opt_str v) (fun _ => True).
Proof. unfold as_opt_str. ip. Qed.
Lemma in_place_as_str (v : val) : in_place sh (as_str v) (fun _ => True).
Proof. unfold as_str. ip. Qed.
Lemma in_place_as_opt_int (v : val) : in_place sh (as_opt_int v) (fun _ => True).
Proof. unfold as_opt_int. ip. Qed.
Lemma in_place_as_bool (v : val) : in_place sh (as_bool v) (fun _ => True).
Proof. unfold as_bool. ip. Qed.
Lemma in_place_as_opt_dict (v : val) : in_place sh (as_opt_dict v) (fun _ => True).
Proof. unfold as_opt_dict. ip. Qed.
Lemma in_place_as_str_or_dict (v : val) : in_place sh (as_str_or_dict v) (fun _ => True).
Proof. unfold as_str_or_dict. ip. Qed.
Lemma in_place_as_opt_str_or_dict (v : val) :
  in_place sh (as_opt_str_or_dict v) (fun _ => True).
Proof. pose proof in_place_as_str_or_dict. unfold as_opt_str_or_dict. ip. Qed.
Lemma in_place_as_opt_list_str (v : val) :
  in_place sh (as_opt_list_str v) (fun _ => True).
Proof. unfold as_opt_list_str. ip. Qed.

#[local] Hint Resolve in_place_as_opt_str in_place_as_str in_place_as_opt_int
  in_place_as_bool in_place_as_opt_dict in_place_as_str_or_dict
  in_place_as_opt_str_or_dict in_place_as_opt_list_str : in_place.

Lemma in_place_parse_parameter (param : val) :
  in_place sh (parse_parameter self gas depth param) (fun _ => True).
Proof. unfold parse_parameter, get_with_schema_fallback. cbv zeta. ip. Qed.

Lemma in_place_parse_parameters (params_data : val) :
  in_place sh (parse_parameters self gas depth params_data) (fun _ => True).
Proof.
  unfold parse_parameters.
  eapply (in_place_bind _ _ _ (fun _ => True)); [ip | intros params _].
  generalize (@nil Parameter').
  induction params as [| p r IH]; intros acc; simpl; [ip |].
  eapply (in_place_bind _ _ _ (fun _ => True));
    [apply in_place_parse_parameter | intros ? _; apply IH].
Qed.

Lemma in_place_parse_responses (responses_data : val) :
  in_place sh (parse_responses self gas depth responses_data) (fun _ => True).
Proof. unfold parse_responses, parse_response. ip. Qed.

Lemma in_place_parse_request_body (request_body_data : val) :
  in_place sh (parse_request_body self gas depth request_body_data) (fun _ => True).
Proof. unfold parse_request_body. ip. Qed.

#[local] Hint Resolve in_place_parse_parameters in_place_parse_responses
  in_place_parse_request_body : in_place.

Lemma in_place_parse_method (method : string) (method_data : val) (method_url : string) :
  in_place sh (parse_method self gas depth method method_data method_url)
    (fun _ => True).
Proof. unfold parse_method, new_Method, get_formats. cbv zeta. ip. Qed.

#[local] Hint Resolve in_place_parse_method : in_place.

Lemma in_place_parse_swagger :
  in_place sh (parse_swagger self gas depth) (fun _ => True).
Proof. unfold parse_swagger, parse_endpoints. ip. Qed.

End InPlaceParse.

Lemma preserved_by_keeps {A} (ukeys : list string) (m : M A) (h : store) (a : A)
    (h' : store) :
  (forall I, write_closed ukeys I -> keeps I m (fun _ => True)) ->
  in_place (shape h) m (fun _ => True) ->
  m h = Done (a, h') ->
  preserved ukeys h h'.
Proof.
  intros Hk Hs Hrun.
  destruct (Hs h a h' eq_refl Hrun) as [Hsh _].
  split; [| split; [| split]].
  - apply (f_equal length) in Hsh. unfold shape in Hsh.
    rewrite !length_fmap in Hsh. exact Hsh.
  - intros l.
    assert (Hkind : kind <$> (h' !! l) = kind <$> (h !! l)).
    { rewrite <- !list_lookup_fmap. unfold shape in Hsh. rewrite Hsh. reflexivity. }
    split; intros [d Hd]; rewrite Hd in Hkind.
    + destruct (h' !! l) as [[d' | xs] |]; try discriminate Hkind. eauto.
    + destruct (h !! l) as [[d' | xs] |]; try discriminate Hkind. eauto.
  - intros l xs Hl.
    exact (proj1 (Hk (list_is l xs) (write_closed_list ukeys l xs) h a h' Hl Hrun)).
  - intros l d k s Hl Hd Hg Hs' Hu Hitems.
    destruct (Hk (entry_is l k s) (write_closed_entry ukeys l k s Hs' Hu Hitems)
                h a h' (ex_intro _ d (conj Hl (conj Hd Hg))) Hrun)
      as [(d' & Hl' & _ & Hg') _].
    eauto.
Qed.

(** X14.  A whole parse, like the resolution of one pointer, writes to the
    schemas only ([preserved]).  When [parse_swagger] returns, and when
    [__parse_ref] returns, the store holds as many objects as before and the
    same positions hold a dict; every list is what it was; and every entry of
    a dict (with unique keys) that held a scalar under a key other than
    [items] and the keys of the denylist still holds it: names, locations,
    descriptions, types and formats of the document are never overwritten. *)
Theorem parsing_keeps_the_objects_of_the_document (self : SwaggerProcessor)
    (gas depth : nat) (h : store) :
  (forall catalog h',
      parse_swagger self gas depth h = Done (catalog, h') ->
      preserved (schema_useless_keys self) h h')
  /\ (forall ref_path v h',
        parse_ref self gas depth ref_path h = Done (v, h') ->
        preserved (schema_useless_keys self) h h').
Proof.
  split.
  - intros catalog h'. apply preserved_by_keeps.
    + intros I W. apply keeps_parse_swagger. exact W.
    + apply in_place_parse_swagger.
  - intros ref_path v h'. apply preserved_by_keeps.
    + intros I W. apply keeps_parse_ref. exact W.
    + eapply in_place_any. apply parse_ref_in_place.
Qed.

Lemma parsing_keeps_the_objects_of_the_document_witness :
  (exists catalog h',
      parse_swagger (processor_of shop_doc) 50 10 (store_of shop_doc)
      = Done (catalog, h')
      /\ length catalog = 1
      /\ preserved ["xml"] (store_of shop_doc) h')
  /\ (exists v h',
        parse_ref (processor_of pet_doc) 50 10 (VStr "#/definitions/Pet")
          (store_of pet_doc) = Done (v, h')
        /\ preserved ["xml"] (store_of pet_doc) h').
Proof.
  split.
  - let run := eval vm_compute in
      (parse_swagger (processor_of shop_doc) 50 10 (store_of shop_doc)) in
    lazymatch run with
    | Done (?catalog, ?h1) =>
        exists catalog, h1; split; [reflexivity |]; split; [reflexivity |];
        exact (proj1 (parsing_keeps_the_objects_of_the_document (processor_of shop_doc)
                        50 10 (store_of shop_doc)) catalog h1 eq_refl)
    end.
  - let run := eval vm_compute in
      (parse_ref (processor_of pet_doc) 50 10 (VStr "#/definitions/Pet")
         (store_of pet_doc)) in
    lazymatch run with
    | Done (?v, ?h1) =>
        exists v, h1; split; [reflexivity |];
        exact (proj2 (parsing_keeps_the_objects_of_the_document (processor_of pet_doc)
                        50 10 (store_of pet_doc))
                 (VStr "#/definitions/Pet") v h1 eq_refl)
    end.
Defined.

(** ** Before the parse: the URL *)

Lemma no_slash_app_slash (a b : string) :
  no_slash (String.append a (String "/" b)) = false.
Proof.
  induction a as [| x a IH]; [reflexivity |].
  rewrite append_cons. simpl. rewrite IH. apply andb_false_r.
Qed.

Lemma upto_last_slash_app (a b : string) :
  no_slash b = true ->
  upto_last_slash (String.append a (String "/" b)) = String.append a "/".
Proof.
  intros Hb. induction a as [| x a IH].
  - change (String.append EmptyString ?s) with s. simpl. rewrite Hb. reflexivity.
  - rewrite !append_cons. simpl. rewrite no_slash_app_slash, IH. reflexivity.
Qed.

Lemma all_slash_app_char (a : string) (c : ascii) (b : string) :
  c <> "/"%char -> all_slash (String.append a (String c b)) = false.
Proof.
  intros Hc. induction a as [| x a IH].
  - change (String.append EmptyString ?s) with s. simpl.
    apply Ascii.eqb_neq in Hc. rewrite Hc. reflexivity.
  - rewrite append_cons. simpl. rewrite IH. apply andb_false_r.
Qed.

Lemma rstrip_slash_app (a : string) (c : ascii) :
  c <> "/"%char ->
  rstrip_slash (String.append a (String c "/")) = String.append a (String c EmptyString).
Proof.
  intros Hc. induction a as [| x a IH].
  - change (String.append EmptyString ?s) with s. simpl.
    apply Ascii.eqb_neq in Hc. rewrite Hc. reflexivity.
  - rewrite !append_cons. simpl. rewrite (all_slash_app_char a c "/" Hc), IH.
    rewrite andb_false_r. reflexivity.
Qed.

(** The directory of [<dir>/<file>] is [dir]. *)
Lemma dirname_of_file (dir : string) (c : ascii) (file : string) :
  no_slash file = true -> c <> "/"%char ->
  dirname (String.append (String.append dir (String c EmptyString)) (String "/" file))
  = String.append dir (String c EmptyString).
Proof.
  intros Hf Hc. unfold dirname. rewrite (upto_last_slash_app _ file Hf).
  rewrite append_assoc.
  change (String.append (String c EmptyString) "/") with (String c "/").
  rewrite (all_slash_app_char dir c "/" Hc), (rstrip_slash_app dir c Hc).
  destruct (String.eqb_spec (String.append dir (String c "/")) EmptyString) as [E | _];
    [| reflexivity].
  destruct dir; discriminate E.
Qed.

Lemma dirname_without_slash (p : string) :
  no_slash p = true -> dirname p = EmptyString.
Proof.
  intros Hp. unfold dirname.
  assert (upto_last_slash p = EmptyString) as ->; [| reflexivity].
  destruct p as [| x p]; [reflexivity |]. simpl in *.
  apply andb_true_iff in Hp as [Hx Hp]. rewrite Hp. simpl.
  apply negb_true_iff in Hx. rewrite Hx. reflexivity.
Qed.

Lemma parse_method_url (self : SwaggerProcessor) (gas depth : nat)
    method method_data method_url (h : store) (m : Method) (h' : store) :
  parse_method self gas depth method method_data method_url h = Done (Some m, h') ->
  Method_url m = String.append (base_endpoint_url self) method_url.
Proof.
  unfold parse_method. intros H.
  do 2 inv_bind H. destruct a0; [discriminate |].
  do 7 inv_bind H. injection H as <- _.
  eapply new_Method_fields. eassumption.
Qed.

(** X15.  The base of every method URL is the directory of the URL of the
    document, as [os.path.dirname] gives it.  For a document at
    [<dir>/<file>], where [dir] does not end with a slash and [file] holds
    none, the [url] of a [Method] is [dir] followed by the path; for a URL
    without any slash the base is empty and the [url] is the path alone. *)
Theorem method_urls_start_at_the_directory_of_the_document (gas depth : nat)
    (data : val) (method : string) (method_data : val) (method_url : string)
    (h : store) (m : Method) (h' : store) :
  (forall (dir : string) (c : ascii) (file : string),
      no_slash file = true -> c <> "/"%char ->
      parse_method
        (processor_for
           (String.append (String.append dir (String c EmptyString)) (String "/" file))
           data)
        gas depth method method_data method_url h = Done (Some m, h') ->
      Method_url m
      = String.append (String.append dir (String c EmptyString)) method_url)
  /\ (forall url,
        no_slash url = true ->
        parse_method (processor_for url data) gas depth method method_data method_url h
        = Done (Some m, h') ->
        Method_url m = method_url).
Proof.
  split.
  - intros dir c file Hf Hc H. apply parse_method_url in H. rewrite H.
    unfold processor_for, new_processor. cbn [base_endpoint_url].
    rewrite (dirname_of_file dir c file Hf Hc). reflexivity.
  - intros url Hu H. apply parse_method_url in H. rewrite H.
    unfold processor_for, new_processor. cbn [base_endpoint_url].
    rewrite (dirname_without_slash url Hu). reflexivity.
Qed.

Lemma method_urls_start_at_the_directory_of_the_document_witness :
  exists m h',
    parse_method
      (processor_for "https://petstore.swagger.io/v2/swagger.json" (root_of pet_doc))
      50 10 "get" (root_beside_pet bare_operation) "/ping"
      (store_beside_pet bare_operation) = Done (Some m, h')
    /\ Method_url m = "https://petstore.swagger.io/v2/ping".
Proof.
  let run := eval vm_compute in
    (parse_method
       (processor_for "https://petstore.swagger.io/v2/swagger.json" (root_of pet_doc))
       50 10 "get" (root_beside_pet bare_operation) "/ping"
       (store_beside_pet bare_operation)) in
  lazymatch run with
  | Done (Some ?m, ?h1) =>
      exists m, h1; split; [reflexivity |];
      refine (proj1 (method_urls_start_at_the_directory_of_the_document 50 10
                       (root_of pet_doc) "get" (root_beside_pet bare_operation) "/ping"
                       (store_beside_pet bare_operation) m h1)
                "https://petstore.swagger.io/v" "2"%char "swagger.json" _ _ _);
      [reflexivity | discriminate | reflexivity]
  end.
Defined.

Lemma last_split_slash_aux (a b : string) :
  no_slash b = true ->
  forall cur, last (split_slash_aux (String.append a (String "/" b)) cur) = Some b.
Proof.
  intros Hb. induction a as [| x a IH]; intros cur.
  - change (String.append EmptyString ?s) with s. simpl.
    rewrite (split_slash_aux_no_slash b Hb). reflexivity.
  - rewrite append_cons. simpl. destruct (Ascii.eqb x "/"%char); [| apply IH].
    rewrite last_cons, IH. reflexivity.
Qed.

(** X16.  [__get_swagger_schema] chooses the decoder by the last segment of
    the URL alone.  For a document at [<dir>/<file>] ([file] without a
    slash) the response is decoded as YAML exactly when [file] contains
    ["yaml"], whatever [dir] holds (a host or a directory named [yaml] does
    not count, and neither does a file named [swagger.yml]); a URL without
    any slash is its own last segment. *)
Theorem decoder_follows_the_last_segment
    (yaml_safe_load json_loads : string -> outcome json) (text : string) :
  (forall dir file,
      no_slash file = true ->
      get_swagger_schema yaml_safe_load json_loads
        (String.append dir (String "/" file)) text
      = if contains "yaml" file then yaml_safe_load text else json_loads text)
  /\ (forall url,
        no_slash url = true ->
        get_swagger_schema yaml_safe_load json_loads url text
        = if contains "yaml" url then yaml_safe_load text else json_loads text).
Proof.
  split.
  - intros dir file Hf. unfold get_swagger_schema, split_slash.
    rewrite (last_split_slash_aux dir file Hf). reflexivity.
  - intros url Hu. unfold get_swagger_schema.
    rewrite (split_slash_no_slash url Hu). reflexivity.
Qed.

Lemma decoder_follows_the_last_segment_witness :
  get_swagger_schema (fun _ => Raise ValidationError) (fun _ => Done pet_doc)
    "https://yaml.example.org/api/swagger.json" "{}" = Done pet_doc
  /\ get_swagger_schema (fun _ => Done pet_doc) (fun _ => Raise ValidationError)
       "https://example.org/api/swagger.yml" "paths: {}" = Raise ValidationError.
Proof.
  split.
  - refine (proj1 (decoder_follows_the_last_segment (fun _ => Raise ValidationError)
                     (fun _ => Done pet_doc) "{}")
              "https://yaml.example.org/api" "swagger.json" _).
    reflexivity.
  - refine (proj1 (decoder_follows_the_last_segment (fun _ => Done pet_doc)
                     (fun _ => Raise ValidationError) "paths: {}")
              "https://example.org/api" "swagger.yml" _).
    reflexivity.
Defined.

(** ** Documents without pointers *)

Lemma no_keyb_ok (k : string) (h : store) : no_keyb k h = true -> no_key k h.
Proof.
  unfold no_keyb. intros H l d Hl. rewrite forallb_forall in H.
  specialize (H (ODict d)). simpl in H. unfold dict_mem in H.
  destruct (dict_get k d); [| reflexivity].
  discriminate H. apply list_elem_of_In. eapply list_elem_of_lookup_2. exact Hl.
Qed.

Lemma dict_get_None_keys {A} (k : string) (d : list (string * A)) :
  dict_get k d = None -> Forall (fun kv => String.eqb (fst kv) k = false) d.
Proof.
  induction d as [| [k1 v] r IH]; simpl; [constructor |].
  destruct (String.eqb k1 k) eqn:E; [discriminate |]. intros H.
  constructor; [exact E | auto].
Qed.

(** The search for a key that no dict has finds nothing. *)
Lemma find_key_loop_no_key (k : string) (h : store) :
  no_key k h ->
  forall gas queue found x,
    find_key_loop gas h k queue found = Done x -> x = found.
Proof.
  intros F. induction gas as [| gas IH]; intros queue found x H;
    destruct queue as [| cur queue']; simpl in H; try congruence.
  destruct (deref h cur) as [[d | xs] |] eqn:E; [| eauto | eauto].
  destruct cur; simpl in E; try discriminate E.
  rewrite (scan_items_absent k d) in H by (apply dict_get_None_keys; eauto).
  simpl in H. eauto.
Qed.

Lemma find_key_no_key (gas : nat) (k : string) (v : val) (h : store) (x : val)
    (h' : store) :
  no_key k h -> find_key_in_dict gas v k h = Done (x, h') -> x = VNone /\ h' = h.
Proof.
  intros F. unfold find_key_in_dict. destruct (is_none v); [intros [= <- <-]; auto |].
  destruct (find_key_loop gas h k [v] VNone) eqn:E; try discriminate.
  intros [= <- <-]. split; [| reflexivity].
  eapply find_key_loop_no_key; eassumption.
Qed.

Section PointerFree.
Variable self : SwaggerProcessor.
Variables gas depth : nat.
Variable h0 : store.
Hypothesis F : no_key "$ref" h0.

Lemma keeps_get_ref (v : val) : keeps (eq h0) (py_get v "$ref") (fun a => a = VNone).
Proof.
  eapply keeps_weaken; [apply keeps_get |].
  intros a (h & d & <- & Hd & ->). destruct v; simpl in Hd; try discriminate Hd.
  rewrite (F _ _ Hd). reflexivity.
Qed.

Lemma keeps_getitem_ref (v : val) :
  keeps (eq h0) (py_getitem v "$ref") (fun _ => False).
Proof.
  intros h a h' <- H. exfalso. unfold py_getitem in H.
  destruct (deref h0 v) as [[d | xs] |] eqn:E; try discriminate H.
  destruct v; simpl in E; try discriminate E.
  rewrite (F _ _ E) in H. discriminate H.
Qed.

Lemma keeps_find_ref (v : val) :
  keeps (eq h0) (find_key_in_dict gas v "$ref") (fun a => a = VNone).
Proof.
  intros h a h' <- H. destruct (find_key_no_key _ _ _ _ _ _ F H) as [-> ->]. auto.
Qed.

Lemma keeps_parse_ref_None :
  keeps (eq h0) (parse_ref self gas depth VNone) (fun _ => False).
Proof. apply keeps_never. intros h a h'. destruct depth; discriminate. Qed.

Lemma keeps_truthy_None (I : store -> Prop) :
  keeps I (truthy_m VNone) (fun b => b = false).
Proof. intros h a h' HI H. unfold truthy_m in H. injection H as <- <-. auto. Qed.

(** Walks down a computation of the parser in a store without pointers. *)
Ltac pf :=
  lazymatch goal with
  | |- keeps _ (bind (py_get _ "$ref") _) _ =>
      eapply keeps_bind; [apply keeps_get_ref | intros ? ->; pf]
  | |- keeps _ (bind (py_getitem _ "$ref") _) _ =>
      eapply keeps_bind; [apply keeps_getitem_ref | intros ? []]
  | |- keeps _ (bind (find_key_in_dict _ _ "$ref") _) _ =>
      eapply keeps_bind; [apply keeps_find_ref | intros ? ->; cbn [is_none negb]; pf]
  | |- keeps _ (bind (truthy_m VNone) _) _ =>
      eapply keeps_bind; [apply keeps_truthy_None | intros ? ->; pf]
  | |- keeps _ (parse_ref _ _ _ VNone) _ =>
      eapply keeps_weaken; [apply keeps_parse_ref_None | intros ? []]
  | |- keeps _ (bind _ _) _ =>
      eapply (keeps_bind _ _ _ (fun _ => True)); [pf | intros ? _; pf]
  | |- keeps _ (for_items _ _ _) _ =>
      apply keeps_for_items_any; intros ? ? ?; pf
  | |- keeps _ (if ?c then _ else _) _ => destruct c; pf
  | |- keeps _ (match ?x with _ => _ end) _ => destruct x; pf
  | |- _ => eauto with keeps
  end.

Lemma pointer_free_parse_parameter (param : val) :
  keeps (eq h0) (parse_parameter self gas depth param) (fun _ => True).
Proof. unfold parse_parameter, get_with_schema_fallback. cbv zeta. pf. Qed.

Lemma pointer_free_parse_parameters (params_data : val) :
  keeps (eq h0) (parse_parameters self gas depth params_data) (fun _ => True).
Proof.
  unfold parse_parameters. kp_bind.
  generalize (@nil Parameter').
  lazymatch goal with |- forall l, keeps _ (_ _ _ _ ?ps l) _ => induction ps as [| p r IH] end;
    intros acc; simpl; [kp |].
  eapply (keeps_bind _ _ _ (fun _ => True));
    [apply pointer_free_parse_parameter | intros ? _; apply IH].
Qed.

Lemma pointer_free_parse_responses (responses_data : val) :
  keeps (eq h0) (parse_responses self gas depth responses_data) (fun _ => True).
Proof. unfold parse_responses, parse_response. pf. Qed.

Lemma pointer_free_parse_request_body (request_body_data : val) :
  keeps (eq h0) (parse_request_body self gas depth request_body_data) (fun _ => False).
Proof.
  unfold parse_request_body.
  eapply keeps_bind; [apply keeps_find_ref | intros ? ->]. cbn [is_none].
  apply keeps_raise.
Qed.

Lemma pointer_free_parse_method (method : string) (method_data : val)
    (method_url : string) :
  keeps (eq h0) (parse_method self gas depth method method_data method_url)
    (fun om => forall m, om = Some m -> Method_request_body m = None).
Proof.
  unfold parse_method.
  kp_bind. kp_bind.
  lazymatch goal with |- keeps _ (if ?c then _ else _) _ => destruct c end.
  { intros h1 x h2 Ih [= <- <-]. split; [exact Ih | discriminate]. }
  kp_bind. kp_bind. kp_bind.
  eapply (keeps_bind _ _ _ (fun _ => True));
    [destruct (negb _);
       [eapply (keeps_bind _ _ _ (fun _ => True));
          [apply pointer_free_parse_parameters | intros ? _; kp] | kp] | intros ? _].
  eapply (keeps_bind _ _ _ (fun _ => True));
    [destruct (negb _);
       [eapply (keeps_bind _ _ _ (fun _ => True));
          [apply pointer_free_parse_responses | intros ? _; kp] | kp] | intros ? _].
  eapply (keeps_bind _ _ _ (fun rb => rb = None)).
  { destruct (negb _).
    - eapply keeps_bind; [apply pointer_free_parse_request_body | intros ? []].
    - intros h1 x h2 Ih [= <- <-]. auto. }
  intros ? ->.
  intros h1 x h2 Ih H. apply bind_Done in H as (m & h3 & E & H).
  injection H as <- <-.
  lazymatch type of E with
  | ?c h1 = _ => assert (Hk : keeps (eq h0) c (fun _ => True))
  end.
  { unfold new_Method, get_formats. cbv zeta. kp. }
  destruct (Hk _ _ _ Ih E) as [Ih1 _]. split; [exact Ih1 |].
  intros m' [= <-]. eapply new_Method_fields. exact E.
Qed.

End PointerFree.

(** [__parse_method] returns a [Method] for entries not marked deprecated
    only. *)
Lemma parse_method_Some (self : SwaggerProcessor) (gas depth : nat)
    method method_data method_url (h : store) (m : Method) (h' : store) :
  parse_method self gas depth method method_data method_url h = Done (Some m, h') ->
  deprecated_at h method_data = false.
Proof.
  unfold parse_method, deprecated_at. intros H. inv_bind H.
  unfold py_get_default in E.
  destruct (deref h method_data) as [[d | xs] |]; try discriminate E.
  injection E as <- <-.
  inv_bind H. unfold truthy_m in E. injection E as <- <-.
  destruct (truthy h (default (VBool false) (dict_get "deprecated" d)));
    [discriminate H | reflexivity].
Qed.

(** The loop over the items of a dict when no step writes and every step
    appends to the list: what was appended, item by item. *)
Lemma for_items_from_appends {B} (body : string -> val -> list B -> M (list B))
    (l : loc) (d : list (string * val)) (h : store)
    (P : string * val -> list B -> Prop) :
  h !! l = Some (ODict d) ->
  (forall k v acc acc' h1,
      In (k, v) d -> body k v acc h = Done (acc', h1) ->
      h1 = h /\ exists new, acc' = acc ++ new /\ P (k, v) new) ->
  forall todo i acc res h',
    i + todo = length d ->
    for_items_from body l (length d) i todo acc h = Done (res, h') ->
    h' = h /\ exists news, res = acc ++ concat news /\ Forall2 P (drop i d) news.
Proof.
  intros Hl Hbody.
  induction todo as [| t IH]; intros i acc res h' Hi H; simpl in H;
    rewrite Hl, Nat.eqb_refl in H.
  - injection H as <- <-. split; [reflexivity |]. exists [].
    rewrite drop_ge by lia. simpl. rewrite app_nil_r. split; [reflexivity | constructor].
  - destruct (d !! i) as [[k v] |] eqn:Ei.
    + apply bind_Done in H as (acc1 & h1 & E & H).
      destruct (Hbody k v acc acc1 h1) as (-> & new & -> & Hnew);
        [apply list_elem_of_In; eapply list_elem_of_lookup_2; exact Ei | exact E |].
      destruct (IH (S i) _ _ _ ltac:(lia) H) as (-> & news & -> & Hnews).
      split; [reflexivity |]. exists (new :: news). simpl.
      rewrite <- app_assoc. split; [reflexivity |].
      rewrite (drop_S _ _ _ Ei). constructor; assumption.
    + apply lookup_ge_None in Ei. lia.
Qed.

Lemma for_items_appends {B} (body : string -> val -> list B -> M (list B))
    (v : val) (h : store) (P : string * val -> list B -> Prop) (acc res : list B)
    (h' : store) :
  (forall d, deref h v = Some (ODict d) ->
     forall k x acc acc' h1,
       In (k, x) d -> body k x acc h = Done (acc', h1) ->
       h1 = h /\ exists new, acc' = acc ++ new /\ P (k, x) new) ->
  for_items v acc body h = Done (res, h') ->
  h' = h
  /\ exists d news,
       deref h v = Some (ODict d) /\ res = acc ++ concat news /\ Forall2 P d news.
Proof.
  intros Hbody H. unfold for_items in H.
  destruct (deref h v) as [[d | xs] |] eqn:E; try discriminate H.
  destruct v as [| | | | l]; try discriminate H. simpl in E.
  destruct (for_items_from_appends body l d h P E (Hbody d eq_refl)
              (length d) 0 acc res h' eq_refl H) as (-> & news & -> & Hnews).
  split; [reflexivity |]. exists d, news. auto.
Qed.

(** X26.  A document that holds no [$ref] key is only read: the store is
    the same after [parse_swagger], and the catalog lists the operations of
    [paths] that are not marked deprecated, one [Method] each and in the
    order of the document; the [url] of the [Method] is the base URL
    followed by the path of the operation, its verb is the member of
    [Operation] named by the key of the operation, and it has no request
    body. *)
Theorem pointer_free_document_is_only_read (self : SwaggerProcessor)
    (gas depth : nat) (h : store) (catalog : list Method) (h' : store) :
  no_key "$ref" h ->
  parse_swagger self gas depth h = Done (catalog, h') ->
  h' = h
  /\ exists endpoints dp,
       py_get (swagger_json_data self) "paths" h = Done (endpoints, h)
       /\ deref h endpoints = Some (ODict dp)
       /\ Forall2
            (fun m op =>
               Method_url m = String.append (base_endpoint_url self) (fst (fst op))
               /\ Operation_getitem (snd (fst op)) = Done (Method_type m)
               /\ Method_request_body m = None)
            catalog (live_operations_at h dp).
Proof.
  intros F H. unfold parse_swagger in H.
  apply bind_Done in H as (endpoints & h1 & E & H).
  destruct (keeps_get (eq h) _ _ _ _ _ eq_refl E) as [<- _].
  destruct (is_none endpoints); [discriminate H |].
  unfold parse_endpoints in H.
  apply bind_Done in H as (n & h1 & En & H).
  destruct (keeps_len (eq h) _ _ _ _ eq_refl En) as [<- _].
  apply (for_items_appends _ _ _
           (fun e new =>
              exists ms,
                deref h (snd e) = Some (ODict ms)
                /\ Forall2
                     (fun m op =>
                        Method_url m
                        = String.append (base_endpoint_url self) (fst (fst op))
                        /\ Operation_getitem (snd (fst op)) = Done (Method_type m)
                        /\ Method_request_body m = None)
                     new
                     (map (fun md => (fst e, fst md, snd md))
                        (List.filter (fun md => negb (deprecated_at h (snd md))) ms))))
    in H.
  - destruct H as (-> & dp & news & Hdp & -> & Hnews).
    split; [reflexivity |]. exists endpoints, dp.
    split; [exact E |]. split; [exact Hdp |].
    simpl. unfold live_operations_at. clear Hdp E En.
    induction Hnews as [| e new dp news (ms & Hms & Hnew) _ IH]; simpl; [constructor |].
    rewrite Hms. apply Forall2_app; assumption.
  - intros dp _ endpoint_url methods acc acc' h1 _ Hin.
    apply (for_items_appends _ _ _
             (fun md new =>
                if deprecated_at h (snd md) then new = []
                else exists m,
                    new = [m]
                    /\ Method_url m = String.append (base_endpoint_url self) endpoint_url
                    /\ Operation_getitem (fst md) = Done (Method_type m)
                    /\ Method_request_body m = None)) in Hin.
    + destruct Hin as (-> & ms & news & Hms & -> & Hnews).
      split; [reflexivity |]. exists (concat news). split; [reflexivity |].
      exists ms. split; [exact Hms |]. simpl. clear Hms.
      induction Hnews as [| md new ms news Hnew _ IH]; simpl; [constructor |].
      destruct (deprecated_at h (snd md)); simpl.
      * subst new. exact IH.
      * destruct Hnew as (m & -> & Hm). simpl. constructor; [exact Hm | exact IH].
    + intros ms _ method method_data printed printed' h2 _ Hrun.
      apply bind_Done in Hrun as (pm & h3 & Epm & Hrun).
      destruct (pointer_free_parse_method self gas depth h F _ _ _ _ _ _ eq_refl Epm)
        as [<- Hrb].
      destruct pm as [m |]; injection Hrun as <- <-; (split; [reflexivity |]); simpl.
      * exists [m]. split; [reflexivity |].
        rewrite (parse_method_Some _ _ _ _ _ _ _ _ _ Epm).
        exists m. split; [reflexivity |].
        split; [exact (parse_method_url _ _ _ _ _ _ _ _ _ Epm) |].
        split; [exact (parse_method_type _ _ _ _ _ _ _ _ _ Epm) | exact (Hrb m eq_refl)].
      * exists []. rewrite app_nil_r. split; [reflexivity |].
        destruct (parse_method_None _ _ _ _ _ _ _ _ Epm) as (d & Hd & Hdep).
        unfold deprecated_at. rewrite Hd, Hdep. reflexivity.
Qed.

Lemma pointer_free_document_is_only_read_witness :
  no_key "$ref" (store_of resolved_shop_doc)
  /\ exists catalog endpoints dp,
       parse_swagger (processor_of resolved_shop_doc) 50 10 (store_of resolved_shop_doc)
       = Done (catalog, store_of resolved_shop_doc)
       /\ py_get (root_of resolved_shop_doc) "paths" (store_of resolved_shop_doc)
          = Done (endpoints, store_of resolved_shop_doc)
       /\ deref (store_of resolved_shop_doc) endpoints = Some (ODict dp)
       /\ map fst (live_operations_at (store_of resolved_shop_doc) dp)
          = [("/tags", "get"); ("/tags/{id}", "put")]
       /\ Forall2
            (fun m op =>
               Method_url m = String.append "http://api.test" (fst (fst op))
               /\ Operation_getitem (snd (fst op)) = Done (Method_type m)
               /\ Method_request_body m = None)
            catalog (live_operations_at (store_of resolved_shop_doc) dp).
Proof.
  split; [apply no_keyb_ok; reflexivity |].
  let r := eval vm_compute in
    (parse_swagger (processor_of resolved_shop_doc) 50 10 (store_of resolved_shop_doc)) in
  lazymatch r with
  | Done (?c, ?h1) =>
      destruct (pointer_free_document_is_only_read (processor_of resolved_shop_doc)
                  50 10 (store_of resolved_shop_doc) c h1
                  (no_keyb_ok "$ref" (store_of resolved_shop_doc) eq_refl) eq_refl)
        as (Hh & endpoints & dp & E & Hdp & Hall);
      exists c, endpoints, dp
  end.
  split; [reflexivity |]. split; [exact E |]. split; [exact Hdp |].
  split; [| exact Hall].
  injection E as <-. injection Hdp as <-. reflexivity.
Defined.

End CoreBehaviour.

(** * What else the second variant does *)

Module ProjectBehaviour.
Import Project ProjectTheory Examples Samples.

(** The entries of a parameter and of its schema. *)
Ltac with_schema param k :=
  let p := eval vm_compute in param in
  lazymatch p with
  | JDict ?d =>
      let sch := eval vm_compute in (dict_get "schema" d) in
      lazymatch sch with Some (JDict ?ds) => k d ds end
  end.

(** ** The sanitizer *)

Lemma delete_useless_keys_fixes_clean_data (keys_set : list string) :
  forall data,
    (forall k, In k keys_set -> has_key k data = false) ->
    delete_useless_keys keys_set data = data.
Proof.
  induction data as [| b | z | s | xs IH | kvs IH] using json_ind; intros Hclean;
    try reflexivity.
  - simpl. f_equal.
    assert (Hxs : forall k, In k keys_set -> Forall (fun j => has_key k j = false) xs).
    { intros k Hk. apply CoreTheory.has_key_list_false. auto. }
    clear Hclean. induction IH as [| x r Hx _ IHr]; simpl; [reflexivity |].
    rewrite Hx, IHr; [reflexivity | |].
    + intros k Hk. specialize (Hxs k Hk). inversion Hxs; assumption.
    + intros k Hk. specialize (Hxs k Hk). inversion Hxs; assumption.
  - simpl. f_equal.
    assert (Hkvs : forall k, In k keys_set ->
               Forall (fun kj => String.eqb (fst kj) k = false
                                 /\ has_key k (snd kj) = false) kvs).
    { intros k Hk. apply CoreTheory.has_key_dict_false. auto. }
    clear Hclean. induction IH as [| [k' v] r Hv _ IHr]; simpl; [reflexivity |].
    assert (Hhead : existsb (String.eqb k') keys_set = false).
    { apply not_true_is_false. intros E. apply existsb_exists in E as (k & Hk & E).
      specialize (Hkvs k Hk). inversion Hkvs as [| ? ? [Hne _] _]; subst.
      simpl in Hne. congruence. }
    rewrite Hhead. simpl in Hv. rewrite Hv, IHr; [reflexivity | |].
    + intros k Hk. specialize (Hkvs k Hk). inversion Hkvs; assumption.
    + intros k Hk. specialize (Hkvs k Hk). inversion Hkvs as [| ? ? [_ Hc] _]; subst.
      exact Hc.
Qed.

(** X17.  The sanitizer is idempotent: cleaning what it returned changes
    nothing. *)
Theorem sanitizer_is_idempotent (keys_set : list string) (data : json) :
  delete_useless_keys keys_set (delete_useless_keys keys_set data)
  = delete_useless_keys keys_set data.
Proof.
  apply delete_useless_keys_fixes_clean_data.
  intros k Hk. apply delete_useless_keys_clean. exact Hk.
Qed.

(** X18.  Data in which no key of the denylist occurs, at any depth, comes
    back from the sanitizer as it went in. *)
Theorem sanitizer_keeps_clean_data (keys_set : list string) (data : json) :
  (forall k, In k keys_set -> has_key k data = false) ->
  delete_useless_keys keys_set data = data.
Proof.
  apply delete_useless_keys_fixes_clean_data.
Qed.

Lemma sanitizer_keeps_clean_data_witness :
  delete_useless_keys ["xml"] tag_schema = tag_schema.
Proof.
  apply (sanitizer_keeps_clean_data ["xml"] tag_schema).
  intros k [<- | []]. reflexivity.
Defined.

Lemma delete_useless_keys_lookup (keys_set : list string) (k : string)
    (d : list (string * json)) :
  exists out,
    delete_useless_keys keys_set (JDict d) = JDict out
    /\ dict_get k out
       = if existsb (String.eqb k) keys_set then None
         else delete_useless_keys keys_set <$> dict_get k d.
Proof.
  eexists. split; [reflexivity |].
  induction d as [| [k' v] r IH]; simpl.
  - destruct (existsb (String.eqb k) keys_set); reflexivity.
  - destruct (existsb (String.eqb k') keys_set) eqn:E'.
    + rewrite IH. destruct (String.eqb_spec k' k) as [-> | _]; [| reflexivity].
      rewrite E'. reflexivity.
    + simpl. destruct (String.eqb_spec k' k) as [-> | _]; [| exact IH].
      rewrite E'. reflexivity.
Qed.

(** X19.  The sanitizer returns a mapping for a mapping, and a key that is
    not on the denylist keeps its place in it: what the result holds under
    the key is the cleaned value of what the input holds under it (and
    nothing when the input has no such key). *)
Theorem sanitizer_keeps_other_entries (keys_set : list string) (k : string)
    (d : list (string * json)) :
  existsb (String.eqb k) keys_set = false ->
  exists out,
    delete_useless_keys keys_set (JDict d) = JDict out
    /\ dict_get k out = delete_useless_keys keys_set <$> dict_get k d.
Proof.
  intros Hk. destruct (delete_useless_keys_lookup keys_set k d) as (out & E & Hget).
  rewrite Hk in Hget. eauto.
Qed.

Lemma sanitizer_keeps_other_entries_witness :
  exists out,
    delete_useless_keys ["xml"]
      (JDict [("xml", JDict [("name", JStr "filter")]);
              ("properties",
               JDict [("age", JDict [("type", JStr "integer"); ("xml", JDict [])])])])
    = JDict out
    /\ dict_get "properties" out
       = Some (JDict [("age", JDict [("type", JStr "integer")])]).
Proof.
  exact (sanitizer_keeps_other_entries ["xml"] "properties"
           [("xml", JDict [("name", JStr "filter")]);
            ("properties",
             JDict [("age", JDict [("type", JStr "integer"); ("xml", JDict [])])])]
           eq_refl).
Defined.

(** ** [__prepare_schema] on a schema with unique keys *)

Lemma dict_get_notin {A} (k : string) (d : list (string * A)) :
  ~ In k (map fst d) -> dict_get k d = None.
Proof.
  induction d as [| [k' v] r IH]; simpl; [reflexivity |]. intros H.
  destruct (String.eqb_spec k' k) as [-> | _]; [exfalso; auto | auto].
Qed.

Lemma dict_del_keys {A} (k k' : string) (d : list (string * A)) :
  In k' (map fst (dict_del k d)) -> In k' (map fst d).
Proof.
  induction d as [| [k1 v] r IH]; simpl; [auto |].
  destruct (String.eqb k1 k); simpl; [auto |]. intros [-> | H]; auto.
Qed.

Lemma dict_del_NoDup {A} (k : string) (d : list (string * A)) :
  NoDup (map fst d) -> NoDup (map fst (dict_del k d)).
Proof.
  induction d as [| [k1 v] r IH]; simpl; [auto |]. intros H.
  apply NoDup_cons in H as [Hk1 Hr].
  destruct (String.eqb k1 k); [exact Hr |]. simpl.
  apply NoDup_cons. split; [| auto].
  rewrite list_elem_of_In in *. intros Hin. apply Hk1. eauto using dict_del_keys.
Qed.

Lemma dict_get_del_same {A} (k : string) (d : list (string * A)) :
  NoDup (map fst d) -> dict_get k (dict_del k d) = None.
Proof.
  induction d as [| [k1 v] r IH]; simpl; [reflexivity |]. intros H.
  apply NoDup_cons in H as [Hk1 Hr]. rewrite list_elem_of_In in Hk1.
  destruct (String.eqb_spec k1 k) as [-> | Hne]; simpl.
  - apply dict_get_notin. exact Hk1.
  - destruct (String.eqb_spec k1 k) as [-> | _]; [congruence | auto].
Qed.

Lemma dict_get_del_None {A} (k k' : string) (d : list (string * A)) :
  dict_get k d = None -> dict_get k (dict_del k' d) = None.
Proof.
  induction d as [| [k1 v] r IH]; simpl; [reflexivity |].
  destruct (String.eqb k1 k) eqn:E; [discriminate |]. intros H.
  destruct (String.eqb k1 k'); simpl; [exact H |]. rewrite E. auto.
Qed.

Lemma delete_keys_spec (keys : list string) :
  forall d : list (string * json),
    NoDup (map fst d) ->
    NoDup (map fst (delete_keys keys d))
    /\ (forall k, In k keys -> dict_get k (delete_keys keys d) = None)
    /\ (forall k, dict_get k d = None -> dict_get k (delete_keys keys d) = None).
Proof.
  induction keys as [| key r IH]; simpl; intros d Hd.
  - repeat split; [exact Hd | intros k [] | auto].
  - set (d1 := if dict_mem key d then dict_del key d else d).
    assert (Hd1 : NoDup (map fst d1)).
    { unfold d1. destruct (dict_mem key d); [apply dict_del_NoDup |]; exact Hd. }
    assert (Hkey : dict_get key d1 = None).
    { unfold d1, dict_mem. destruct (dict_get key d) eqn:E; [| exact E].
      apply dict_get_del_same. exact Hd. }
    assert (Hkeep : forall k, dict_get k d = None -> dict_get k d1 = None).
    { intros k Hk. unfold d1. destruct (dict_mem key d); [| exact Hk].
      apply dict_get_del_None. exact Hk. }
    destruct (IH d1 Hd1) as (Hnd & Hdel & Hnone).
    repeat split; [exact Hnd | | auto].
    intros k [<- | Hk]; auto.
Qed.

Lemma prepare_schema_top (keys_set : list string) (ds : list (string * json))
    (more : list string) (r : json) :
  NoDup (map fst ds) ->
  prepare_schema keys_set (JDict ds) true more = Done r ->
  exists out,
    r = JDict out
    /\ forall k, In k ("type" :: more) -> dict_get k out = None.
Proof.
  intros Hnd H. unfold prepare_schema in H. simpl in H.
  destruct (dict_mem "type" ds); [| discriminate H]. simpl in H. injection H as <-.
  destruct (delete_keys_spec more (dict_del "type" ds) (dict_del_NoDup _ _ Hnd))
    as (_ & Hdel & Hnone).
  assert (Hgone : forall k, In k ("type" :: more) ->
             dict_get k (delete_keys more (dict_del "type" ds)) = None).
  { intros k [<- | Hk]; [| auto]. apply Hnone. apply dict_get_del_same. exact Hnd. }
  eexists. split; [reflexivity |]. intros k Hk.
  destruct (delete_useless_keys_lookup keys_set k
              (delete_keys more (dict_del "type" ds))) as (out & E & Hget).
  simpl in E. injection E as <-. rewrite Hget, (Hgone k Hk).
  destruct (existsb (String.eqb k) keys_set); reflexivity.
Qed.

(** X20.  The [schema_obj] of a [Parameter]: for a parameter whose schema has
    no key twice (as every decoded mapping), the cleaned schema has no
    [type], [pattern], [format] or [maxLength] entry at its top level:
    [__prepare_schema] deletes them before it cleans the rest. *)
Theorem schema_obj_loses_type_and_constraints (self : SwaggerProcessor)
    (d ds out : list (string * json)) (p : Parameter') (k : string) :
  parse_parameter self (JDict d) = Done p ->
  dict_get "schema" d = Some (JDict ds) ->
  NoDup (map fst ds) ->
  Parameter_schema_obj p = Some out ->
  In k ["type"; "pattern"; "format"; "maxLength"] ->
  dict_get k out = None.
Proof.
  unfold parse_parameter. intros H Hs Hnd Hout Hk.
  apply outcome_bind_Done in H as (param_schema & E0 & H).
  simpl in E0. rewrite Hs in E0. injection E0 as <-.
  apply outcome_bind_Done in H as (t & _ & H).
  apply outcome_bind_Done in H as (param_type & _ & H).
  apply outcome_bind_Done in H as (pattern & _ & H).
  apply outcome_bind_Done in H as (format & _ & H).
  apply outcome_bind_Done in H as (max_len & _ & H).
  apply outcome_bind_Done in H as (schema_obj & Eobj & H).
  repeat inv_bind H. injection H as <-. simpl in Hout.
  lazymatch goal with
  | Hx : as_opt_dict (if truthy schema_obj then schema_obj else JNull) = Done _ |- _ =>
      rewrite Hout in Hx; rename Hx into Hobj
  end.
  destruct (truthy schema_obj); [| discriminate Hobj].
  destruct schema_obj; try discriminate Hobj. injection Hobj as ->.
  destruct (truthy (JDict ds) && negb (eq_str param_type "array")); [| discriminate Eobj].
  destruct (prepare_schema_top _ _ _ _ Hnd Eobj) as (out' & [= <-] & Hgone).
  apply Hgone. exact Hk.
Qed.

Lemma schema_obj_loses_type_and_constraints_witness :
  exists p out,
    parse_parameter (new_processor "http://api.test") filter_parameter = Done p
    /\ Parameter_schema_obj p = Some out
    /\ dict_get "type" out = None.
Proof.
  let run := eval vm_compute in
    (parse_parameter (new_processor "http://api.test") filter_parameter) in
  lazymatch run with
  | Done ?p =>
      let obj := eval vm_compute in (Parameter_schema_obj p) in
      lazymatch obj with
      | Some ?out =>
          exists p, out; split; [reflexivity |]; split; [reflexivity |];
          with_schema filter_parameter ltac:(fun d ds =>
            apply (schema_obj_loses_type_and_constraints
                     (new_processor "http://api.test") d ds out p "type");
            [ reflexivity | reflexivity | | reflexivity | left; reflexivity ])
      end
  end.
  apply (bool_decide_unpack _). vm_compute. exact I.
Defined.

Lemma parse_parameters_loop_app (self : SwaggerProcessor) (pre rest : list json) :
  forall acc out,
    parse_parameters_loop self pre acc = Done out ->
    parse_parameters_loop self (pre ++ rest) acc = parse_parameters_loop self rest out.
Proof.
  induction pre as [| p r IH]; simpl; intros acc out H.
  - injection H as <-. reflexivity.
  - destruct (parse_parameter self p) as [x | e |]; try discriminate H. simpl in *.
    auto.
Qed.

(** X21.  A parameter with a non-empty schema that has no [type] entry (a
    [oneOf], say) stops [__parse_parameters] with [KeyError], unless the
    parameter itself says it is an array: [__prepare_schema] does
    [del schema_data["type"]] without looking.  The parameters before it
    were parsed, those after it are not looked at, and no list is
    returned. *)
Theorem schema_without_type_stops_the_parse (self : SwaggerProcessor)
    (d ds : list (string * json)) (pre post : list json) (ps : list Parameter') :
  dict_get "schema" d = Some (JDict ds) ->
  ds <> [] ->
  dict_get "type" ds = None ->
  default JNull (dict_get "type" d) <> JStr "array" ->
  parse_parameters self (JList pre) = Done ps ->
  parse_parameters self (JList (pre ++ JDict d :: post)) = Raise KeyError.
Proof.
  intros Hs Hne Hty Hnarr Hpre. unfold parse_parameters in *. simpl in *.
  rewrite (parse_parameters_loop_app self pre _ [] ps Hpre). simpl.
  assert (E : parse_parameter self (JDict d) = Raise KeyError); [| rewrite E; reflexivity].
  unfold parse_parameter, additional_value. simpl. rewrite Hs. simpl. rewrite Hty.
  assert (Ht : exists t,
             py_or (default JNull (dict_get "type" d)) (Done (default JNull None))
             = Done t
             /\ eq_str t "array" = false).
  { unfold py_or. destruct (truthy (default JNull (dict_get "type" d))).
    - eexists. split; [reflexivity |].
      destruct (default JNull (dict_get "type" d)); try reflexivity.
      simpl. apply String.eqb_neq. congruence.
    - eexists. split; reflexivity. }
  destruct Ht as (t & -> & Harr). simpl. rewrite Harr.
  assert (match ds with [] => false | _ :: _ => true end = true) as ->
    by (destruct ds; congruence).
  unfold prepare_schema, dict_mem. rewrite Hty.
  destruct (is_none (default JNull (dict_get "pattern" d)));
    destruct (is_none (default JNull (dict_get "format" d)));
    destruct (is_none (default JNull (dict_get "maxLength" d))); reflexivity.
Qed.

Lemma schema_without_type_stops_the_parse_witness :
  parse_parameters (new_processor "http://api.test")
    (JList [name_parameter; choice_parameter; tags_parameter]) = Raise KeyError.
Proof.
  let pre := eval vm_compute in
    (parse_parameters (new_processor "http://api.test") (JList [name_parameter])) in
  lazymatch pre with
  | Done ?ps =>
      with_schema choice_parameter ltac:(fun d ds =>
        apply (schema_without_type_stops_the_parse (new_processor "http://api.test")
                 d ds [name_parameter] [tags_parameter] ps);
        [ reflexivity | discriminate | reflexivity | discriminate | reflexivity ])
  end.
Defined.

Lemma additional_value_None (d ds : list (string * json)) (akey : string) (v : json) :
  dict_get "schema" d = Some (JDict ds) ->
  dict_get "key" ds = None ->
  default JNull (dict_get akey d) = JNull ->
  additional_value (JDict d) akey = Done v -> v = JNull.
Proof.
  intros Hs Hkey Hd. unfold additional_value. simpl. rewrite Hd, Hs. simpl.
  rewrite ?Hs, ?Hkey. simpl. congruence.
Qed.

(** X22.  The fallback for [pattern], [format] and [maxLength] asks the
    schema for the literal key ["key"].  So for a parameter whose schema has
    no entry of that name, each of the three fields that the parameter does
    not state itself is [None] in the [Parameter], whatever the schema
    declares for it. *)
Theorem schema_constraints_are_never_picked_up (self : SwaggerProcessor)
    (d ds : list (string * json)) (p : Parameter') :
  parse_parameter self (JDict d) = Done p ->
  dict_get "schema" d = Some (JDict ds) ->
  dict_get "key" ds = None ->
  (default JNull (dict_get "pattern" d) = JNull -> Parameter_pattern p = None)
  /\ (default JNull (dict_get "format" d) = JNull -> Parameter_format p = None)
  /\ (default JNull (dict_get "maxLength" d) = JNull -> Parameter_max_len p = None).
Proof.
  unfold parse_parameter. intros H Hs Hkey.
  apply outcome_bind_Done in H as (param_schema & _ & H).
  apply outcome_bind_Done in H as (t & _ & H).
  apply outcome_bind_Done in H as (param_type & _ & H).
  apply outcome_bind_Done in H as (pattern & Epattern & H).
  apply outcome_bind_Done in H as (format & Eformat & H).
  apply outcome_bind_Done in H as (max_len & Elen & H).
  apply outcome_bind_Done in H as (schema_obj & _ & H).
  apply outcome_bind_Done in H as (items & _ & H).
  do 7 (apply outcome_bind_Done in H as (? & _ & H)).
  do 10 (apply outcome_bind_Done in H as (? & _ & H)).
  apply outcome_bind_Done in H as (format' & Ef & H).
  apply outcome_bind_Done in H as (pattern' & Ep & H).
  apply outcome_bind_Done in H as (max_len' & El & H).
  injection H as <-. simpl.
  repeat split; intros Hd.
  - apply (additional_value_None d ds _ _ Hs Hkey Hd) in Epattern as ->.
    simpl in Ep. congruence.
  - apply (additional_value_None d ds _ _ Hs Hkey Hd) in Eformat as ->.
    simpl in Ef. congruence.
  - apply (additional_value_None d ds _ _ Hs Hkey Hd) in Elen as ->.
    simpl in El. congruence.
Qed.

Lemma schema_constraints_are_never_picked_up_witness :
  exists p,
    parse_parameter (new_processor "http://api.test") name_parameter = Done p
    /\ Parameter_pattern p = None
    /\ Parameter_max_len p = None.
Proof.
  let run := eval vm_compute in
    (parse_parameter (new_processor "http://api.test") name_parameter) in
  lazymatch run with
  | Done ?p =>
      with_schema name_parameter ltac:(fun d ds =>
        destruct (schema_constraints_are_never_picked_up
                    (new_processor "http://api.test") d ds p eq_refl eq_refl eq_refl)
          as (Hpattern & _ & Hlen);
        exists p; split; [reflexivity |];
        split; [apply Hpattern | apply Hlen]; reflexivity)
  end.
Defined.

(** ** The catalog *)

Lemma parse_method_deprecated (self : SwaggerProcessor) method data url r :
  parse_method self method data url = Done r ->
  is_deprecated data = match r with None => true | Some _ => false end.
Proof.
  unfold parse_method. intros H. inv_bind H.
  destruct data; try discriminate E. simpl in E. injection E as <-. simpl.
  destruct (truthy _); [injection H as <-; reflexivity |].
  do 3 inv_bind H. injection H as <-. reflexivity.
Qed.

Lemma parse_methods_spec (self : SwaggerProcessor) (url : string) :
  forall ms printed out,
    parse_methods self url ms printed = Done out ->
    exists new,
      out = printed ++ new
      /\ Forall2
           (fun m op =>
              parse_method self (snd (fst op)) (snd op) (fst (fst op))
              = Done (Some m))
           new
           (List.filter (fun op => negb (is_deprecated (snd op)))
              (map (fun md => (url, fst md, snd md)) ms)).
Proof.
  induction ms as [| [method data] r IH]; simpl; intros printed out H.
  - injection H as <-. exists []. split; [now rewrite app_nil_r | constructor].
  - inv_bind H. rename a into parsed, E into Em.
    pose proof (parse_method_deprecated _ _ _ _ _ Em) as Hdep.
    apply IH in H as (new & -> & Hnew). rewrite Hdep.
    destruct parsed as [m |]; simpl.
    + exists (m :: new). split; [now rewrite <- app_assoc |].
      constructor; [exact Em | exact Hnew].
    + exists new. split; [reflexivity | exact Hnew].
Qed.

Lemma parse_endpoints_loop_spec (self : SwaggerProcessor) :
  forall es printed out,
    parse_endpoints_loop self es printed = Done out ->
    exists new,
      out = printed ++ new /\ Forall2
           (fun m op =>
              parse_method self (snd (fst op)) (snd op) (fst (fst op))
              = Done (Some m))
           new (live_operations es).
Proof.
  unfold live_operations, operations.
  induction es as [| [url methods] r IH]; simpl; intros printed out H.
  - injection H as <-. exists []. split; [now rewrite app_nil_r | constructor].
  - destruct methods; try discriminate H.
    inv_bind H. apply parse_methods_spec in E as (new1 & -> & Hnew1).
    apply IH in H as (new2 & -> & Hnew2).
    exists (new1 ++ new2). split; [now rewrite app_assoc |].
    rewrite List.filter_app. apply Forall2_app; assumption.
Qed.

Lemma parse_method_fields (self : SwaggerProcessor) method data url m :
  parse_method self method data url = Done (Some m) ->
  Method_url m = String.append (base_endpoint_url self) url
  /\ Operation_getitem method = Done (Method_type m)
  /\ Method_responses m = None
  /\ Method_request_body m = None.
Proof.
  unfold parse_method. intros H. inv_bind H.
  destruct (truthy a); [discriminate H |].
  do 3 inv_bind H. injection H as <-.
  unfold new_Method in E2. repeat inv_bind E2. injection E2 as <-. simpl.
  repeat split. assumption.
Qed.

(** X23.  When [parse_swagger] returns, [paths] was a mapping, and the
    methods it printed are, in the order of the document, the operations
    that are not marked deprecated, one [Method] for each: its [url] is the
    base URL followed by the path, its verb is the member of [Operation]
    named by the key, and it has neither responses nor a request body. *)
Theorem catalog_lists_the_live_operations (self : SwaggerProcessor)
    (parsed_spec : json) (catalog : list Method) :
  parse_swagger self parsed_spec = Done catalog ->
  exists es,
    py_get parsed_spec "paths" = Done (JDict es)
    /\ Forall2
         (fun m op =>
            parse_method self (snd (fst op)) (snd op) (fst (fst op)) = Done (Some m)
            /\ Method_url m = String.append (base_endpoint_url self) (fst (fst op))
            /\ Operation_getitem (snd (fst op)) = Done (Method_type m)
            /\ Method_responses m = None
            /\ Method_request_body m = None)
         catalog (live_operations es).
Proof.
  unfold parse_swagger. intros H. inv_bind H. rename a into endpoints.
  destruct (is_none endpoints); [discriminate H |].
  unfold parse_endpoints in H. destruct endpoints as [| | | | | es]; try discriminate H.
  exists es. split; [exact E |].
  apply parse_endpoints_loop_spec in H as (new & -> & Hnew). simpl.
  eapply Forall2_impl; [exact Hnew |].
  intros m [[url method] data] Hm. simpl in *.
  split; [exact Hm |]. eapply parse_method_fields. exact Hm.
Qed.

Lemma catalog_lists_the_live_operations_witness :
  exists catalog,
    parse_swagger (new_processor "http://api.test") resolved_shop_doc = Done catalog
    /\ map Method_url catalog = ["http://api.test/tags"; "http://api.test/tags/{id}"]
    /\ Forall2
         (fun m op =>
            Method_url m = String.append "http://api.test" (fst (fst op))
            /\ Operation_getitem (snd (fst op)) = Done (Method_type m))
         catalog (live_operations resolved_shop_paths).
Proof.
  let run := eval vm_compute in
    (parse_swagger (new_processor "http://api.test") resolved_shop_doc) in
  lazymatch run with
  | Done ?catalog =>
      destruct (catalog_lists_the_live_operations (new_processor "http://api.test")
                  resolved_shop_doc catalog eq_refl) as (es & Epaths & Hall);
      exists catalog; split; [reflexivity |]; split; [reflexivity |]
  end.
  injection Epaths as <-.
  eapply Forall2_impl; [exact Hall |].
  intros m op (_ & Hurl & Hverb & _). split; assumption.
Defined.

(** ** Parameters typed inline *)

Lemma as_opt_str_text (o : option json) :
  is_opt_text o -> as_opt_str (default JNull o) = Done (text_of o).
Proof. destruct o as [[] |]; simpl; intros H; try contradiction; reflexivity. Qed.

Lemma as_opt_int_num (o : option json) :
  is_opt_num o -> as_opt_int (default JNull o) = Done (num_of o).
Proof. destruct o as [[] |]; simpl; intros H; try contradiction; reflexivity. Qed.

Lemma as_bool_flag (o : option json) :
  is_opt_flag o -> as_bool (default (JBool false) o) = Done (flag_of o).
Proof. destruct o as [[] |]; simpl; intros H; try contradiction; reflexivity. Qed.

Lemma additional_value_without_schema (d : list (string * json)) (akey : string) :
  dict_get "schema" d = None ->
  additional_value (JDict d) akey = Done (default JNull (dict_get akey d)).
Proof.
  intros Hs. unfold additional_value. simpl. rewrite Hs. simpl.
  destruct (is_none (default JNull (dict_get akey d))); reflexivity.
Qed.

(** X24.  The second variant on a parameter that states its type inline (a
    type other than ["array"]) and has no schema: every field of the
    [Parameter] is the like-named entry of the parameter, [required] and
    [deprecated] are [False] when absent, and there is neither a
    [schema_obj] nor [items].  The lower bound is read from the key
    ["mimimum"] here too. *)
Theorem inline_parameter_of_the_resolved_document (self : SwaggerProcessor)
    (d : list (string * json)) (name location type : string) :
  dict_get "schema" d = None ->
  dict_get "type" d = Some (JStr type) ->
  type <> EmptyString -> type <> "array" ->
  dict_get "name" d = Some (JStr name) ->
  dict_get "in" d = Some (JStr location) ->
  is_opt_text (dict_get "description" d) ->
  is_opt_flag (dict_get "required" d) ->
  is_opt_flag (dict_get "deprecated" d) ->
  is_opt_num (dict_get "maximum" d) ->
  is_opt_num (dict_get "mimimum" d) ->
  is_opt_text (dict_get "format" d) ->
  is_opt_text (dict_get "pattern" d) ->
  is_opt_num (dict_get "maxLength" d) ->
  parse_parameter self (JDict d)
  = Done {| Parameter_name := name;
            Parameter_location := location;
            Parameter_description := text_of (dict_get "description" d);
            Parameter_deprecated := flag_of (dict_get "deprecated" d);
            Parameter_required := flag_of (dict_get "required" d);
            Parameter_type := AsStr type;
            Parameter_items := None;
            Parameter_schema_obj := None;
            Parameter_maximum := num_of (dict_get "maximum" d);
            Parameter_mimimum := num_of (dict_get "mimimum" d);
            Parameter_format := text_of (dict_get "format" d);
            Parameter_pattern := text_of (dict_get "pattern" d);
            Parameter_max_len := num_of (dict_get "maxLength" d) |}.
Proof.
  intros Hs Hty Hne Hnarr Hname Hin Hdescr Hreq Hdep Hmax Hmin Hformat Hpattern Hlen.
  unfold parse_parameter.
  rewrite !(additional_value_without_schema d _ Hs).
  unfold py_get, py_get_default, py_or. rewrite Hs, Hty, Hname, Hin.
  assert (truthy (JStr type) = true) as Htr.
  { simpl. apply negb_true_iff, String.eqb_neq. exact Hne. }
  assert (eq_str (JStr type) "array" = false) as Harr.
  { simpl. apply String.eqb_neq. exact Hnarr. }
  cbn [from_option id bind]. rewrite Htr. cbn [bind]. rewrite Harr.
  cbn [truthy andb bind as_str as_str_or_dict as_opt_dict].
  rewrite (as_opt_str_text _ Hdescr), (as_bool_flag _ Hdep), (as_bool_flag _ Hreq).
  cbn [bind].
  rewrite (as_opt_int_num _ Hmax), (as_opt_int_num _ Hmin). cbn [bind].
  rewrite (as_opt_str_text _ Hformat), (as_opt_str_text _ Hpattern). cbn [bind].
  rewrite (as_opt_int_num _ Hlen). reflexivity.
Qed.

Lemma inline_parameter_of_the_resolved_document_witness :
  exists p,
    parse_parameter (new_processor "http://api.test") limit_parameter = Done p
    /\ Parameter_type p = AsStr "integer"
    /\ Parameter_maximum p = Some 50%Z
    /\ Parameter_mimimum p = None
    /\ Parameter_schema_obj p = None.
Proof.
  let param := eval vm_compute in limit_parameter in
  lazymatch param with
  | JDict ?d =>
      eexists; split;
      [ exact (inline_parameter_of_the_resolved_document
                 (new_processor "http://api.test") d "limit" "query" "integer"
                 eq_refl eq_refl ltac:(discriminate) ltac:(discriminate)
                 eq_refl eq_refl I I I I I I I I)
      | repeat split ]
  end.
Defined.

(** X25.  The second variant on an array parameter (typed inline, without a
    schema) reads [array_items["type"]] without looking: with no items (or
    empty ones) it raises [TypeError], the subscript of [None]; with items
    that have no [type] entry it raises [KeyError]. *)
Theorem array_parameter_needs_typed_items (self : SwaggerProcessor)
    (d : list (string * json)) :
  dict_get "schema" d = None ->
  dict_get "type" d = Some (JStr "array") ->
  (truthy (default JNull (dict_get "items" d)) = false ->
   parse_parameter self (JDict d) = Raise TypeError)
  /\ (forall di,
        dict_get "items" d = Some (JDict di) -> di <> [] ->
        dict_get "type" di = None ->
        parse_parameter self (JDict d) = Raise KeyError).
Proof.
  intros Hs Hty. split.
  - intros Hitems. unfold parse_parameter.
    rewrite !(additional_value_without_schema d _ Hs).
    unfold py_get, py_get_default, py_or. rewrite Hs, Hty.
    cbn [from_option id bind truthy String.eqb Ascii.eqb Bool.eqb negb eq_str andb].
    rewrite Hitems. reflexivity.
  - intros di Hitems Hne Hnoty. unfold parse_parameter.
    rewrite !(additional_value_without_schema d _ Hs).
    unfold py_get, py_get_default, py_or. rewrite Hs, Hty, Hitems.
    cbn [from_option id bind truthy String.eqb Ascii.eqb Bool.eqb negb eq_str andb].
    destruct di; [congruence |].
    cbn [bind py_getitem]. rewrite Hnoty. reflexivity.
Qed.

Lemma array_parameter_needs_typed_items_witness :
  parse_parameter (new_processor "http://api.test") ids_parameter = Raise TypeError
  /\ parse_parameter (new_processor "http://api.test") refs_parameter = Raise KeyError.
Proof.
  split.
  - let param := eval vm_compute in ids_parameter in
    lazymatch param with
    | JDict ?d =>
        exact (proj1 (array_parameter_needs_typed_items
                        (new_processor "http://api.test") d eq_refl eq_refl) eq_refl)
    end.
  - let param := eval vm_compute in refs_parameter in
    lazymatch param with
    | JDict ?d =>
        eapply (proj2 (array_parameter_needs_typed_items
                         (new_processor "http://api.test") d eq_refl eq_refl));
        [reflexivity | discriminate | reflexivity]
    end.
Defined.

End ProjectBehaviour.
